(** * grpclb: the client-side load-balancing policy of gRPC core

    A shallow embedding of [src/core/load_balancing/grpclb/grpclb.cc]:
    the serverlist with its drop counter and address iterator, the
    picker, and the policy's control loop (balancer call, fallback,
    retry), followed by the properties of the specification that are
    checked against it.

    Conventions.
    - [size_t] and [int32_t] values are integers in [Z]; wrap-around
      and shifts are written out.
    - [char] arrays are strings; a model string shorter than the array
      stands for an array padded with NUL bytes.
    - Reference-counted objects that the code shares and mutates
      (serverlists, client stats, balancer calls) live in stores
      indexed by their address, a [nat].
    - A failed [CHECK], [Crash] or a null dereference is the result
      [None]. *)

From Stdlib Require Import ZArith Lia Bool List Ascii String.
From stdpp Require Import base option list strings gmap.

Local Open Scope Z_scope.

#[local] Set Warnings "-clear-no-such-hyp".

(** ** Machine integers *)

Module Int.

(** Width of [size_t] on the LP64 targets gRPC core is built for. *)
Definition size_bits : Z := 64.

Definition SIZE_MAX : Z := 2 ^ size_bits - 1.

(** Unsigned arithmetic on [size_t] is modulo [2 ^ size_bits]. *)
Definition size_wrap (z : Z) : Z := z mod 2 ^ size_bits.

Definition size_add (a b : Z) : Z := size_wrap (a + b).

Definition is_int32 (z : Z) : Prop := - 2 ^ 31 <= z < 2 ^ 31.

(** [static_cast<uint16_t>]. *)
Definition to_uint16 (z : Z) : Z := z mod 2 ^ 16.

End Int.

(** ** Character buffers *)

Module CStr.

Definition NUL : ascii := Ascii.zero.

(** [strnlen(buf, maxlen)]. *)
Fixpoint strnlen (buf : string) (maxlen : nat) : nat :=
  match maxlen with
  | O => O
  | S m =>
      match buf with
      | EmptyString => O
      | String c rest =>
          if Ascii.eqb c NUL then O else S (strnlen rest m)
      end
  end.

(** The first [n] bytes of a buffer, as [memcpy] and
    [Slice::FromCopiedBuffer] read them. *)
Fixpoint copied (buf : string) (n : nat) : string :=
  match n with
  | O => EmptyString
  | S m =>
      match buf with
      | EmptyString => String NUL (copied EmptyString m)
      | String c rest => String c (copied rest m)
      end
  end.

(** The C string a [const char*] into the buffer denotes. *)
Fixpoint c_str (buf : string) : string :=
  match buf with
  | EmptyString => EmptyString
  | String c rest => if Ascii.eqb c NUL then EmptyString else String c (c_str rest)
  end.

(** What a read of a C string through a pointer to the start of an
    array of [size] bytes finds: the bytes before the first NUL of the
    array, or [None] when the array holds no NUL and the read runs
    past its end. *)
Definition c_str_in (buf : string) (size : nat) : option string :=
  let n := strnlen buf size in
  if (n <? size)%nat then Some (copied buf n) else None.

End CStr.

(** ** Balancer responses (load_balancer_api.h, declared outside this file) *)

(** [GRPC_GRPCLB_SERVER_LOAD_BALANCE_TOKEN_MAX_SIZE]. *)
Definition GRPC_GRPCLB_SERVER_LOAD_BALANCE_TOKEN_MAX_SIZE : nat := 50.

(** Durations are milliseconds. *)
Definition Duration : Type := Z.

Record GrpcLbServer : Type := {
  ip_size : Z;
  ip_addr : string;
  port : Z;
  load_balance_token : string;
  drop : bool
}.

(** Modelled from the spec: [GrpcLbServer::operator==], which is not in
    this file; "Equality: by entry-vector value", so two entries are
    equal when all their fields are. *)
Definition GrpcLbServer_eqb (a b : GrpcLbServer) : bool :=
  Z.eqb (ip_size a) (ip_size b)
  && String.eqb (ip_addr a) (ip_addr b)
  && Z.eqb (port a) (port b)
  && String.eqb (load_balance_token a) (load_balance_token b)
  && Bool.eqb (drop a) (drop b).

Inductive GrpcLbResponseType : Type := INITIAL | SERVERLIST | FALLBACK.

Record GrpcLbResponse : Type := {
  type : GrpcLbResponseType;
  client_stats_report_interval : Duration;
  serverlist : list GrpcLbServer
}.

(** ** Addresses and channel args *)

Inductive grpc_resolved_address : Type :=
| sockaddr_zero
| sockaddr_in (sin_addr : string) (sin_port : Z)
| sockaddr_in6 (sin6_addr : string) (sin6_port : Z).

(** Address of a [GrpcLbClientStats] object in the stats store. *)
Abbreviation StatsPtr := nat (only parsing).

Module TokenAndClientStatsArg.

Record t : Type := {
  lb_token_ : string;
  client_stats_ : option StatsPtr
}.

Definition lb_token (a : t) : string := lb_token_ a.
Definition client_stats (a : t) : option StatsPtr := client_stats_ a.

(** [GRPC_ARG_NO_SUBCHANNEL_PREFIX] is defined outside this file. *)
Definition GRPC_ARG_NO_SUBCHANNEL_PREFIX : string := "grpc.internal.no_subchannel.".

Definition ChannelArgName : string :=
  GRPC_ARG_NO_SUBCHANNEL_PREFIX +:+ "grpclb_token_and_client_stats".

End TokenAndClientStatsArg.

Inductive ArgValue : Type :=
| ArgInt (i : Z)
| ArgString (s : string)
| ArgObject (o : TokenAndClientStatsArg.t).

Module ChannelArgs.

Definition empty : gmap string ArgValue := ∅.

Definition Set_ (name : string) (v : ArgValue) (a : gmap string ArgValue)
  : gmap string ArgValue := <[name := v]> a.

(** [SetObject] stores the object under its type's [ChannelArgName]. *)
Definition SetObject (o : TokenAndClientStatsArg.t) (a : gmap string ArgValue)
  : gmap string ArgValue :=
  <[TokenAndClientStatsArg.ChannelArgName := ArgObject o]> a.

(** [GetObject<TokenAndClientStatsArg>]. *)
Definition GetObject (a : gmap string ArgValue) : option TokenAndClientStatsArg.t :=
  match a !! TokenAndClientStatsArg.ChannelArgName with
  | Some (ArgObject o) => Some o
  | _ => None
  end.

End ChannelArgs.

Record EndpointAddresses : Type := {
  addresses : list grpc_resolved_address;
  args : gmap string ArgValue
}.

(** ** GrpcLb::Serverlist::AddressIterator helpers *)

Definition IsServerValid (server : GrpcLbServer) (idx : nat) (log : bool) : bool :=
  if drop server then false
  else if negb (Z.eqb (Z.shiftr (port server) 16) 0) then false
  else if negb (Z.eqb (ip_size server) 4) && negb (Z.eqb (ip_size server) 16) then false
  else true.

Definition ParseServer (server : GrpcLbServer) : grpc_resolved_address :=
  if drop server then sockaddr_zero
  else
    let netorder_port := Int.to_uint16 (port server) in
    if Z.eqb (ip_size server) 4 then
      sockaddr_in (CStr.copied (ip_addr server) 4) netorder_port
    else if Z.eqb (ip_size server) 16 then
      sockaddr_in6 (CStr.copied (ip_addr server) 16) netorder_port
    else sockaddr_zero.

(** The LB token the iterator copies out of an entry. *)
Definition lb_token_of (server : GrpcLbServer) : string :=
  let lb_token_length :=
    CStr.strnlen (load_balance_token server)
                 GRPC_GRPCLB_SERVER_LOAD_BALANCE_TOKEN_MAX_SIZE in
  CStr.copied (load_balance_token server) lb_token_length.

(** ** GrpcLb::Serverlist *)

Module Serverlist.

Record t : Type := {
  serverlist_ : list GrpcLbServer;
  drop_index_ : Z
}.

(** The constructor takes the entries; [drop_index_] starts at 0. *)
Definition make (entries : list GrpcLbServer) : t :=
  {| serverlist_ := entries; drop_index_ := 0 |}.

(** [std::vector::operator==]: equal sizes and pairwise equal entries. *)
Fixpoint vector_eq (a b : list GrpcLbServer) : bool :=
  match a, b with
  | [], [] => true
  | x :: a', y :: b' => GrpcLbServer_eqb x y && vector_eq a' b'
  | _, _ => false
  end.

Definition eq (self other : t) : bool :=
  vector_eq (serverlist_ self) (serverlist_ other).

Definition ContainsAllDropEntries (self : t) : bool :=
  match serverlist_ self with
  | [] => false
  | _ => forallb drop (serverlist_ self)
  end.

(** Returns the token to use for a drop (or [None] for the null
    pointer) and the object after the call. *)
Definition ShouldDrop (self : t) : option string * t :=
  match serverlist_ self with
  | [] => (None, self)
  | _ =>
      let index := drop_index_ self in
      let self' := {| serverlist_ := serverlist_ self;
                      drop_index_ := Int.size_add index 1 |} in
      match serverlist_ self
              !! Z.to_nat (index mod Z.of_nat (length (serverlist_ self))) with
      | Some server =>
          (if drop server then Some (load_balance_token server) else None, self')
      | None => (None, self')
      end
  end.

End Serverlist.

(** ** GrpcLb::Serverlist::AddressIterator *)

Module AddressIterator.

Record t : Type := {
  serverlist_ : Serverlist.t;
  client_stats_ : option StatsPtr
}.

(** One iteration of the loop body of [ForEach] at index [i]: the
    callback is applied to the accumulator when the entry is valid. *)
Definition visit {A : Type} (self : t)
    (callback : EndpointAddresses -> A -> A) (i : nat) (acc : A) : A :=
  match Serverlist.serverlist_ (serverlist_ self) !! i with
  | None => acc
  | Some server =>
      if negb (IsServerValid server i false) then acc
      else
        let addr := ParseServer server in
        let lb_token := lb_token_of server in
        callback
          {| addresses := [addr];
             args := ChannelArgs.SetObject
                       {| TokenAndClientStatsArg.lb_token_ := lb_token;
                          TokenAndClientStatsArg.client_stats_ := client_stats_ self |}
                       ChannelArgs.empty |}
          acc
  end.

(** [for (size_t i = 0; i < size; ++i)]: [remaining] counts the
    iterations left, [i] is the loop variable. *)
Fixpoint loop {A : Type} (self : t)
    (callback : EndpointAddresses -> A -> A) (remaining : nat) (i : nat) (acc : A) : A :=
  match remaining with
  | O => acc
  | S r => loop self callback r (S i) (visit self callback i acc)
  end.

Definition ForEach {A : Type} (self : t)
    (callback : EndpointAddresses -> A -> A) (acc : A) : A :=
  loop self callback (length (Serverlist.serverlist_ (serverlist_ self))) O acc.

End AddressIterator.

(** ** Client stats *)

Module GrpcLbClientStats.

(** Modelled from the spec: [GrpcLbClientStats] (grpclb_client_stats.h,
    not in this file) "aggregates counters {started, finished,
    finished_client_failed_send, finished_known_received} and a
    token→drop-count map".  [drops_past_token_array_] keeps apart the
    drops whose token was read past the end of its array (see
    [AddCallDropped]). *)
Record t : Type := {
  num_calls_started_ : Z;
  num_calls_finished_ : Z;
  num_calls_finished_with_client_failed_to_send_ : Z;
  num_calls_finished_known_received_ : Z;
  drop_token_counts_ : gmap string Z;
  drops_past_token_array_ : list string
}.

Definition make : t :=
  {| num_calls_started_ := 0;
     num_calls_finished_ := 0;
     num_calls_finished_with_client_failed_to_send_ := 0;
     num_calls_finished_known_received_ := 0;
     drop_token_counts_ := ∅;
     drops_past_token_array_ := [] |}.

(** Modelled from the spec: [AddCallStarted] counts one more started call. *)
Definition AddCallStarted (s : t) : t :=
  {| num_calls_started_ := num_calls_started_ s + 1;
     num_calls_finished_ := num_calls_finished_ s;
     num_calls_finished_with_client_failed_to_send_ :=
       num_calls_finished_with_client_failed_to_send_ s;
     num_calls_finished_known_received_ := num_calls_finished_known_received_ s;
     drop_token_counts_ := drop_token_counts_ s;
     drops_past_token_array_ := drops_past_token_array_ s |}.

Definition drop_count (s : t) (token : string) : Z :=
  default 0 (drop_token_counts_ s !! token).

(** Modelled from the spec: [AddCallDropped(token)] does "increment
    [drops[token]] on stats".  [token] is the array the pointer of the
    caller points into, [load_balance_token] of a serverlist entry, and
    the key is the C string read through that pointer.  When the array
    holds no NUL the read runs past its end: the key is then the bytes
    of the array followed by whatever lies behind it, which this model
    does not know; such a drop is recorded in
    [drops_past_token_array_], with the bytes of the array, and no
    count of [drop_token_counts_] (whose keys are shorter than the
    array) changes. *)
Definition AddCallDropped (token : string) (s : t) : t :=
  match CStr.c_str_in token GRPC_GRPCLB_SERVER_LOAD_BALANCE_TOKEN_MAX_SIZE with
  | Some key =>
      {| num_calls_started_ := num_calls_started_ s;
         num_calls_finished_ := num_calls_finished_ s;
         num_calls_finished_with_client_failed_to_send_ :=
           num_calls_finished_with_client_failed_to_send_ s;
         num_calls_finished_known_received_ := num_calls_finished_known_received_ s;
         drop_token_counts_ := <[key := drop_count s key + 1]> (drop_token_counts_ s);
         drops_past_token_array_ := drops_past_token_array_ s |}
  | None =>
      {| num_calls_started_ := num_calls_started_ s;
         num_calls_finished_ := num_calls_finished_ s;
         num_calls_finished_with_client_failed_to_send_ :=
           num_calls_finished_with_client_failed_to_send_ s;
         num_calls_finished_known_received_ := num_calls_finished_known_received_ s;
         drop_token_counts_ := drop_token_counts_ s;
         drops_past_token_array_ :=
           drops_past_token_array_ s
           ++ [CStr.copied token GRPC_GRPCLB_SERVER_LOAD_BALANCE_TOKEN_MAX_SIZE] |}
  end.

End GrpcLbClientStats.

(** ** Shared objects *)

(** Address of a [Serverlist] object in the serverlist store. *)
Abbreviation ServerlistPtr := nat (only parsing).

(** The reference-counted objects that the picker (on application
    threads) and the policy (in the work serializer) both reach. *)
Record Heap : Type := {
  serverlists : list Serverlist.t;
  stats : list GrpcLbClientStats.t
}.

Definition heap_empty : Heap := {| serverlists := []; stats := [] |}.

Definition set_serverlists (v : list Serverlist.t) (h : Heap) : Heap :=
  {| serverlists := v; stats := stats h |}.

Definition set_stats (v : list GrpcLbClientStats.t) (h : Heap) : Heap :=
  {| serverlists := serverlists h; stats := v |}.

(** ** Pick results (lb_policy.h, declared outside this file) *)

Inductive StatusCode : Type :=
| kCancelled | kUnknown | kInvalidArgument | kDeadlineExceeded | kNotFound
| kAlreadyExists | kPermissionDenied | kResourceExhausted
| kFailedPrecondition | kAborted | kOutOfRange | kUnimplemented | kInternal
| kUnavailable | kDataLoss | kUnauthenticated.

Inductive Status : Type :=
| OkStatus
| ErrorStatus (code : StatusCode) (message : string).

Definition UnavailableError (message : string) : Status :=
  ErrorStatus kUnavailable message.

Definition Status_ok (s : Status) : bool :=
  match s with OkStatus => true | ErrorStatus _ _ => false end.

(** A transport subchannel, an external object. *)
Abbreviation SubchannelPtr := nat (only parsing).

Module SubchannelWrapper.

Record t : Type := {
  wrapped_subchannel_ : SubchannelPtr;
  lb_token_ : string;
  client_stats_ : option StatsPtr
}.

Definition wrapped_subchannel (w : t) : SubchannelPtr := wrapped_subchannel_ w.
Definition lb_token (w : t) : string := lb_token_ w.
Definition client_stats (w : t) : option StatsPtr := client_stats_ w.

End SubchannelWrapper.

(** Call trackers: the child's own (opaque), or the picker's
    [SubchannelCallTracker] holding a stats ref and the original one. *)
#[warnings="-register-all"]
Inductive CallTracker : Type :=
| ChildCallTracker (id : nat)
| SubchannelCallTracker (client_stats : StatsPtr)
                        (original_call_tracker : option CallTracker).

(** A metadata value is a slice: bytes, or (for the stats entry) a
    zero-length slice whose start pointer is the stats object. *)
Inductive MetadataValue : Type :=
| SliceBytes (bytes : string)
| SliceStaticPointer (p : StatsPtr).

(** [MetadataMutations] records the [Set] calls in order. *)
Module MetadataMutations.

Definition t : Type := list (string * MetadataValue).

Definition Set_ (key : string) (value : MetadataValue) (m : t) : t :=
  m ++ [(key, value)].

Definition sets_key (key : string) (m : t) : Prop :=
  exists v, In (key, v) m.

End MetadataMutations.

(** Modelled from the spec: the metadata keys, declared outside this
    file: "[lb-token: <opaque bytes>]" and
    "[grpclb-client-stats: <opaque pointer>]". *)
Definition LbTokenMetadata_key : string := "lb-token".
Definition GrpcLbClientStatsMetadata_key : string := "grpclb-client-stats".

Module PickResult.

Record Complete (S : Type) : Type := {
  subchannel : S;
  subchannel_call_tracker : option CallTracker;
  metadata_mutations : MetadataMutations.t
}.
Arguments subchannel {S} _.
Arguments subchannel_call_tracker {S} _.
Arguments metadata_mutations {S} _.

(** The pick result is a sum of four cases; [S] is the type of the
    subchannel of a complete pick. *)
Inductive t (S : Type) : Type :=
| IsComplete (c : Complete S)
| Queue
| Fail (status : Status)
| Drop (status : Status).
Arguments IsComplete {S} _.
Arguments Queue {S}.
Arguments Fail {S} _.
Arguments Drop {S} _.

Definition is_drop {S : Type} (r : t S) : bool :=
  match r with Drop _ => true | _ => false end.

End PickResult.

Record PickArgs : Type := {
  path : string;
  initial_metadata : list (string * string)
}.

(** The child policy's picker is an external object: it answers a
    pick from the picks it has been asked before.  The subchannels it
    returns are the [SubchannelWrapper]s that [Helper::CreateSubchannel]
    gave the child policy. *)
Module ChildPicker.

Record t : Type := {
  consulted : list PickArgs;
  decide : list PickArgs -> PickArgs -> PickResult.t SubchannelWrapper.t
}.

Definition Pick (self : t) (a : PickArgs)
  : PickResult.t SubchannelWrapper.t * t :=
  (decide self (consulted self) a,
   {| consulted := consulted self ++ [a]; decide := decide self |}).

End ChildPicker.

(** ** GrpcLb::Picker *)

Module Picker.

Record t : Type := {
  serverlist_ : option ServerlistPtr;
  child_picker_ : ChildPicker.t;
  client_stats_ : option StatsPtr
}.

Definition set_child_picker (c : ChildPicker.t) (self : t) : t :=
  {| serverlist_ := serverlist_ self;
     child_picker_ := c;
     client_stats_ := client_stats_ self |}.

(** [serverlist_ == nullptr ? nullptr : serverlist_->ShouldDrop()] *)
Definition consult_serverlist (self : t) (h : Heap) : option (option string * Heap) :=
  match serverlist_ self with
  | None => Some (None, h)
  | Some p =>
      sl ← serverlists h !! p;
      let '(drop_token, sl') := Serverlist.ShouldDrop sl in
      Some (drop_token, set_serverlists (<[p := sl']> (serverlists h)) h)
  end.

(** The part of [Pick] that runs on a complete pick of the child. *)
Definition complete (complete_pick : PickResult.Complete SubchannelWrapper.t)
    (h : Heap) : option (PickResult.Complete SubchannelPtr * Heap) :=
  let subchannel_wrapper := PickResult.subchannel complete_pick in
  '(tracker, metadata, h') ←
    match SubchannelWrapper.client_stats subchannel_wrapper with
    | Some client_stats =>
        s ← stats h !! client_stats;
        Some (Some (SubchannelCallTracker client_stats
                      (PickResult.subchannel_call_tracker complete_pick)),
              MetadataMutations.Set_ GrpcLbClientStatsMetadata_key
                (SliceStaticPointer client_stats)
                (PickResult.metadata_mutations complete_pick),
              set_stats (<[client_stats := GrpcLbClientStats.AddCallStarted s]> (stats h)) h)
    | None =>
        Some (PickResult.subchannel_call_tracker complete_pick,
              PickResult.metadata_mutations complete_pick, h)
    end;
  let metadata' :=
    if negb (String.eqb (SubchannelWrapper.lb_token subchannel_wrapper) "")
    then MetadataMutations.Set_ LbTokenMetadata_key
           (SliceBytes (SubchannelWrapper.lb_token subchannel_wrapper)) metadata
    else metadata in
  Some ({| PickResult.subchannel := SubchannelWrapper.wrapped_subchannel subchannel_wrapper;
           PickResult.subchannel_call_tracker := tracker;
           PickResult.metadata_mutations := metadata' |}, h').

Definition Pick (self : t) (a : PickArgs) (h : Heap)
  : option (PickResult.t SubchannelPtr * t * Heap) :=
  '(drop_token, h1) ← consult_serverlist self h;
  match drop_token with
  | Some token =>
      h2 ← match client_stats_ self with
           | Some q =>
               s ← stats h1 !! q;
               Some (set_stats (<[q := GrpcLbClientStats.AddCallDropped token s]> (stats h1)) h1)
           | None => Some h1
           end;
      Some (PickResult.Drop (UnavailableError "drop directed by grpclb balancer"),
            self, h2)
  | None =>
      let '(result, child') := ChildPicker.Pick (child_picker_ self) a in
      let self' := set_child_picker child' self in
      match result with
      | PickResult.IsComplete complete_pick =>
          '(c, h2) ← complete complete_pick h1;
          Some (PickResult.IsComplete c, self', h2)
      | PickResult.Queue => Some (PickResult.Queue, self', h1)
      | PickResult.Fail status => Some (PickResult.Fail status, self', h1)
      | PickResult.Drop status => Some (PickResult.Drop status, self', h1)
      end
  end.

End Picker.

(** ** Retry backoff (backoff.h, declared outside this file) *)

(** The backoff controller is used through [Reset] and
    [NextAttemptDelay] only; its schedule (with jitter) is a parameter
    of the development. *)
Class BackOffOps : Type := {
  BackOff : Type;
  BackOff_Reset : BackOff -> BackOff;
  BackOff_NextAttemptDelay : BackOff -> Duration * BackOff
}.

(** ** Types of the policy's interfaces *)

Inductive StatusOr (A : Type) : Type :=
| IsOk (value : A)
| IsError (status : Status).
Arguments IsOk {A} _.
Arguments IsError {A} _.

Inductive grpc_connectivity_state : Type :=
| GRPC_CHANNEL_IDLE
| GRPC_CHANNEL_CONNECTING
| GRPC_CHANNEL_READY
| GRPC_CHANNEL_TRANSIENT_FAILURE
| GRPC_CHANNEL_SHUTDOWN.

Definition is_READY (s : grpc_connectivity_state) : bool :=
  match s with GRPC_CHANNEL_READY => true | _ => false end.

Definition is_TRANSIENT_FAILURE (s : grpc_connectivity_state) : bool :=
  match s with GRPC_CHANNEL_TRANSIENT_FAILURE => true | _ => false end.

(** An [EventEngine::TaskHandle]. *)
Abbreviation TaskHandle := nat (only parsing).

(** Address of a [BalancerCallState] object in the call store. *)
Abbreviation CallPtr := nat (only parsing).

#[global] Instance TokenAndClientStatsArg_eq_dec : EqDecision TokenAndClientStatsArg.t.
Proof. solve_decision. Defined.

#[global] Instance ArgValue_eq_dec : EqDecision ArgValue.
Proof. solve_decision. Defined.

Module GrpcLbConfig.

(** The child policy's parsed config is opaque to this policy. *)
Record t : Type := {
  child_policy_ : string;
  service_name_ : string
}.

Definition child_policy (c : t) : string := child_policy_ c.
Definition service_name (c : t) : string := service_name_ c.

End GrpcLbConfig.

(** The resolver's channel args: the plain args and the attribute that
    carries the balancer addresses
    ([FindGrpclbBalancerAddressesInChannelArgs], outside this file). *)
Record PolicyArgs : Type := {
  channel_args : gmap string ArgValue;
  grpclb_balancer_addresses : option (list EndpointAddresses)
}.

Definition ExtractBalancerAddresses (a : PolicyArgs) : list EndpointAddresses :=
  match grpclb_balancer_addresses a with
  | Some endpoints => endpoints
  | None => []
  end.

(** ** GrpcLb::NullLbTokenEndpointIterator *)

Module NullLbTokenEndpointIterator.

(** [parent_it_] is the resolver's iterator, given by the endpoints it
    enumerates. *)
Record t : Type := {
  parent_it_ : list EndpointAddresses;
  empty_token_ : TokenAndClientStatsArg.t
}.

Definition make (parent_it : list EndpointAddresses) : t :=
  {| parent_it_ := parent_it;
     empty_token_ := {| TokenAndClientStatsArg.lb_token_ := "";
                        TokenAndClientStatsArg.client_stats_ := None |} |}.

Definition ForEach {A : Type} (self : t)
    (callback : EndpointAddresses -> A -> A) (acc : A) : A :=
  fold_left
    (fun acc endpoint =>
       callback {| addresses := addresses endpoint;
                   args := ChannelArgs.SetObject (empty_token_ self) (args endpoint) |}
                acc)
    (parent_it_ self) acc.

End NullLbTokenEndpointIterator.

(** [EndpointAddressesIterator]: the two implementations this policy
    hands to its child. *)
Module EndpointAddressesIterator.

Inductive t : Type :=
| OfServerlist (it : AddressIterator.t)
| OfFallback (it : NullLbTokenEndpointIterator.t).

Definition ForEach {A : Type} (self : t)
    (callback : EndpointAddresses -> A -> A) (acc : A) : A :=
  match self with
  | OfServerlist it => AddressIterator.ForEach it callback acc
  | OfFallback it => NullLbTokenEndpointIterator.ForEach it callback acc
  end.

(** The endpoints an iteration passes to its callback, in order. *)
Definition endpoints (self : t) : list EndpointAddresses :=
  ForEach self (fun e acc => acc ++ [e]) [].

End EndpointAddressesIterator.

Definition EndpointIteratorIsEmpty (endpoints : EndpointAddressesIterator.t) : bool :=
  EndpointAddressesIterator.ForEach endpoints (fun _ _ => false) true.

(** [LoadBalancingPolicy::UpdateArgs] as the resolver passes them. *)
Module UpdateArgs.

Record t : Type := {
  addresses : StatusOr (list EndpointAddresses);
  config : option GrpcLbConfig.t;
  resolution_note : string;
  args : PolicyArgs
}.

End UpdateArgs.

(** [LoadBalancingPolicy::UpdateArgs] as the child policy gets them. *)
Module ChildUpdateArgs.

Record t : Type := {
  addresses : StatusOr EndpointAddressesIterator.t;
  resolution_note : string;
  args : gmap string ArgValue;
  config : string
}.

End ChildUpdateArgs.

(** The payload of a received message, by what [GrpcLbResponseParse]
    (outside this file) makes of it. *)
Inductive Payload : Type :=
| Parses (response : GrpcLbResponse)
| Malformed (bytes : string).

Definition GrpcLbResponseParse (p : Payload) : option GrpcLbResponse :=
  match p with
  | Parses response => Some response
  | Malformed _ => None
  end.

(** ** Calls on external objects *)

Inductive TimerKind : Type :=
| FallbackTimer
| BalancerCallRetryTimer
| ClientLoadReportTimer (calld : CallPtr).

(** What the policy asks of the event engine, the balancer channel and
    call, the child policy and the parent channel, in program order. *)
Inductive Effect : Type :=
| TimerRunAfter (kind : TimerKind) (delay : Duration)
| TimerCancel (handle : TaskHandle)
| AddConnectivityWatcher
| RemoveConnectivityWatcher
| ChannelCreate (uri : string)
| SetResponseAsync (balancer_addresses : list EndpointAddresses)
| ChannelReset
| CallStartQuery (calld : CallPtr)
| CallRecvMessage (calld : CallPtr)
| CallCancel (calld : CallPtr)
| ChildPolicyCreate
| ChildUpdateLocked (update_args : ChildUpdateArgs.t)
| ChildPolicyReset
| ParentUpdateState (state : grpc_connectivity_state) (status : Status)
                    (picker : Picker.t)
| ParentRequestReresolution.

(** ** GrpcLb::BalancerCallState *)

Module BalancerCallState.

Record t : Type := {
  seen_initial_response_ : bool;
  seen_serverlist_ : bool;
  client_stats_ : option StatsPtr;
  client_stats_report_interval_ : Duration;
  client_load_report_handle_ : option TaskHandle
}.

Definition make : t :=
  {| seen_initial_response_ := false;
     seen_serverlist_ := false;
     client_stats_ := None;
     client_stats_report_interval_ := 0;
     client_load_report_handle_ := None |}.

Definition set_seen_initial_response_ (v : bool) (self : t) : t :=
  {| seen_initial_response_ := v; seen_serverlist_ := seen_serverlist_ self;
     client_stats_ := client_stats_ self;
     client_stats_report_interval_ := client_stats_report_interval_ self;
     client_load_report_handle_ := client_load_report_handle_ self |}.

Definition set_seen_serverlist_ (v : bool) (self : t) : t :=
  {| seen_initial_response_ := seen_initial_response_ self;
     seen_serverlist_ := v; client_stats_ := client_stats_ self;
     client_stats_report_interval_ := client_stats_report_interval_ self;
     client_load_report_handle_ := client_load_report_handle_ self |}.

Definition set_client_stats_ (v : option StatsPtr) (self : t) : t :=
  {| seen_initial_response_ := seen_initial_response_ self;
     seen_serverlist_ := seen_serverlist_ self; client_stats_ := v;
     client_stats_report_interval_ := client_stats_report_interval_ self;
     client_load_report_handle_ := client_load_report_handle_ self |}.

Definition set_client_stats_report_interval_ (v : Duration) (self : t) : t :=
  {| seen_initial_response_ := seen_initial_response_ self;
     seen_serverlist_ := seen_serverlist_ self;
     client_stats_ := client_stats_ self; client_stats_report_interval_ := v;
     client_load_report_handle_ := client_load_report_handle_ self |}.

Definition set_client_load_report_handle_ (v : option TaskHandle) (self : t) : t :=
  {| seen_initial_response_ := seen_initial_response_ self;
     seen_serverlist_ := seen_serverlist_ self;
     client_stats_ := client_stats_ self;
     client_stats_report_interval_ := client_stats_report_interval_ self;
     client_load_report_handle_ := v |}.

Definition client_stats (c : t) : option StatsPtr := client_stats_ c.
Definition seen_initial_response (c : t) : bool := seen_initial_response_ c.
Definition seen_serverlist (c : t) : bool := seen_serverlist_ c.

End BalancerCallState.

(** ** Channel arg names (defined outside this file, but for the first) *)

Definition GRPC_ARG_GRPCLB_ENABLE_LOAD_REPORTING_FILTER : string :=
  "grpc.internal.grpclb_enable_load_reporting_filter".
Definition GRPC_ARG_ADDRESS_IS_BACKEND_FROM_GRPCLB_LOAD_BALANCER : string :=
  "grpc.address_is_backend_from_grpclb_load_balancer".
Definition GRPC_ARG_INHIBIT_HEALTH_CHECKING : string :=
  "grpc.internal.inhibit_health_checking".

Definition GRPC_GRPCLB_DEFAULT_FALLBACK_TIMEOUT_MS : Z := 10000.

(** ** GrpcLb: the policy *)

Module GrpcLb.

Section Policy.

Context {backoff_ops : BackOffOps}.

(** The policy's fields (the subchannel cache, channelz and the
    load-report pipeline, which no handler below reads, are left out),
    then the stores of the objects it owns and the log of its calls on
    external objects.  [child_policy_] and [lb_channel_] record
    whether the pointer is non-null. *)
Record t : Type := {
  config_ : option GrpcLbConfig.t;
  args_ : PolicyArgs;
  authority_ : string;
  shutting_down_ : bool;
  lb_channel_ : option string;
  lb_calld_ : option CallPtr;
  lb_call_backoff_ : BackOff;
  lb_call_retry_timer_handle_ : option TaskHandle;
  serverlist_ : option ServerlistPtr;
  fallback_mode_ : bool;
  fallback_backend_addresses_ : StatusOr NullLbTokenEndpointIterator.t;
  resolution_note_ : string;
  fallback_at_startup_timeout_ : Duration;
  fallback_at_startup_checks_pending_ : bool;
  lb_fallback_timer_handle_ : option TaskHandle;
  child_policy_ : bool;
  child_policy_ready_ : bool;
  calls : list BalancerCallState.t;
  heap : Heap;
  effects : list Effect
}.

Definition set_config_ (v : option GrpcLbConfig.t) (self : t) : t :=
  {| config_ := v; args_ := args_ self; authority_ := authority_ self;
     shutting_down_ := shutting_down_ self; lb_channel_ := lb_channel_ self;
     lb_calld_ := lb_calld_ self; lb_call_backoff_ := lb_call_backoff_ self;
     lb_call_retry_timer_handle_ := lb_call_retry_timer_handle_ self;
     serverlist_ := serverlist_ self; fallback_mode_ := fallback_mode_ self;
     fallback_backend_addresses_ := fallback_backend_addresses_ self;
     resolution_note_ := resolution_note_ self;
     fallback_at_startup_timeout_ := fallback_at_startup_timeout_ self;
     fallback_at_startup_checks_pending_ := fallback_at_startup_checks_pending_ self;
     lb_fallback_timer_handle_ := lb_fallback_timer_handle_ self;
     child_policy_ := child_policy_ self;
     child_policy_ready_ := child_policy_ready_ self; calls := calls self;
     heap := heap self; effects := effects self |}.

Definition set_args_ (v : PolicyArgs) (self : t) : t :=
  {| config_ := config_ self; args_ := v; authority_ := authority_ self;
     shutting_down_ := shutting_down_ self; lb_channel_ := lb_channel_ self;
     lb_calld_ := lb_calld_ self; lb_call_backoff_ := lb_call_backoff_ self;
     lb_call_retry_timer_handle_ := lb_call_retry_timer_handle_ self;
     serverlist_ := serverlist_ self; fallback_mode_ := fallback_mode_ self;
     fallback_backend_addresses_ := fallback_backend_addresses_ self;
     resolution_note_ := resolution_note_ self;
     fallback_at_startup_timeout_ := fallback_at_startup_timeout_ self;
     fallback_at_startup_checks_pending_ := fallback_at_startup_checks_pending_ self;
     lb_fallback_timer_handle_ := lb_fallback_timer_handle_ self;
     child_policy_ := child_policy_ self;
     child_policy_ready_ := child_policy_ready_ self; calls := calls self;
     heap := heap self; effects := effects self |}.

Definition set_shutting_down_ (v : bool) (self : t) : t :=
  {| config_ := config_ self; args_ := args_ self;
     authority_ := authority_ self; shutting_down_ := v;
     lb_channel_ := lb_channel_ self; lb_calld_ := lb_calld_ self;
     lb_call_backoff_ := lb_call_backoff_ self;
     lb_call_retry_timer_handle_ := lb_call_retry_timer_handle_ self;
     serverlist_ := serverlist_ self; fallback_mode_ := fallback_mode_ self;
     fallback_backend_addresses_ := fallback_backend_addresses_ self;
     resolution_note_ := resolution_note_ self;
     fallback_at_startup_timeout_ := fallback_at_startup_timeout_ self;
     fallback_at_startup_checks_pending_ := fallback_at_startup_checks_pending_ self;
     lb_fallback_timer_handle_ := lb_fallback_timer_handle_ self;
     child_policy_ := child_policy_ self;
     child_policy_ready_ := child_policy_ready_ self; calls := calls self;
     heap := heap self; effects := effects self |}.

Definition set_lb_channel_ (v : option string) (self : t) : t :=
  {| config_ := config_ self; args_ := args_ self;
     authority_ := authority_ self; shutting_down_ := shutting_down_ self;
     lb_channel_ := v; lb_calld_ := lb_calld_ self;
     lb_call_backoff_ := lb_call_backoff_ self;
     lb_call_retry_timer_handle_ := lb_call_retry_timer_handle_ self;
     serverlist_ := serverlist_ self; fallback_mode_ := fallback_mode_ self;
     fallback_backend_addresses_ := fallback_backend_addresses_ self;
     resolution_note_ := resolution_note_ self;
     fallback_at_startup_timeout_ := fallback_at_startup_timeout_ self;
     fallback_at_startup_checks_pending_ := fallback_at_startup_checks_pending_ self;
     lb_fallback_timer_handle_ := lb_fallback_timer_handle_ self;
     child_policy_ := child_policy_ self;
     child_policy_ready_ := child_policy_ready_ self; calls := calls self;
     heap := heap self; effects := effects self |}.

Definition set_lb_calld_ (v : option CallPtr) (self : t) : t :=
  {| config_ := config_ self; args_ := args_ self;
     authority_ := authority_ self; shutting_down_ := shutting_down_ self;
     lb_channel_ := lb_channel_ self; lb_calld_ := v;
     lb_call_backoff_ := lb_call_backoff_ self;
     lb_call_retry_timer_handle_ := lb_call_retry_timer_handle_ self;
     serverlist_ := serverlist_ self; fallback_mode_ := fallback_mode_ self;
     fallback_backend_addresses_ := fallback_backend_addresses_ self;
     resolution_note_ := resolution_note_ self;
     fallback_at_startup_timeout_ := fallback_at_startup_timeout_ self;
     fallback_at_startup_checks_pending_ := fallback_at_startup_checks_pending_ self;
     lb_fallback_timer_handle_ := lb_fallback_timer_handle_ self;
     child_policy_ := child_policy_ self;
     child_policy_ready_ := child_policy_ready_ self; calls := calls self;
     heap := heap self; effects := effects self |}.

Definition set_lb_call_backoff_ (v : BackOff) (self : t) : t :=
  {| config_ := config_ self; args_ := args_ self;
     authority_ := authority_ self; shutting_down_ := shutting_down_ self;
     lb_channel_ := lb_channel_ self; lb_calld_ := lb_calld_ self;
     lb_call_backoff_ := v;
     lb_call_retry_timer_handle_ := lb_call_retry_timer_handle_ self;
     serverlist_ := serverlist_ self; fallback_mode_ := fallback_mode_ self;
     fallback_backend_addresses_ := fallback_backend_addresses_ self;
     resolution_note_ := resolution_note_ self;
     fallback_at_startup_timeout_ := fallback_at_startup_timeout_ self;
     fallback_at_startup_checks_pending_ := fallback_at_startup_checks_pending_ self;
     lb_fallback_timer_handle_ := lb_fallback_timer_handle_ self;
     child_policy_ := child_policy_ self;
     child_policy_ready_ := child_policy_ready_ self; calls := calls self;
     heap := heap self; effects := effects self |}.

Definition set_lb_call_retry_timer_handle_ (v : option TaskHandle) (self : t) : t :=
  {| config_ := config_ self; args_ := args_ self;
     authority_ := authority_ self; shutting_down_ := shutting_down_ self;
     lb_channel_ := lb_channel_ self; lb_calld_ := lb_calld_ self;
     lb_call_backoff_ := lb_call_backoff_ self;
     lb_call_retry_timer_handle_ := v; serverlist_ := serverlist_ self;
     fallback_mode_ := fallback_mode_ self;
     fallback_backend_addresses_ := fallback_backend_addresses_ self;
     resolution_note_ := resolution_note_ self;
     fallback_at_startup_timeout_ := fallback_at_startup_timeout_ self;
     fallback_at_startup_checks_pending_ := fallback_at_startup_checks_pending_ self;
     lb_fallback_timer_handle_ := lb_fallback_timer_handle_ self;
     child_policy_ := child_policy_ self;
     child_policy_ready_ := child_policy_ready_ self; calls := calls self;
     heap := heap self; effects := effects self |}.

Definition set_serverlist_ (v : option ServerlistPtr) (self : t) : t :=
  {| config_ := config_ self; args_ := args_ self;
     authority_ := authority_ self; shutting_down_ := shutting_down_ self;
     lb_channel_ := lb_channel_ self; lb_calld_ := lb_calld_ self;
     lb_call_backoff_ := lb_call_backoff_ self;
     lb_call_retry_timer_handle_ := lb_call_retry_timer_handle_ self;
     serverlist_ := v; fallback_mode_ := fallback_mode_ self;
     fallback_backend_addresses_ := fallback_backend_addresses_ self;
     resolution_note_ := resolution_note_ self;
     fallback_at_startup_timeout_ := fallback_at_startup_timeout_ self;
     fallback_at_startup_checks_pending_ := fallback_at_startup_checks_pending_ self;
     lb_fallback_timer_handle_ := lb_fallback_timer_handle_ self;
     child_policy_ := child_policy_ self;
     child_policy_ready_ := child_policy_ready_ self; calls := calls self;
     heap := heap self; effects := effects self |}.

Definition set_fallback_mode_ (v : bool) (self : t) : t :=
  {| config_ := config_ self; args_ := args_ self;
     authority_ := authority_ self; shutting_down_ := shutting_down_ self;
     lb_channel_ := lb_channel_ self; lb_calld_ := lb_calld_ self;
     lb_call_backoff_ := lb_call_backoff_ self;
     lb_call_retry_timer_handle_ := lb_call_retry_timer_handle_ self;
     serverlist_ := serverlist_ self; fallback_mode_ := v;
     fallback_backend_addresses_ := fallback_backend_addresses_ self;
     resolution_note_ := resolution_note_ self;
     fallback_at_startup_timeout_ := fallback_at_startup_timeout_ self;
     fallback_at_startup_checks_pending_ := fallback_at_startup_checks_pending_ self;
     lb_fallback_timer_handle_ := lb_fallback_timer_handle_ self;
     child_policy_ := child_policy_ self;
     child_policy_ready_ := child_policy_ready_ self; calls := calls self;
     heap := heap self; effects := effects self |}.

Definition set_fallback_backend_addresses_ (v : StatusOr NullLbTokenEndpointIterator.t) (self : t) : t :=
  {| config_ := config_ self; args_ := args_ self;
     authority_ := authority_ self; shutting_down_ := shutting_down_ self;
     lb_channel_ := lb_channel_ self; lb_calld_ := lb_calld_ self;
     lb_call_backoff_ := lb_call_backoff_ self;
     lb_call_retry_timer_handle_ := lb_call_retry_timer_handle_ self;
     serverlist_ := serverlist_ self; fallback_mode_ := fallback_mode_ self;
     fallback_backend_addresses_ := v;
     resolution_note_ := resolution_note_ self;
     fallback_at_startup_timeout_ := fallback_at_startup_timeout_ self;
     fallback_at_startup_checks_pending_ := fallback_at_startup_checks_pending_ self;
     lb_fallback_timer_handle_ := lb_fallback_timer_handle_ self;
     child_policy_ := child_policy_ self;
     child_policy_ready_ := child_policy_ready_ self; calls := calls self;
     heap := heap self; effects := effects self |}.

Definition set_resolution_note_ (v : string) (self : t) : t :=
  {| config_ := config_ self; args_ := args_ self;
     authority_ := authority_ self; shutting_down_ := shutting_down_ self;
     lb_channel_ := lb_channel_ self; lb_calld_ := lb_calld_ self;
     lb_call_backoff_ := lb_call_backoff_ self;
     lb_call_retry_timer_handle_ := lb_call_retry_timer_handle_ self;
     serverlist_ := serverlist_ self; fallback_mode_ := fallback_mode_ self;
     fallback_backend_addresses_ := fallback_backend_addresses_ self;
     resolution_note_ := v;
     fallback_at_startup_timeout_ := fallback_at_startup_timeout_ self;
     fallback_at_startup_checks_pending_ := fallback_at_startup_checks_pending_ self;
     lb_fallback_timer_handle_ := lb_fallback_timer_handle_ self;
     child_policy_ := child_policy_ self;
     child_policy_ready_ := child_policy_ready_ self; calls := calls self;
     heap := heap self; effects := effects self |}.

Definition set_fallback_at_startup_checks_pending_ (v : bool) (self : t) : t :=
  {| config_ := config_ self; args_ := args_ self;
     authority_ := authority_ self; shutting_down_ := shutting_down_ self;
     lb_channel_ := lb_channel_ self; lb_calld_ := lb_calld_ self;
     lb_call_backoff_ := lb_call_backoff_ self;
     lb_call_retry_timer_handle_ := lb_call_retry_timer_handle_ self;
     serverlist_ := serverlist_ self; fallback_mode_ := fallback_mode_ self;
     fallback_backend_addresses_ := fallback_backend_addresses_ self;
     resolution_note_ := resolution_note_ self;
     fallback_at_startup_timeout_ := fallback_at_startup_timeout_ self;
     fallback_at_startup_checks_pending_ := v;
     lb_fallback_timer_handle_ := lb_fallback_timer_handle_ self;
     child_policy_ := child_policy_ self;
     child_policy_ready_ := child_policy_ready_ self; calls := calls self;
     heap := heap self; effects := effects self |}.

Definition set_lb_fallback_timer_handle_ (v : option TaskHandle) (self : t) : t :=
  {| config_ := config_ self; args_ := args_ self;
     authority_ := authority_ self; shutting_down_ := shutting_down_ self;
     lb_channel_ := lb_channel_ self; lb_calld_ := lb_calld_ self;
     lb_call_backoff_ := lb_call_backoff_ self;
     lb_call_retry_timer_handle_ := lb_call_retry_timer_handle_ self;
     serverlist_ := serverlist_ self; fallback_mode_ := fallback_mode_ self;
     fallback_backend_addresses_ := fallback_backend_addresses_ self;
     resolution_note_ := resolution_note_ self;
     fallback_at_startup_timeout_ := fallback_at_startup_timeout_ self;
     fallback_at_startup_checks_pending_ := fallback_at_startup_checks_pending_ self;
     lb_fallback_timer_handle_ := v; child_policy_ := child_policy_ self;
     child_policy_ready_ := child_policy_ready_ self; calls := calls self;
     heap := heap self; effects := effects self |}.

Definition set_child_policy_ (v : bool) (self : t) : t :=
  {| config_ := config_ self; args_ := args_ self;
     authority_ := authority_ self; shutting_down_ := shutting_down_ self;
     lb_channel_ := lb_channel_ self; lb_calld_ := lb_calld_ self;
     lb_call_backoff_ := lb_call_backoff_ self;
     lb_call_retry_timer_handle_ := lb_call_retry_timer_handle_ self;
     serverlist_ := serverlist_ self; fallback_mode_ := fallback_mode_ self;
     fallback_backend_addresses_ := fallback_backend_addresses_ self;
     resolution_note_ := resolution_note_ self;
     fallback_at_startup_timeout_ := fallback_at_startup_timeout_ self;
     fallback_at_startup_checks_pending_ := fallback_at_startup_checks_pending_ self;
     lb_fallback_timer_handle_ := lb_fallback_timer_handle_ self;
     child_policy_ := v; child_policy_ready_ := child_policy_ready_ self;
     calls := calls self; heap := heap self; effects := effects self |}.

Definition set_child_policy_ready_ (v : bool) (self : t) : t :=
  {| config_ := config_ self; args_ := args_ self;
     authority_ := authority_ self; shutting_down_ := shutting_down_ self;
     lb_channel_ := lb_channel_ self; lb_calld_ := lb_calld_ self;
     lb_call_backoff_ := lb_call_backoff_ self;
     lb_call_retry_timer_handle_ := lb_call_retry_timer_handle_ self;
     serverlist_ := serverlist_ self; fallback_mode_ := fallback_mode_ self;
     fallback_backend_addresses_ := fallback_backend_addresses_ self;
     resolution_note_ := resolution_note_ self;
     fallback_at_startup_timeout_ := fallback_at_startup_timeout_ self;
     fallback_at_startup_checks_pending_ := fallback_at_startup_checks_pending_ self;
     lb_fallback_timer_handle_ := lb_fallback_timer_handle_ self;
     child_policy_ := child_policy_ self; child_policy_ready_ := v;
     calls := calls self; heap := heap self; effects := effects self |}.

Definition set_calls (v : list BalancerCallState.t) (self : t) : t :=
  {| config_ := config_ self; args_ := args_ self;
     authority_ := authority_ self; shutting_down_ := shutting_down_ self;
     lb_channel_ := lb_channel_ self; lb_calld_ := lb_calld_ self;
     lb_call_backoff_ := lb_call_backoff_ self;
     lb_call_retry_timer_handle_ := lb_call_retry_timer_handle_ self;
     serverlist_ := serverlist_ self; fallback_mode_ := fallback_mode_ self;
     fallback_backend_addresses_ := fallback_backend_addresses_ self;
     resolution_note_ := resolution_note_ self;
     fallback_at_startup_timeout_ := fallback_at_startup_timeout_ self;
     fallback_at_startup_checks_pending_ := fallback_at_startup_checks_pending_ self;
     lb_fallback_timer_handle_ := lb_fallback_timer_handle_ self;
     child_policy_ := child_policy_ self;
     child_policy_ready_ := child_policy_ready_ self; calls := v;
     heap := heap self; effects := effects self |}.

Definition set_heap (v : Heap) (self : t) : t :=
  {| config_ := config_ self; args_ := args_ self;
     authority_ := authority_ self; shutting_down_ := shutting_down_ self;
     lb_channel_ := lb_channel_ self; lb_calld_ := lb_calld_ self;
     lb_call_backoff_ := lb_call_backoff_ self;
     lb_call_retry_timer_handle_ := lb_call_retry_timer_handle_ self;
     serverlist_ := serverlist_ self; fallback_mode_ := fallback_mode_ self;
     fallback_backend_addresses_ := fallback_backend_addresses_ self;
     resolution_note_ := resolution_note_ self;
     fallback_at_startup_timeout_ := fallback_at_startup_timeout_ self;
     fallback_at_startup_checks_pending_ := fallback_at_startup_checks_pending_ self;
     lb_fallback_timer_handle_ := lb_fallback_timer_handle_ self;
     child_policy_ := child_policy_ self;
     child_policy_ready_ := child_policy_ready_ self; calls := calls self;
     heap := v; effects := effects self |}.

Definition set_effects (v : list Effect) (self : t) : t :=
  {| config_ := config_ self; args_ := args_ self;
     authority_ := authority_ self; shutting_down_ := shutting_down_ self;
     lb_channel_ := lb_channel_ self; lb_calld_ := lb_calld_ self;
     lb_call_backoff_ := lb_call_backoff_ self;
     lb_call_retry_timer_handle_ := lb_call_retry_timer_handle_ self;
     serverlist_ := serverlist_ self; fallback_mode_ := fallback_mode_ self;
     fallback_backend_addresses_ := fallback_backend_addresses_ self;
     resolution_note_ := resolution_note_ self;
     fallback_at_startup_timeout_ := fallback_at_startup_timeout_ self;
     fallback_at_startup_checks_pending_ := fallback_at_startup_checks_pending_ self;
     lb_fallback_timer_handle_ := lb_fallback_timer_handle_ self;
     child_policy_ := child_policy_ self;
     child_policy_ready_ := child_policy_ready_ self; calls := calls self;
     heap := heap self; effects := v |}.

(** The constructor. *)
Definition make (authority : string) (fallback_timeout_ms : option Z)
    (backoff : BackOff) : t :=
  {| config_ := None;
     args_ := {| channel_args := ∅; grpclb_balancer_addresses := None |};
     authority_ := authority;
     shutting_down_ := false;
     lb_channel_ := None;
     lb_calld_ := None;
     lb_call_backoff_ := backoff;
     lb_call_retry_timer_handle_ := None;
     serverlist_ := None;
     fallback_mode_ := false;
     fallback_backend_addresses_ := IsError (ErrorStatus kUnknown "");
     resolution_note_ := "";
     fallback_at_startup_timeout_ :=
       Z.max 0 (default GRPC_GRPCLB_DEFAULT_FALLBACK_TIMEOUT_MS fallback_timeout_ms);
     fallback_at_startup_checks_pending_ := false;
     lb_fallback_timer_handle_ := None;
     child_policy_ := false;
     child_policy_ready_ := false;
     calls := [];
     heap := heap_empty;
     effects := [] |}.

Definition emit (e : Effect) (self : t) : t :=
  set_effects (effects self ++ [e]) self.

(** [EventEngine::RunAfter]: the handle is the position of the request
    in the log, so handles are distinct. *)
Definition RunAfter (kind : TimerKind) (delay : Duration) (self : t)
  : TaskHandle * t :=
  (length (effects self), emit (TimerRunAfter kind delay) self).

(** [lb_calld_ == nullptr ? nullptr : lb_calld_->client_stats()] *)
Definition lb_calld_client_stats (self : t) : option (option StatsPtr) :=
  match lb_calld_ self with
  | None => Some None
  | Some calld =>
      c ← calls self !! calld;
      Some (BalancerCallState.client_stats c)
  end.

Definition CancelBalancerChannelConnectivityWatchLocked (self : t) : option t :=
  match lb_channel_ self with
  | None => None
  | Some _ => Some (emit RemoveConnectivityWatcher self)
  end.

(** [GetEventEngine()->Cancel] on the dereferenced [lb_fallback_timer_handle_]. *)
Definition CancelFallbackTimer (self : t) : option t :=
  handle ← lb_fallback_timer_handle_ self;
  Some (emit (TimerCancel handle) self).

Definition CreateChildPolicyArgsLocked (self : t)
    (is_backend_from_grpclb_load_balancer : bool) : gmap string ArgValue :=
  let r :=
    ChannelArgs.Set_ GRPC_ARG_GRPCLB_ENABLE_LOAD_REPORTING_FILTER (ArgInt 1)
      (ChannelArgs.Set_ GRPC_ARG_ADDRESS_IS_BACKEND_FROM_GRPCLB_LOAD_BALANCER
         (ArgInt (if is_backend_from_grpclb_load_balancer then 1 else 0))
         (channel_args (args_ self))) in
  if is_backend_from_grpclb_load_balancer
  then ChannelArgs.Set_ GRPC_ARG_INHIBIT_HEALTH_CHECKING (ArgInt 1) r
  else r.

Definition GetServerAddressList (sl : Serverlist.t) (client_stats : option StatsPtr)
  : EndpointAddressesIterator.t :=
  EndpointAddressesIterator.OfServerlist
    {| AddressIterator.serverlist_ := sl;
       AddressIterator.client_stats_ := client_stats |}.

Definition CreateOrUpdateChildPolicyLocked (self : t) : option t :=
  if shutting_down_ self then Some self
  else
    '(update_addresses, is_backend_from_grpclb_load_balancer, note) ←
      (if fallback_mode_ self then
         match fallback_backend_addresses_ self with
         | IsOk it =>
             let endpoints := EndpointAddressesIterator.OfFallback it in
             Some (IsOk endpoints, false,
                   if EndpointIteratorIsEmpty endpoints
                   then "grpclb in fallback mode without any fallback addresses: "
                        +:+ resolution_note_ self
                   else "")
         | IsError status => Some (IsError status, false, "")
         end
       else
         p ← serverlist_ self;
         sl ← serverlists (heap self) !! p;
         client_stats ← lb_calld_client_stats self;
         let endpoints := GetServerAddressList sl client_stats in
         Some (IsOk endpoints, true,
               if EndpointIteratorIsEmpty endpoints
               then "empty serverlist from grpclb balancer"
               else ""));
    let update_args_args :=
      CreateChildPolicyArgsLocked self is_backend_from_grpclb_load_balancer in
    if bool_decide (update_args_args = ChannelArgs.empty) then None
    else
      config ← config_ self;
      let update_args :=
        {| ChildUpdateArgs.addresses := update_addresses;
           ChildUpdateArgs.resolution_note := note;
           ChildUpdateArgs.args := update_args_args;
           ChildUpdateArgs.config := GrpcLbConfig.child_policy config |} in
      let self1 :=
        if child_policy_ self then self
        else set_child_policy_ true (emit ChildPolicyCreate self) in
      Some (emit (ChildUpdateLocked update_args) self1).

Definition MaybeEnterFallbackModeAfterStartup (self : t) : option t :=
  if negb (fallback_mode_ self) && negb (fallback_at_startup_checks_pending_ self)
  then
    seen_serverlist ←
      match lb_calld_ self with
      | None => Some false
      | Some calld =>
          c ← calls self !! calld;
          Some (BalancerCallState.seen_serverlist c)
      end;
    if negb seen_serverlist && negb (child_policy_ready_ self)
    then CreateOrUpdateChildPolicyLocked (set_fallback_mode_ true self)
    else Some self
  else Some self.

Definition OnFallbackTimerLocked (self : t) : option t :=
  if fallback_at_startup_checks_pending_ self && negb (shutting_down_ self)
  then
    self1 ← CancelBalancerChannelConnectivityWatchLocked
              (set_fallback_at_startup_checks_pending_ false self);
    CreateOrUpdateChildPolicyLocked (set_fallback_mode_ true self1)
  else Some self.

Definition StartBalancerCallLocked (self : t) : option t :=
  match lb_channel_ self with
  | None => None
  | Some _ =>
      if shutting_down_ self then Some self
      else
        match lb_calld_ self with
        | Some _ => None
        | None =>
            let calld := length (calls self) in
            Some (emit (CallStartQuery calld)
                    (set_lb_calld_ (Some calld)
                       (set_calls (calls self ++ [BalancerCallState.make]) self)))
        end
  end.

Definition StartBalancerCallRetryTimerLocked (self : t) : t :=
  let '(delay, backoff) := BackOff_NextAttemptDelay (lb_call_backoff_ self) in
  let '(handle, self1) :=
    RunAfter BalancerCallRetryTimer delay (set_lb_call_backoff_ backoff self) in
  set_lb_call_retry_timer_handle_ (Some handle) self1.

Definition OnBalancerCallRetryTimerLocked (self : t) : option t :=
  let self1 := set_lb_call_retry_timer_handle_ None self in
  if negb (shutting_down_ self1) && bool_decide (lb_calld_ self1 = None)
  then StartBalancerCallLocked self1
  else Some self1.

(** [lb_calld_.reset()], which orphans the call. *)
Definition reset_lb_calld (self : t) : option t :=
  match lb_calld_ self with
  | None => Some self
  | Some calld =>
      c ← calls self !! calld;
      let self1 := emit (CallCancel calld) self in
      let self2 :=
        match BalancerCallState.client_load_report_handle_ c with
        | Some handle => emit (TimerCancel handle) self1
        | None => self1
        end in
      Some (set_lb_calld_ None self2)
  end.

(** The three places that end the fallback-at-startup checks the same
    way: clear the flag, cancel the timer, cancel the watch. *)
Definition cancel_fallback_at_startup_checks (self : t) : option t :=
  self1 ← CancelFallbackTimer (set_fallback_at_startup_checks_pending_ false self);
  CancelBalancerChannelConnectivityWatchLocked self1.

(** *** GrpcLb::Helper *)

(** [created] is the subchannel the parent channel's helper returns.
    The outer [None] is the [Crash]; [Some None] is the null return. *)
Definition Helper_CreateSubchannel (self : t) (address : grpc_resolved_address)
    (per_address_args : gmap string ArgValue) (created : SubchannelPtr)
  : option (option SubchannelWrapper.t) :=
  if shutting_down_ self then Some None
  else
    match ChannelArgs.GetObject per_address_args with
    | None => None
    | Some arg =>
        Some (Some {| SubchannelWrapper.wrapped_subchannel_ := created;
                      SubchannelWrapper.lb_token_ := TokenAndClientStatsArg.lb_token arg;
                      SubchannelWrapper.client_stats_ :=
                        TokenAndClientStatsArg.client_stats arg |})
    end.

Definition Helper_UpdateState (self : t) (state : grpc_connectivity_state)
    (status : Status) (picker : ChildPicker.t) : option t :=
  if shutting_down_ self then Some self
  else
    let self1 := set_child_policy_ready_ (is_READY state) self in
    self2 ← MaybeEnterFallbackModeAfterStartup self1;
    all_drops ←
      match serverlist_ self2 with
      | None => Some false
      | Some p =>
          if is_READY state then Some false
          else
            sl ← serverlists (heap self2) !! p;
            Some (Serverlist.ContainsAllDropEntries sl)
      end;
    let serverlist :=
      if is_READY state || all_drops then serverlist_ self2 else None in
    client_stats ← lb_calld_client_stats self2;
    Some (emit (ParentUpdateState state status
                  {| Picker.serverlist_ := serverlist;
                     Picker.child_picker_ := picker;
                     Picker.client_stats_ := client_stats |})
               self2).

Definition Helper_RequestReresolution (self : t) : t :=
  if shutting_down_ self then self
  else if negb (fallback_mode_ self) then self
  else emit ParentRequestReresolution self.

(** *** GrpcLb::StateWatcher *)

Definition StateWatcher_OnConnectivityStateChange (self : t)
    (new_state : grpc_connectivity_state) : option t :=
  if fallback_at_startup_checks_pending_ self && is_TRANSIENT_FAILURE new_state
  then
    self1 ← CancelFallbackTimer (set_fallback_at_startup_checks_pending_ false self);
    self2 ← CreateOrUpdateChildPolicyLocked (set_fallback_mode_ true self1);
    CancelBalancerChannelConnectivityWatchLocked self2
  else Some self.

(** *** GrpcLb::BalancerCallState, the handlers that touch the policy *)

(** The block of the [SERVERLIST] case that starts client load
    reporting: with reporting enabled and no stats object yet, a new
    stats object is made and the first report scheduled.  [calld] is
    the state of [this]; the result is its new state and the policy's. *)
Definition start_client_load_reporting (self : t) (this : CallPtr)
    (calld : BalancerCallState.t) : BalancerCallState.t * t :=
  if Z.ltb 0 (BalancerCallState.client_stats_report_interval_ calld)
     && bool_decide (BalancerCallState.client_stats_ calld = None)
  then
    let q := length (stats (heap self)) in
    let self' :=
      set_heap (set_stats (stats (heap self) ++ [GrpcLbClientStats.make]) (heap self))
               self in
    let '(handle, self'') :=
      RunAfter (ClientLoadReportTimer this)
               (BalancerCallState.client_stats_report_interval_ calld) self' in
    (BalancerCallState.set_client_load_report_handle_ (Some handle)
       (BalancerCallState.set_client_stats_ (Some q) calld), self'')
  else (calld, self).

(** The branch of the [SERVERLIST] case for a new serverlist. *)
Definition install_serverlist (self : t) (serverlist_wrapper : Serverlist.t)
  : option t :=
  let self1 :=
    if fallback_mode_ self then set_fallback_mode_ false self else self in
  self2 ←
    (if fallback_at_startup_checks_pending_ self1
     then cancel_fallback_at_startup_checks self1
     else Some self1);
  let p := length (serverlists (heap self2)) in
  let self3 :=
    set_serverlist_ (Some p)
      (set_heap (set_serverlists (serverlists (heap self2) ++ [serverlist_wrapper])
                                 (heap self2))
                self2) in
  CreateOrUpdateChildPolicyLocked self3.

(** [*serverlist_ == *serverlist_wrapper], guarded by
    [serverlist_ != nullptr]. *)
Definition identical_to_current (self : t) (serverlist_wrapper : Serverlist.t)
  : option bool :=
  match serverlist_ self with
  | None => Some false
  | Some p =>
      current ← serverlists (heap self) !! p;
      Some (Serverlist.eq current serverlist_wrapper)
  end.

(** The [SERVERLIST] case of the switch; [calld] is the state of [this]. *)
Definition on_serverlist (self : t) (this : CallPtr) (calld : BalancerCallState.t)
    (response : GrpcLbResponse) : option t :=
  let serverlist_wrapper := Serverlist.make (serverlist response) in
  let calld1 := BalancerCallState.set_seen_serverlist_ true calld in
  let '(calld2, self1) := start_client_load_reporting self this calld1 in
  let self2 := set_calls (<[this := calld2]> (calls self1)) self1 in
  identical ← identical_to_current self2 serverlist_wrapper;
  if identical : bool then Some self2
  else install_serverlist self2 serverlist_wrapper.

(** The [FALLBACK] case of the switch. *)
Definition on_fallback (self : t) : option t :=
  if negb (fallback_mode_ self) then
    self1 ←
      (if fallback_at_startup_checks_pending_ self
       then cancel_fallback_at_startup_checks self
       else Some self);
    self2 ← CreateOrUpdateChildPolicyLocked (set_fallback_mode_ true self1);
    Some (set_serverlist_ None self2)
  else Some self.

(** The [INITIAL] case of the switch. *)
Definition on_initial (self : t) (this : CallPtr) (calld : BalancerCallState.t)
    (response : GrpcLbResponse) : t :=
  let calld1 :=
    if negb (Z.eqb (client_stats_report_interval response) 0)
    then BalancerCallState.set_client_stats_report_interval_
           (Z.max 1000 (client_stats_report_interval response)) calld
    else calld in
  set_calls (<[this := BalancerCallState.set_seen_initial_response_ true calld1]>
               (calls self)) self.

(** [recv_message_payload] is [None] for the null payload of a
    cancelled call. *)
Definition OnBalancerMessageReceivedLocked (self : t) (this : CallPtr)
    (recv_message_payload : option Payload) : option t :=
  match bool_decide (lb_calld_ self = Some this), recv_message_payload with
  | false, _ | _, None => Some self
  | true, Some payload =>
        calld ← calls self !! this;
        self1 ←
          match GrpcLbResponseParse payload with
          | None => Some self
          | Some response =>
              match type response with
              | INITIAL =>
                  if BalancerCallState.seen_initial_response_ calld then Some self
                  else Some (on_initial self this calld response)
              | SERVERLIST => on_serverlist self this calld response
              | FALLBACK => on_fallback self
              end
          end;
        if negb (shutting_down_ self1)
        then Some (emit (CallRecvMessage this) self1)
        else Some self1
  end.

Definition OnBalancerStatusReceivedLocked (self : t) (this : CallPtr) : option t :=
  if bool_decide (lb_calld_ self = Some this) then
    calld ← calls self !! this;
    self1 ← reset_lb_calld self;
    self2 ←
      (if fallback_at_startup_checks_pending_ self1 then
         if BalancerCallState.seen_serverlist_ calld then None
         else
           self' ← cancel_fallback_at_startup_checks self1;
           CreateOrUpdateChildPolicyLocked (set_fallback_mode_ true self')
       else MaybeEnterFallbackModeAfterStartup self1);
    if shutting_down_ self2 then None
    else
      let self3 := emit ParentRequestReresolution self2 in
      if BalancerCallState.seen_initial_response_ calld
      then StartBalancerCallLocked
             (set_lb_call_backoff_ (BackOff_Reset (lb_call_backoff_ self3)) self3)
      else Some (StartBalancerCallRetryTimerLocked self3)
  else Some self.

(** *** Update and shutdown *)

Definition UpdateBalancerChannelLocked (self : t) : Status * t :=
  let balancer_addresses := ExtractBalancerAddresses (args_ self) in
  let status :=
    match balancer_addresses with
    | [] => UnavailableError "balancer address list must be non-empty"
    | _ => OkStatus
    end in
  let self1 :=
    match lb_channel_ self with
    | None =>
        let uri_str := "fake:///" +:+ authority_ self in
        emit (ChannelCreate uri_str) (set_lb_channel_ (Some uri_str) self)
    | Some _ => self
    end in
  (status, emit (SetResponseAsync balancer_addresses) self1).

Definition UpdateLocked (self : t) (a : UpdateArgs.t) : option (Status * t) :=
  let is_initial_update := bool_decide (lb_channel_ self = None) in
  match UpdateArgs.config a with
  | None => None
  | Some config =>
      let self1 := set_args_ (UpdateArgs.args a) (set_config_ (Some config) self) in
      let self2 :=
        set_fallback_backend_addresses_
          match UpdateArgs.addresses a with
          | IsError status => IsError status
          | IsOk parent_it => IsOk (NullLbTokenEndpointIterator.make parent_it)
          end
          self1 in
      let self3 := set_resolution_note_ (UpdateArgs.resolution_note a) self2 in
      let '(status, self4) := UpdateBalancerChannelLocked self3 in
      self5 ←
        (if child_policy_ self4 then CreateOrUpdateChildPolicyLocked self4
         else Some self4);
      self6 ←
        (if is_initial_update then
           let self' := set_fallback_at_startup_checks_pending_ true self5 in
           let '(handle, self'') :=
             RunAfter FallbackTimer (fallback_at_startup_timeout_ self') self' in
           StartBalancerCallLocked
             (emit AddConnectivityWatcher
                (set_lb_fallback_timer_handle_ (Some handle) self''))
         else Some self5);
      Some (status, self6)
  end.

Definition ShutdownLocked (self : t) : option t :=
  self1 ← reset_lb_calld (set_shutting_down_ true self);
  let self2 :=
    match lb_call_retry_timer_handle_ self1 with
    | Some handle => emit (TimerCancel handle) self1
    | None => self1
    end in
  self3 ←
    (if fallback_at_startup_checks_pending_ self2
     then cancel_fallback_at_startup_checks self2
     else Some self2);
  let self4 :=
    if child_policy_ self3
    then set_child_policy_ false (emit ChildPolicyReset self3)
    else self3 in
  Some match lb_channel_ self4 with
       | Some _ => set_lb_channel_ None (emit ChannelReset self4)
       | None => self4
       end.

(** *** The control loop *)

(** Everything that runs in the work serializer and touches the
    policy: the resolver's updates and shutdown, the completions of the
    balancer call, the timers, the balancer channel's watcher and the
    child policy's helper calls.  The child's helper calls are events
    of their own. *)
Inductive Event : Type :=
| EvUpdate (a : UpdateArgs.t)
| EvShutdown
| EvBalancerMessageReceived (calld : CallPtr) (recv_message_payload : option Payload)
| EvBalancerStatusReceived (calld : CallPtr)
| EvFallbackTimer
| EvBalancerCallRetryTimer
| EvBalancerChannelState (new_state : grpc_connectivity_state)
| EvChildUpdateState (state : grpc_connectivity_state) (status : Status)
                     (picker : ChildPicker.t)
| EvChildRequestReresolution.

Definition step (ev : Event) (self : t) : option t :=
  match ev with
  | EvUpdate a => '(_, self') ← UpdateLocked self a; Some self'
  | EvShutdown => ShutdownLocked self
  | EvBalancerMessageReceived calld payload =>
      OnBalancerMessageReceivedLocked self calld payload
  | EvBalancerStatusReceived calld => OnBalancerStatusReceivedLocked self calld
  | EvFallbackTimer => OnFallbackTimerLocked self
  | EvBalancerCallRetryTimer => OnBalancerCallRetryTimerLocked self
  | EvBalancerChannelState new_state =>
      StateWatcher_OnConnectivityStateChange self new_state
  | EvChildUpdateState state status picker =>
      Helper_UpdateState self state status picker
  | EvChildRequestReresolution => Some (Helper_RequestReresolution self)
  end.

Fixpoint run (evs : list Event) (self : t) : option t :=
  match evs with
  | [] => Some self
  | ev :: rest => self' ← step ev self; run rest self'
  end.

(** The states a freshly constructed policy can get into. *)
Definition reachable (self : t) : Prop :=
  exists authority timeout backoff evs,
    run evs (make authority timeout backoff) = Some self.

(** The child-policy updates among the calls on external objects. *)
Definition child_updates (self : t) : list ChildUpdateArgs.t :=
  omap (fun e => match e with ChildUpdateLocked u => Some u | _ => None end)
       (effects self).

End Policy.

End GrpcLb.

(** ** Well-formed references *)

(** Reference counting keeps every object a picker points to alive:
    its serverlist, its stats, and the stats of the subchannel
    wrappers its child picker can return. *)
Definition Picker_refs_valid (self : Picker.t) (h : Heap) : Prop :=
  (forall p, Picker.serverlist_ self = Some p -> is_Some (serverlists h !! p))
  /\ (forall q, Picker.client_stats_ self = Some q -> is_Some (stats h !! q))
  /\ (forall hist a c q,
        ChildPicker.decide (Picker.child_picker_ self) hist a = PickResult.IsComplete c ->
        SubchannelWrapper.client_stats (PickResult.subchannel c) = Some q ->
        is_Some (stats h !! q)).

(** The result of [ShouldDrop] on the serverlist a picker holds, if any. *)
Definition Picker_drop_token (self : Picker.t) (h : Heap) : option string :=
  match Picker.serverlist_ self with
  | None => None
  | Some p =>
      match serverlists h !! p with
      | Some sl => fst (Serverlist.ShouldDrop sl)
      | None => None
      end
  end.

(** The serverlist store after the picker has consulted its serverlist. *)
Definition Picker_serverlists_after (self : Picker.t) (h : Heap) : list Serverlist.t :=
  match Picker.serverlist_ self with
  | None => serverlists h
  | Some p =>
      match serverlists h !! p with
      | Some sl => <[p := snd (Serverlist.ShouldDrop sl)]> (serverlists h)
      | None => serverlists h
      end
  end.

(** What the picker makes of a complete pick of the child: the
    entries it adds to the metadata mutations. *)
Definition Picker_added_metadata (w : SubchannelWrapper.t) : MetadataMutations.t :=
  match SubchannelWrapper.client_stats w with
  | Some q => [(GrpcLbClientStatsMetadata_key, SliceStaticPointer q)]
  | None => []
  end
  ++ (if String.eqb (SubchannelWrapper.lb_token w) "" then []
      else [(LbTokenMetadata_key, SliceBytes (SubchannelWrapper.lb_token w))]).

(** What the picker returns for a result [r] of the child picker. *)
Definition delegated_result (r : PickResult.t SubchannelWrapper.t)
  : PickResult.t SubchannelPtr :=
  match r with
  | PickResult.IsComplete c =>
      PickResult.IsComplete
        {| PickResult.subchannel :=
             SubchannelWrapper.wrapped_subchannel (PickResult.subchannel c);
           PickResult.subchannel_call_tracker :=
             match SubchannelWrapper.client_stats (PickResult.subchannel c) with
             | Some q =>
                 Some (SubchannelCallTracker q (PickResult.subchannel_call_tracker c))
             | None => PickResult.subchannel_call_tracker c
             end;
           PickResult.metadata_mutations :=
             PickResult.metadata_mutations c
             ++ Picker_added_metadata (PickResult.subchannel c) |}
  | PickResult.Queue => PickResult.Queue
  | PickResult.Fail status => PickResult.Fail status
  | PickResult.Drop status => PickResult.Drop status
  end.

(** ** Reading the serverlist invariants *)

(** Bits 16 to 31 of an [int32_t] are zero. *)
Definition high16_zero (p : Z) : Prop :=
  forall i, 16 <= i < 32 -> Z.testbit p i = false.

(** The endpoint the address iterator emits for an entry. *)
Definition endpoint_of (client_stats : option StatsPtr) (server : GrpcLbServer)
  : EndpointAddresses :=
  {| addresses := [ParseServer server];
     args := ChannelArgs.SetObject
               {| TokenAndClientStatsArg.lb_token_ := lb_token_of server;
                  TokenAndClientStatsArg.client_stats_ := client_stats |}
               ChannelArgs.empty |}.

Definition is_valid_entry (server : GrpcLbServer) : bool :=
  IsServerValid server O false.

(** ** Reading a C string out of an array *)

(** [text] is what a read of the array [buf] of [size] bytes up to its
    first NUL finds: [text] holds no NUL, is at the start of [buf] and
    has at most [size] bytes, and it ends at a NUL, at the end of the
    array, or at the end of a buffer given shorter than the array
    (whose missing bytes are NUL). *)
Definition bytes_before_NUL (buf : string) (size : nat) (text : string) : Prop :=
  ~ In CStr.NUL (list_ascii_of_string text)
  /\ (String.length text <= size)%nat
  /\ exists rest,
       buf = text +:+ rest
       /\ (String.length text = size
           \/ rest = EmptyString
           \/ exists rest', rest = String CStr.NUL rest').

(** ** The policy's invariant *)

Section PolicySpec.

Context {backoff_ops : BackOffOps}.

(** The token argument of the fallback endpoints: the empty token and
    no stats. *)
Definition empty_token : TokenAndClientStatsArg.t :=
  {| TokenAndClientStatsArg.lb_token_ := "";
     TokenAndClientStatsArg.client_stats_ := None |}.

(** An update handed to the child policy is built by this policy: a
    fallback iterator in it wraps its endpoints with [empty_token]. *)
Definition update_ok (u : ChildUpdateArgs.t) : Prop :=
  match ChildUpdateArgs.addresses u with
  | IsOk (EndpointAddressesIterator.OfFallback it) =>
      NullLbTokenEndpointIterator.empty_token_ it = empty_token
  | _ => True
  end.

Definition effect_ok (e : Effect) : Prop :=
  match e with
  | ChildUpdateLocked u => update_ok u
  | _ => True
  end.

(** What holds of the policy between two runs of the work serializer:
    - a current balancer call lives in the call store, on an existing
      balancer channel, and the policy is not shutting down;
    - pending startup checks have their timer handle and channel;
    - a child policy outside fallback mode is fed from a serverlist;
    - the config is there once the channel or the child policy is;
    - the current serverlist lives in the serverlist store;
    - while startup checks are pending, the current call has seen no
      serverlist and the policy has none;
    - no serverlist before the first update;
    - pending startup checks come with a balancer call, unless the
      policy is shutting down;
    - the fallback iterator and the updates handed to the child policy
      are the ones this policy builds. *)
Record Inv (st : GrpcLb.t) : Prop := {
  inv_calld_not_shutting_down :
    forall calld, GrpcLb.lb_calld_ st = Some calld -> GrpcLb.shutting_down_ st = false;
  inv_calld_channel :
    forall calld, GrpcLb.lb_calld_ st = Some calld -> GrpcLb.lb_channel_ st <> None;
  inv_calld_live :
    forall calld, GrpcLb.lb_calld_ st = Some calld ->
      (calld < length (GrpcLb.calls st))%nat;
  inv_pending_handle :
    GrpcLb.fallback_at_startup_checks_pending_ st = true ->
    GrpcLb.lb_fallback_timer_handle_ st <> None;
  inv_pending_channel :
    GrpcLb.fallback_at_startup_checks_pending_ st = true ->
    GrpcLb.lb_channel_ st <> None;
  inv_child_serverlist :
    GrpcLb.child_policy_ st = true -> GrpcLb.fallback_mode_ st = false ->
    GrpcLb.serverlist_ st <> None;
  inv_channel_config :
    GrpcLb.lb_channel_ st <> None -> GrpcLb.config_ st <> None;
  inv_child_config :
    GrpcLb.child_policy_ st = true -> GrpcLb.config_ st <> None;
  inv_serverlist_live :
    forall p, GrpcLb.serverlist_ st = Some p ->
      (p < length (serverlists (GrpcLb.heap st)))%nat;
  inv_pending_no_serverlist :
    GrpcLb.fallback_at_startup_checks_pending_ st = true ->
    GrpcLb.lb_calld_ st <> None -> GrpcLb.serverlist_ st = None;
  inv_pending_not_seen :
    GrpcLb.fallback_at_startup_checks_pending_ st = true ->
    forall calld c,
      GrpcLb.lb_calld_ st = Some calld -> GrpcLb.calls st !! calld = Some c ->
      BalancerCallState.seen_serverlist_ c = false;
  inv_no_channel_no_serverlist :
    GrpcLb.lb_channel_ st = None -> GrpcLb.shutting_down_ st = false ->
    GrpcLb.serverlist_ st = None;
  inv_pending_calld :
    GrpcLb.fallback_at_startup_checks_pending_ st = true ->
    GrpcLb.shutting_down_ st = false -> GrpcLb.lb_calld_ st <> None;
  inv_fallback_iterator :
    forall it, GrpcLb.fallback_backend_addresses_ st = IsOk it ->
      NullLbTokenEndpointIterator.empty_token_ it = empty_token;
  inv_effects_ok : Forall effect_ok (GrpcLb.effects st)
}.

(** The policy after the child policy got the update [u]: the child
    policy exists, made first if it did not. *)
Definition child_updated (u : ChildUpdateArgs.t) (st : GrpcLb.t) : GrpcLb.t :=
  GrpcLb.set_child_policy_ true
    (GrpcLb.set_effects
       (GrpcLb.effects st
        ++ (if GrpcLb.child_policy_ st then [] else [ChildPolicyCreate])
        ++ [ChildUpdateLocked u])
       st).

(** The policy after orphaning the call [calld], whose state is [c]. *)
Definition orphaned (calld : CallPtr) (c : BalancerCallState.t) (st : GrpcLb.t)
  : GrpcLb.t :=
  GrpcLb.set_lb_calld_ None
    (GrpcLb.set_effects
       (GrpcLb.effects st
        ++ CallCancel calld
           :: match BalancerCallState.client_load_report_handle_ c with
              | Some handle => [TimerCancel handle]
              | None => []
              end)
       st).

(** The policy after the startup checks are called off. *)
Definition checks_cancelled (handle : TaskHandle) (st : GrpcLb.t) : GrpcLb.t :=
  GrpcLb.emit RemoveConnectivityWatcher
    (GrpcLb.emit (TimerCancel handle)
       (GrpcLb.set_fallback_at_startup_checks_pending_ false st)).

(** The policy with a new balancer call started. *)
Definition call_started (st : GrpcLb.t) : GrpcLb.t :=
  GrpcLb.emit (CallStartQuery (length (GrpcLb.calls st)))
    (GrpcLb.set_lb_calld_ (Some (length (GrpcLb.calls st)))
       (GrpcLb.set_calls (GrpcLb.calls st ++ [BalancerCallState.make]) st)).

(** The policy with the fields an update sets. *)
Definition settings_updated (a : UpdateArgs.t) (config : GrpcLbConfig.t)
    (st : GrpcLb.t) : GrpcLb.t :=
  GrpcLb.set_resolution_note_ (UpdateArgs.resolution_note a)
    (GrpcLb.set_fallback_backend_addresses_
       match UpdateArgs.addresses a with
       | IsError status => IsError status
       | IsOk parent_it => IsOk (NullLbTokenEndpointIterator.make parent_it)
       end
       (GrpcLb.set_args_ (UpdateArgs.args a)
          (GrpcLb.set_config_ (Some config) st))).

(** The policy after [UpdateBalancerChannelLocked]: the channel exists
    (made first if it did not) and has been sent the balancer
    addresses. *)
Definition channel_updated (st : GrpcLb.t) : GrpcLb.t :=
  GrpcLb.set_effects
    (GrpcLb.effects st
     ++ match GrpcLb.lb_channel_ st with
        | None => [ChannelCreate ("fake:///" +:+ GrpcLb.authority_ st)]
        | Some _ => []
        end
     ++ [SetResponseAsync (ExtractBalancerAddresses (GrpcLb.args_ st))])
    (GrpcLb.set_lb_channel_
       (Some match GrpcLb.lb_channel_ st with
             | None => "fake:///" +:+ GrpcLb.authority_ st
             | Some uri => uri
             end)
       st).

(** The policy with the fallback-at-startup checks started. *)
Definition checks_started (st : GrpcLb.t) : GrpcLb.t :=
  GrpcLb.emit AddConnectivityWatcher
    (GrpcLb.set_lb_fallback_timer_handle_ (Some (length (GrpcLb.effects st)))
       (GrpcLb.emit (TimerRunAfter FallbackTimer (GrpcLb.fallback_at_startup_timeout_ st))
          (GrpcLb.set_fallback_at_startup_checks_pending_ true st))).

(** The status [UpdateLocked] returns for the given update. *)
Definition update_status (a : UpdateArgs.t) : Status :=
  match ExtractBalancerAddresses (UpdateArgs.args a) with
  | [] => UnavailableError "balancer address list must be non-empty"
  | _ => OkStatus
  end.

(** The policy after the call [this], in state [calld], has noted a
    serverlist: the call has seen one, and client load reporting is
    started if it is due. *)
Definition serverlist_noted (st : GrpcLb.t) (this : CallPtr)
    (calld : BalancerCallState.t) : GrpcLb.t :=
  let r := GrpcLb.start_client_load_reporting st this
             (BalancerCallState.set_seen_serverlist_ true calld) in
  GrpcLb.set_calls (<[this := fst r]> (GrpcLb.calls (snd r))) (snd r).

(** The policy with [w] as its current serverlist, a new object. *)
Definition serverlist_installed (w : Serverlist.t) (st : GrpcLb.t) : GrpcLb.t :=
  GrpcLb.set_serverlist_ (Some (length (serverlists (GrpcLb.heap st))))
    (GrpcLb.set_heap
       (set_serverlists (serverlists (GrpcLb.heap st) ++ [w]) (GrpcLb.heap st))
       st).

(** The post-startup fallback predicate, as the specification words it. *)
Definition post_startup_fallback_due (st : GrpcLb.t) : Prop :=
  GrpcLb.fallback_mode_ st = false
  /\ GrpcLb.fallback_at_startup_checks_pending_ st = false
  /\ (GrpcLb.lb_calld_ st = None
      \/ exists calld c,
           GrpcLb.lb_calld_ st = Some calld /\ GrpcLb.calls st !! calld = Some c
           /\ BalancerCallState.seen_serverlist c = false)
  /\ GrpcLb.child_policy_ready_ st = false.

(** The update the child policy gets in fallback mode. *)
Definition fallback_update (st : GrpcLb.t) (u : ChildUpdateArgs.t) : Prop :=
  match GrpcLb.fallback_backend_addresses_ st with
  | IsOk it =>
      ChildUpdateArgs.addresses u = IsOk (EndpointAddressesIterator.OfFallback it)
  | IsError status => ChildUpdateArgs.addresses u = IsError status
  end.

(** The addresses of the update, by mode. *)
Definition update_addresses_of (st : GrpcLb.t) (u : ChildUpdateArgs.t) : Prop :=
  if GrpcLb.fallback_mode_ st then fallback_update st u
  else
    exists p sl client_stats,
      GrpcLb.serverlist_ st = Some p /\ serverlists (GrpcLb.heap st) !! p = Some sl
      /\ GrpcLb.lb_calld_client_stats st = Some client_stats
      /\ ChildUpdateArgs.addresses u = IsOk (GrpcLb.GetServerAddressList sl client_stats).

(** A message that parses as [response], received on the call [calld]. *)
Definition received (calld : CallPtr) (response : GrpcLbResponse) : GrpcLb.Event :=
  GrpcLb.EvBalancerMessageReceived calld (Some (Parses response)).

(** The serverlist object made from a response. *)
Definition wrapper_of (response : GrpcLbResponse) : Serverlist.t :=
  Serverlist.make (serverlist response).

(** The new effects of a step that calls the startup checks off. *)
Definition cancels_checks (st st' : GrpcLb.t) : Prop :=
  exists handle before after,
    GrpcLb.lb_fallback_timer_handle_ st = Some handle
    /\ GrpcLb.effects st'
       = GrpcLb.effects st ++ before ++ [TimerCancel handle; RemoveConnectivityWatcher] ++ after.

(** What the handlers other than update, shutdown, the end of the call
    and the retry timer leave as it is: the shutdown flag, the
    balancer channel and the current balancer call; the startup checks
    are not started. *)
Definition frame (st st' : GrpcLb.t) : Prop :=
  GrpcLb.shutting_down_ st' = GrpcLb.shutting_down_ st
  /\ GrpcLb.lb_channel_ st' = GrpcLb.lb_channel_ st
  /\ GrpcLb.lb_calld_ st' = GrpcLb.lb_calld_ st
  /\ GrpcLb.lb_call_backoff_ st' = GrpcLb.lb_call_backoff_ st
  /\ (GrpcLb.fallback_at_startup_checks_pending_ st' = true ->
      GrpcLb.fallback_at_startup_checks_pending_ st = true).

(** The startup checks are over for good: they are not pending and
    the balancer channel exists, or the policy is shutting down. *)
Definition checks_over (st : GrpcLb.t) : Prop :=
  (GrpcLb.fallback_at_startup_checks_pending_ st = false
   /\ GrpcLb.lb_channel_ st <> None)
  \/ GrpcLb.shutting_down_ st = true.

(** No balancer call, after the first update. *)
Definition between_calls (st : GrpcLb.t) : Prop :=
  GrpcLb.lb_calld_ st = None
  /\ (GrpcLb.lb_channel_ st <> None \/ GrpcLb.shutting_down_ st = true).

End PolicySpec.

(** ** Sample inputs *)

Module Sample.

Definition backend (a : string) (p : Z) (token : string) : GrpcLbServer :=
  {| ip_size := 4; ip_addr := a; port := p; load_balance_token := token;
     drop := false |}.

Definition drop_entry (token : string) : GrpcLbServer :=
  {| ip_size := 0; ip_addr := ""; port := 0; load_balance_token := token;
     drop := true |}.

(** A backend, a drop entry, a backend with a port above 65535 and one
    with a five-byte address. *)
Definition mixed_entries : list GrpcLbServer :=
  [ backend "abcd" 80 "t";
    drop_entry "x";
    backend "abcd" 65536 "u";
    {| ip_size := 5; ip_addr := "abcde"; port := 80; load_balance_token := "v";
       drop := false |} ].

Definition mixed : Serverlist.t := Serverlist.make mixed_entries.

Definition empty_serverlist : Serverlist.t := Serverlist.make [].

Definition pick_args : PickArgs := {| path := "/svc/method"; initial_metadata := [] |}.

(** A child picker that queues every pick. *)
Definition queueing_child : ChildPicker.t :=
  {| ChildPicker.consulted := [];
     ChildPicker.decide := fun _ _ => PickResult.Queue |}.

(** A child picker that drops every pick on its own account. *)
Definition dropping_child : ChildPicker.t :=
  {| ChildPicker.consulted := [];
     ChildPicker.decide :=
       fun _ _ => PickResult.Drop (UnavailableError "drop directed by child") |}.

Definition wrapper (token : string) (client_stats : option StatsPtr)
  : SubchannelWrapper.t :=
  {| SubchannelWrapper.wrapped_subchannel_ := 7%nat;
     SubchannelWrapper.lb_token_ := token;
     SubchannelWrapper.client_stats_ := client_stats |}.

(** A child picker that completes every pick on the given wrapper. *)
Definition completing_child (w : SubchannelWrapper.t) : ChildPicker.t :=
  {| ChildPicker.consulted := [];
     ChildPicker.decide :=
       fun _ _ =>
         PickResult.IsComplete
           {| PickResult.subchannel := w;
              PickResult.subchannel_call_tracker := None;
              PickResult.metadata_mutations := [] |} |}.

(** One serverlist object and one stats object. *)
Definition heap1 (sl : Serverlist.t) : Heap :=
  {| serverlists := [sl]; stats := [GrpcLbClientStats.make] |}.

Definition picker (serverlist : option ServerlistPtr) (child : ChildPicker.t)
  : Picker.t :=
  {| Picker.serverlist_ := serverlist;
     Picker.child_picker_ := child;
     Picker.client_stats_ := Some O |}.

End Sample.

(** Sample inputs of the policy. *)
Module PolicySample.

(** The retry schedule of the specification (1 s at first, times 1.6
    up to 120 s), without jitter; the state is the next delay. *)
Definition backoff_ops : BackOffOps :=
  {| BackOff := Z;
     BackOff_Reset := fun _ => 1000;
     BackOff_NextAttemptDelay := fun d => (d, Z.min 120000 (d * 16 / 10)) |}.

Definition policy : @GrpcLb.t backoff_ops :=
  @GrpcLb.make backoff_ops "svc.example.com" None 1000.

Definition config : GrpcLbConfig.t :=
  {| GrpcLbConfig.child_policy_ := "round_robin";
     GrpcLbConfig.service_name_ := "" |}.

Definition balancer : EndpointAddresses :=
  {| addresses := [sockaddr_in "abcd" 443]; args := ∅ |}.

Definition fallback_backend : EndpointAddresses :=
  {| addresses := [sockaddr_in "wxyz" 80]; args := ∅ |}.

(** A resolver update with one balancer and one fallback backend. *)
Definition update : UpdateArgs.t :=
  {| UpdateArgs.addresses := IsOk [fallback_backend];
     UpdateArgs.config := Some config;
     UpdateArgs.resolution_note := "";
     UpdateArgs.args :=
       {| channel_args := ∅; grpclb_balancer_addresses := Some [balancer] |} |}.

(** A resolver update without balancer addresses. *)
Definition update_without_balancers : UpdateArgs.t :=
  {| UpdateArgs.addresses := IsOk [fallback_backend];
     UpdateArgs.config := Some config;
     UpdateArgs.resolution_note := "";
     UpdateArgs.args :=
       {| channel_args := ∅; grpclb_balancer_addresses := None |} |}.

Definition initial_response : GrpcLbResponse :=
  {| type := INITIAL; client_stats_report_interval := 5000; serverlist := [] |}.

Definition serverlist_response : GrpcLbResponse :=
  {| type := SERVERLIST; client_stats_report_interval := 0;
     serverlist := [Sample.backend "abcd" 80 "t"] |}.

Definition fallback_response : GrpcLbResponse :=
  {| type := FALLBACK; client_stats_report_interval := 0; serverlist := [] |}.

(** The number of updates the child policy gets while [evs] run. *)
Definition child_updates_during (evs : list GrpcLb.Event)
    (st : @GrpcLb.t backoff_ops) : option nat :=
  st' ← GrpcLb.run evs st;
  Some (length (GrpcLb.child_updates st') - length (GrpcLb.child_updates st))%nat.

(** The policy after the events [evs], from its construction. *)
Definition after (evs : list GrpcLb.Event) : @GrpcLb.t backoff_ops :=
  default policy (GrpcLb.run evs policy).

(** After the first resolver update: the balancer call 0 is under way
    and the startup checks are pending. *)
Definition started : @GrpcLb.t backoff_ops := after [GrpcLb.EvUpdate update].

(** After the first serverlist of the balancer. *)
Definition serving : @GrpcLb.t backoff_ops :=
  after [GrpcLb.EvUpdate update; received 0 serverlist_response].

(** After the balancer call that brought the serverlist has ended: the
    policy is in fallback mode, still holds the serverlist, and the
    balancer call 1 is under way. *)
Definition lost_balancer : @GrpcLb.t backoff_ops :=
  after [GrpcLb.EvUpdate update; received 0 initial_response;
         received 0 serverlist_response; GrpcLb.EvBalancerStatusReceived 0].

(** After the balancer has turned client load reporting on and sent
    its first serverlist: the balancer call 0 has a stats object. *)
Definition reporting : @GrpcLb.t backoff_ops :=
  after [GrpcLb.EvUpdate update; received 0 initial_response;
         received 0 serverlist_response].

End PolicySample.

(** ** Successive picks on one serverlist *)

(** The token [ShouldDrop] returns for an entry. *)
Definition drop_token_of (server : GrpcLbServer) : option string :=
  if drop server then Some (load_balance_token server) else None.

(** Whether a result of [ShouldDrop] is a token (not the null pointer). *)
Definition is_drop_token (token : option string) : bool :=
  match token with Some _ => true | None => false end.

(** [n] successive calls of [ShouldDrop] on the same object: the
    results in call order, and the object after the last call. *)
Fixpoint ShouldDrop_times (n : nat) (self : Serverlist.t)
  : list (option string) * Serverlist.t :=
  match n with
  | O => ([], self)
  | S n' =>
      let '(token, self1) := Serverlist.ShouldDrop self in
      let '(tokens, self2) := ShouldDrop_times n' self1 in
      (token :: tokens, self2)
  end.

(** The endpoint the fallback iterator makes of a resolver endpoint. *)
Definition with_empty_token (endpoint : EndpointAddresses) : EndpointAddresses :=
  {| addresses := addresses endpoint;
     args := ChannelArgs.SetObject empty_token (args endpoint) |}.

(** ** What the callers of the policy keep to *)

Section CallerSpec.

Context {backoff_ops : BackOffOps}.

(** An update carries a grpclb config (the factory parsed it, and
    [UpdateLocked] checks it).  The retry timer is armed by the end of
    a balancer call only, so its callback runs on a policy that has
    had its first update: the balancer channel exists, or the policy
    has shut down since.  [Helper::UpdateState] is called by a child
    policy, so one exists unless the policy has shut down. *)
Definition event_ok (ev : GrpcLb.Event) (st : GrpcLb.t) : Prop :=
  match ev with
  | GrpcLb.EvUpdate a => UpdateArgs.config a <> None
  | GrpcLb.EvBalancerCallRetryTimer =>
      GrpcLb.lb_channel_ st <> None \/ GrpcLb.shutting_down_ st = true
  | GrpcLb.EvChildUpdateState _ _ _ =>
      GrpcLb.child_policy_ st = true \/ GrpcLb.shutting_down_ st = true
  | _ => True
  end.


End CallerSpec.

(** ** GrpcLb, the subchannel cache *)

(** A subchannel the child policy lets go of is held for
    [subchannel_cache_interval_] before it is released, so that its
    connection outlives a serverlist update that drops and re-adds its
    address.  This part of [GrpcLb] reads and writes fields of its own
    (and [shutting_down_]), which the handlers above leave alone. *)
Module SubchannelCache.

(** [Timestamp], in milliseconds.  The class saturates at the ends of
    [int64_t]; the times here are taken inside that range, where its
    sums and differences are those of the integers. *)
Definition Timestamp : Type := Z.

(** The calls on the event engine, in program order; the handle of a
    timer is its position in this log. *)
Inductive Effect : Type :=
| RunAfter (delay : Duration)
| Cancel (handle : TaskHandle).

(** [cached_subchannels_] is a [std::map] from deletion time to the
    subchannels to release then: its entries in key order, each key
    once. *)
Record t : Type := {
  shutting_down_ : bool;
  subchannel_cache_interval_ : Duration;
  cached_subchannels_ : list (Timestamp * list SubchannelPtr);
  subchannel_cache_timer_handle_ : option TaskHandle;
  effects : list Effect
}.

(** [GRPC_GRPCLB_DEFAULT_SUBCHANNEL_DELETION_DELAY_MS]. *)
Definition GRPC_GRPCLB_DEFAULT_SUBCHANNEL_DELETION_DELAY_MS : Z := 10000.

(** The part of the constructor that reads
    [GRPC_ARG_GRPCLB_SUBCHANNEL_CACHE_INTERVAL_MS]. *)
Definition make (subchannel_cache_interval_ms : option Z) : t :=
  {| shutting_down_ := false;
     subchannel_cache_interval_ :=
       Z.max 0 (default GRPC_GRPCLB_DEFAULT_SUBCHANNEL_DELETION_DELAY_MS
                        subchannel_cache_interval_ms);
     cached_subchannels_ := [];
     subchannel_cache_timer_handle_ := None;
     effects := [] |}.

(** [m[key].push_back(subchannel)] on the ordered map. *)
Fixpoint push_back_at (key : Timestamp) (subchannel : SubchannelPtr)
    (m : list (Timestamp * list SubchannelPtr))
  : list (Timestamp * list SubchannelPtr) :=
  match m with
  | [] => [(key, [subchannel])]
  | (k, v) :: rest =>
      if key <? k then (key, [subchannel]) :: m
      else if key =? k then (k, v ++ [subchannel]) :: rest
      else (k, v) :: push_back_at key subchannel rest
  end.

(** [now] is what [Timestamp::Now()] returns in the call.  [None] is
    the failed [CHECK(!cached_subchannels_.empty())]. *)
Definition StartSubchannelCacheTimerLocked (self : t) (now : Timestamp) : option t :=
  match cached_subchannels_ self with
  | [] => None
  | (first, _) :: _ =>
      Some {| shutting_down_ := shutting_down_ self;
              subchannel_cache_interval_ := subchannel_cache_interval_ self;
              cached_subchannels_ := cached_subchannels_ self;
              subchannel_cache_timer_handle_ := Some (length (effects self));
              effects := effects self ++ [RunAfter (first - now)] |}
  end.

(** [now] is the time read here, [now_timer] the time read in
    [StartSubchannelCacheTimerLocked], if it is called. *)
Definition CacheDeletedSubchannelLocked (self : t) (now now_timer : Timestamp)
    (subchannel : SubchannelPtr) : option t :=
  let deletion_time := now + subchannel_cache_interval_ self in
  let self1 :=
    {| shutting_down_ := shutting_down_ self;
       subchannel_cache_interval_ := subchannel_cache_interval_ self;
       cached_subchannels_ :=
         push_back_at deletion_time subchannel (cached_subchannels_ self);
       subchannel_cache_timer_handle_ := subchannel_cache_timer_handle_ self;
       effects := effects self |} in
  match subchannel_cache_timer_handle_ self1 with
  | None => StartSubchannelCacheTimerLocked self1 now_timer
  | Some _ => Some self1
  end.

Definition OnSubchannelCacheTimerLocked (self : t) (now : Timestamp) : option t :=
  match subchannel_cache_timer_handle_ self with
  | Some _ =>
      let self1 :=
        {| shutting_down_ := shutting_down_ self;
           subchannel_cache_interval_ := subchannel_cache_interval_ self;
           cached_subchannels_ :=
             match cached_subchannels_ self with
             | [] => []
             | _ :: rest => rest
             end;
           subchannel_cache_timer_handle_ := None;
           effects := effects self |} in
      match cached_subchannels_ self1 with
      | [] => Some self1
      | _ => StartSubchannelCacheTimerLocked self1 now
      end
  | None => Some self
  end.

(** [SubchannelWrapper::Orphaned], the closure it runs in the work
    serializer. *)
Definition SubchannelWrapper_Orphaned (self : t) (w : SubchannelWrapper.t)
    (now now_timer : Timestamp) : option t :=
  if negb (shutting_down_ self)
  then CacheDeletedSubchannelLocked self now now_timer
         (SubchannelWrapper.wrapped_subchannel w)
  else Some self.

(** What [ShutdownLocked] does to these fields. *)
Definition ShutdownLocked (self : t) : t :=
  {| shutting_down_ := true;
     subchannel_cache_interval_ := subchannel_cache_interval_ self;
     cached_subchannels_ := [];
     subchannel_cache_timer_handle_ := None;
     effects :=
       match subchannel_cache_timer_handle_ self with
       | Some handle => effects self ++ [Cancel handle]
       | None => effects self
       end |}.

Inductive Event : Type :=
| EvOrphaned (w : SubchannelWrapper.t) (now now_timer : Timestamp)
| EvSubchannelCacheTimer (now : Timestamp)
| EvShutdown.

Definition step (ev : Event) (self : t) : option t :=
  match ev with
  | EvOrphaned w now now_timer => SubchannelWrapper_Orphaned self w now now_timer
  | EvSubchannelCacheTimer now => OnSubchannelCacheTimerLocked self now
  | EvShutdown => Some (ShutdownLocked self)
  end.

Fixpoint run (evs : list Event) (self : t) : option t :=
  match evs with
  | [] => Some self
  | ev :: rest => self' ← step ev self; run rest self'
  end.

(** The subchannels the cache holds. *)
Definition held (self : t) : list SubchannelPtr :=
  concat (map snd (cached_subchannels_ self)).

(** The keys of the map are in strictly ascending order. *)
Fixpoint ascending (keys : list Timestamp) : Prop :=
  match keys with
  | [] => True
  | k :: rest =>
      match rest with
      | [] => True
      | k' :: _ => k < k' /\ ascending rest
      end
  end.

(** What holds of the cache between two runs of the work serializer:
    the keys ascend, no entry is empty, the timer is armed exactly
    when the cache holds something, and a policy that is shutting down
    holds nothing. *)
Definition consistent (self : t) : Prop :=
  ascending (map fst (cached_subchannels_ self))
  /\ Forall (fun entry => snd entry <> []) (cached_subchannels_ self)
  /\ (is_Some (subchannel_cache_timer_handle_ self) <-> cached_subchannels_ self <> [])
  /\ (shutting_down_ self = true -> cached_subchannels_ self = []).

End SubchannelCache.

(** ** GrpcLb::BalancerCallState, the client load reports *)

(** The send side of one balancer call: the initial request, and the
    load reports the call sends once the balancer has asked for them.
    The fields are those of [BalancerCallState] that these handlers
    read and write; [is_current] stands for the test
    [this == grpclb_policy()->lb_calld_.get()]. *)
Module LoadReport.

(** What [GrpcLbClientStats::Get] hands out: the four counters and the
    drop counts per token ([None] is the null pointer). *)
Record Snapshot : Type := {
  num_calls_started : Z;
  num_calls_finished : Z;
  num_calls_finished_with_client_failed_to_send : Z;
  num_calls_finished_known_received : Z;
  drop_token_counts : option (list (string * Z))
}.

(** The test of [SendClientLoadReportLocked] for a report without
    content. *)
Definition all_zero (snapshot : Snapshot) : bool :=
  (num_calls_started snapshot =? 0)
  && (num_calls_finished snapshot =? 0)
  && (num_calls_finished_with_client_failed_to_send snapshot =? 0)
  && (num_calls_finished_known_received snapshot =? 0)
  && match drop_token_counts snapshot with
     | None => true
     | Some counts => match counts with [] => true | _ => false end
     end.

(** [send_message_payload_], when it is not null. *)
Inductive SendPayload : Type :=
| InitialRequest
| LoadReportRequest (snapshot : Snapshot).

(** The calls on the event engine and on the call, and the releases of
    the reference the load-report callbacks hold, in program order. *)
Inductive Effect : Type :=
| RunAfter (delay : Duration)
| StartBatch (snapshot : Snapshot)
| CallCancel
| TimerCancel (handle : TaskHandle)
| Unref.

Record t : Type := {
  is_current : bool;
  seen_initial_response_ : bool;
  has_client_stats_ : bool;
  client_stats_report_interval_ : Duration;
  send_message_payload_ : option SendPayload;
  client_load_report_is_due_ : bool;
  last_client_load_report_counters_were_zero_ : bool;
  client_load_report_handle_ : option TaskHandle;
  effects : list Effect
}.

(** The call as its constructor leaves it, installed as the policy's
    current call: the initial request is its payload. *)
Definition make : t :=
  {| is_current := true;
     seen_initial_response_ := false;
     has_client_stats_ := false;
     client_stats_report_interval_ := 0;
     send_message_payload_ := Some InitialRequest;
     client_load_report_is_due_ := false;
     last_client_load_report_counters_were_zero_ := false;
     client_load_report_handle_ := None;
     effects := [] |}.

Definition set_send_message_payload_ (v : option SendPayload) (self : t) : t :=
  {| is_current := is_current self;
     seen_initial_response_ := seen_initial_response_ self;
     has_client_stats_ := has_client_stats_ self;
     client_stats_report_interval_ := client_stats_report_interval_ self;
     send_message_payload_ := v;
     client_load_report_is_due_ := client_load_report_is_due_ self;
     last_client_load_report_counters_were_zero_ :=
       last_client_load_report_counters_were_zero_ self;
     client_load_report_handle_ := client_load_report_handle_ self;
     effects := effects self |}.

Definition set_client_load_report_is_due_ (v : bool) (self : t) : t :=
  {| is_current := is_current self;
     seen_initial_response_ := seen_initial_response_ self;
     has_client_stats_ := has_client_stats_ self;
     client_stats_report_interval_ := client_stats_report_interval_ self;
     send_message_payload_ := send_message_payload_ self;
     client_load_report_is_due_ := v;
     last_client_load_report_counters_were_zero_ :=
       last_client_load_report_counters_were_zero_ self;
     client_load_report_handle_ := client_load_report_handle_ self;
     effects := effects self |}.

Definition set_last_client_load_report_counters_were_zero_ (v : bool) (self : t) : t :=
  {| is_current := is_current self;
     seen_initial_response_ := seen_initial_response_ self;
     has_client_stats_ := has_client_stats_ self;
     client_stats_report_interval_ := client_stats_report_interval_ self;
     send_message_payload_ := send_message_payload_ self;
     client_load_report_is_due_ := client_load_report_is_due_ self;
     last_client_load_report_counters_were_zero_ := v;
     client_load_report_handle_ := client_load_report_handle_ self;
     effects := effects self |}.

Definition set_client_load_report_handle_ (v : option TaskHandle) (self : t) : t :=
  {| is_current := is_current self;
     seen_initial_response_ := seen_initial_response_ self;
     has_client_stats_ := has_client_stats_ self;
     client_stats_report_interval_ := client_stats_report_interval_ self;
     send_message_payload_ := send_message_payload_ self;
     client_load_report_is_due_ := client_load_report_is_due_ self;
     last_client_load_report_counters_were_zero_ :=
       last_client_load_report_counters_were_zero_ self;
     client_load_report_handle_ := v;
     effects := effects self |}.

Definition emit (e : Effect) (self : t) : t :=
  {| is_current := is_current self;
     seen_initial_response_ := seen_initial_response_ self;
     has_client_stats_ := has_client_stats_ self;
     client_stats_report_interval_ := client_stats_report_interval_ self;
     send_message_payload_ := send_message_payload_ self;
     client_load_report_is_due_ := client_load_report_is_due_ self;
     last_client_load_report_counters_were_zero_ :=
       last_client_load_report_counters_were_zero_ self;
     client_load_report_handle_ := client_load_report_handle_ self;
     effects := effects self ++ [e] |}.

(** The handle of a timer is its position in the log. *)
Definition ScheduleNextClientLoadReportLocked (self : t) : t :=
  emit (RunAfter (client_stats_report_interval_ self))
       (set_client_load_report_handle_ (Some (length (effects self))) self).

(** [snapshot] is what [client_stats_->Get] returns in this call.
    [None] is the failed [CHECK_EQ(send_message_payload_, nullptr)]. *)
Definition SendClientLoadReportLocked (self : t) (snapshot : Snapshot) : option t :=
  match send_message_payload_ self with
  | Some _ => None
  | None =>
      if all_zero snapshot && last_client_load_report_counters_were_zero_ self
      then Some (ScheduleNextClientLoadReportLocked self)
      else
        Some (emit (StartBatch snapshot)
                (set_send_message_payload_ (Some (LoadReportRequest snapshot))
                   (set_last_client_load_report_counters_were_zero_
                      (all_zero snapshot) self)))
  end.

(** The callback of the load-report timer. *)
Definition MaybeSendClientLoadReportLocked (self : t) (snapshot : Snapshot)
  : option t :=
  let self1 := set_client_load_report_handle_ None self in
  if negb (is_current self1) then Some (emit Unref self1)
  else
    match send_message_payload_ self1 with
    | None => SendClientLoadReportLocked self1 snapshot
    | Some _ => Some (set_client_load_report_is_due_ true self1)
    end.

(** [error_ok] is [error.ok()]. *)
Definition ClientLoadReportDoneLocked (self : t) (error_ok : bool) : t :=
  let self1 := set_send_message_payload_ None self in
  if negb error_ok || negb (is_current self1) then emit Unref self1
  else ScheduleNextClientLoadReportLocked self1.

(** The reference "on_initial_request_sent", which every run of this
    handler releases at its end, is not in the log. *)
Definition OnInitialRequestSentLocked (self : t) (snapshot : Snapshot) : option t :=
  let self1 := set_send_message_payload_ None self in
  if client_load_report_is_due_ self1 && is_current self1
  then
    self2 ← SendClientLoadReportLocked self1 snapshot;
    Some (set_client_load_report_is_due_ false self2)
  else Some self1.

(** The [INITIAL] case of [OnBalancerMessageReceivedLocked], which the
    handler reaches on the current call only and not after a first
    [INITIAL] response. *)
Definition on_initial_response (self : t) (interval : Duration) : t :=
  if is_current self && negb (seen_initial_response_ self)
  then
    {| is_current := is_current self;
       seen_initial_response_ := true;
       has_client_stats_ := has_client_stats_ self;
       client_stats_report_interval_ :=
         if interval =? 0 then client_stats_report_interval_ self
         else Z.max 1000 interval;
       send_message_payload_ := send_message_payload_ self;
       client_load_report_is_due_ := client_load_report_is_due_ self;
       last_client_load_report_counters_were_zero_ :=
         last_client_load_report_counters_were_zero_ self;
       client_load_report_handle_ := client_load_report_handle_ self;
       effects := effects self |}
  else self.

(** The block of the [SERVERLIST] case that starts the reports, on the
    current call only. *)
Definition on_serverlist (self : t) : t :=
  if is_current self
     && (0 <? client_stats_report_interval_ self)
     && negb (has_client_stats_ self)
  then
    ScheduleNextClientLoadReportLocked
      {| is_current := is_current self;
         seen_initial_response_ := seen_initial_response_ self;
         has_client_stats_ := true;
         client_stats_report_interval_ := client_stats_report_interval_ self;
         send_message_payload_ := send_message_payload_ self;
         client_load_report_is_due_ := client_load_report_is_due_ self;
         last_client_load_report_counters_were_zero_ :=
           last_client_load_report_counters_were_zero_ self;
         client_load_report_handle_ := client_load_report_handle_ self;
         effects := effects self |}
  else self.

(** [Orphan]; [cancelled] is what [EventEngine::Cancel] returns, if it
    is called. *)
Definition Orphan (self : t) (cancelled : bool) : t :=
  let self1 := emit CallCancel self in
  match client_load_report_handle_ self1 with
  | Some handle =>
      let self2 := emit (TimerCancel handle) self1 in
      if cancelled then emit Unref self2 else self2
  | None => self1
  end.

(** The policy lets go of the call ([lb_calld_.reset()], which orphans
    it): from then on it is not the current call. *)
Definition reset_by_policy (self : t) (cancelled : bool) : t :=
  Orphan
    {| is_current := false;
       seen_initial_response_ := seen_initial_response_ self;
       has_client_stats_ := has_client_stats_ self;
       client_stats_report_interval_ := client_stats_report_interval_ self;
       send_message_payload_ := send_message_payload_ self;
       client_load_report_is_due_ := client_load_report_is_due_ self;
       last_client_load_report_counters_were_zero_ :=
         last_client_load_report_counters_were_zero_ self;
       client_load_report_handle_ := client_load_report_handle_ self;
       effects := effects self |}
    cancelled.

Inductive Event : Type :=
| EvInitialRequestSent (snapshot : Snapshot)
| EvInitialResponse (interval : Duration)
| EvServerlist
| EvClientLoadReportTimer (snapshot : Snapshot)
| EvClientLoadReportDone (error_ok : bool)
| EvReset (cancelled : bool).

Definition step (ev : Event) (self : t) : option t :=
  match ev with
  | EvInitialRequestSent snapshot => OnInitialRequestSentLocked self snapshot
  | EvInitialResponse interval => Some (on_initial_response self interval)
  | EvServerlist => Some (on_serverlist self)
  | EvClientLoadReportTimer snapshot => MaybeSendClientLoadReportLocked self snapshot
  | EvClientLoadReportDone error_ok => Some (ClientLoadReportDoneLocked self error_ok)
  | EvReset cancelled => Some (reset_by_policy self cancelled)
  end.

Fixpoint run (evs : list Event) (self : t) : option t :=
  match evs with
  | [] => Some self
  | ev :: rest => self' ← step ev self; run rest self'
  end.

(** The load reports handed to the call, in order. *)
Definition reports (log : list Effect) : list Snapshot :=
  omap (fun e => match e with StartBatch snapshot => Some snapshot | _ => None end) log.

(** The delays of the timers started, in order. *)
Definition timers (log : list Effect) : list Duration :=
  omap (fun e => match e with RunAfter delay => Some delay | _ => None end) log.

(** Whether the last report of a list was one without content. *)
Definition last_was_zero (sent : list Snapshot) : bool :=
  match last sent with
  | Some snapshot => all_zero snapshot
  | None => false
  end.

(** In a list of reports no two in a row are without content. *)
Definition spaced (sent : list Snapshot) : Prop :=
  forall i r1 r2,
    sent !! i = Some r1 -> sent !! S i = Some r2 ->
    all_zero r1 = true -> all_zero r2 = false.

(** The reports sent are spaced, and the flag says whether the last
    of them was without content. *)
Definition reports_ok (self : t) : Prop :=
  spaced (reports (effects self))
  /\ last_client_load_report_counters_were_zero_ self
     = last_was_zero (reports (effects self)).

End LoadReport.

(** Sample snapshots of the stats. *)
Module LoadReportSample.

Definition idle : LoadReport.Snapshot :=
  {| LoadReport.num_calls_started := 0;
     LoadReport.num_calls_finished := 0;
     LoadReport.num_calls_finished_with_client_failed_to_send := 0;
     LoadReport.num_calls_finished_known_received := 0;
     LoadReport.drop_token_counts := Some [] |}.

Definition busy : LoadReport.Snapshot :=
  {| LoadReport.num_calls_started := 3;
     LoadReport.num_calls_finished := 2;
     LoadReport.num_calls_finished_with_client_failed_to_send := 0;
     LoadReport.num_calls_finished_known_received := 2;
     LoadReport.drop_token_counts := Some [("x", 1)] |}.

End LoadReportSample.

(** * Properties *)

(** ** Serverlist: drops, iteration, equality *)

Section ServerlistFacts.

Implicit Types (sl : Serverlist.t) (server : GrpcLbServer).

Lemma size_add_no_overflow (z : Z) :
  0 <= z < Int.SIZE_MAX -> Int.size_add z 1 = z + 1.
Proof.
  unfold Int.size_add, Int.size_wrap, Int.SIZE_MAX. intros Hz.
  apply Z.mod_small. lia.
Qed.

Lemma size_add_overflow : Int.size_add Int.SIZE_MAX 1 = 0.
Proof. reflexivity. Qed.

Lemma ShouldDrop_empty sl :
  Serverlist.serverlist_ sl = [] -> Serverlist.ShouldDrop sl = (None, sl).
Proof. unfold Serverlist.ShouldDrop. by intros ->. Qed.

Lemma drop_slot_in_range (entries : list GrpcLbServer) (index : Z) :
  entries <> [] ->
  (Z.to_nat (index mod Z.of_nat (length entries)) < length entries)%nat.
Proof.
  intros Hne.
  assert (0 < Z.of_nat (length entries)) by (destruct entries; [done | simpl; lia]).
  pose proof (Z.mod_pos_bound index (Z.of_nat (length entries))). lia.
Qed.

Lemma ShouldDrop_nonempty sl :
  Serverlist.serverlist_ sl <> [] ->
  exists server,
    Serverlist.serverlist_ sl
      !! Z.to_nat (Serverlist.drop_index_ sl
                   mod Z.of_nat (length (Serverlist.serverlist_ sl))) = Some server
    /\ Serverlist.ShouldDrop sl =
         (if drop server then Some (load_balance_token server) else None,
          {| Serverlist.serverlist_ := Serverlist.serverlist_ sl;
             Serverlist.drop_index_ := Int.size_add (Serverlist.drop_index_ sl) 1 |}).
Proof.
  intros Hne.
  destruct (lookup_lt_is_Some_2 (Serverlist.serverlist_ sl) _
              (drop_slot_in_range _ (Serverlist.drop_index_ sl) Hne))
    as [server Hs].
  exists server. split; [exact Hs |].
  unfold Serverlist.ShouldDrop.
  destruct (Serverlist.serverlist_ sl) as [|e entries] eqn:E; [done |].
  by rewrite Hs.
Qed.

End ServerlistFacts.

(** ** Picker *)

Section PickerFacts.

Implicit Types (self : Picker.t) (h : Heap) (a : PickArgs).

Lemma consult_serverlist_valid self h :
  Picker_refs_valid self h ->
  Picker.consult_serverlist self h
  = Some (Picker_drop_token self h,
          set_serverlists (Picker_serverlists_after self h) h).
Proof.
  intros (Hsl & _ & _).
  unfold Picker.consult_serverlist, Picker_drop_token, Picker_serverlists_after.
  destruct (Picker.serverlist_ self) as [p|]; [| by destruct h].
  destruct (Hsl p eq_refl) as [sl ->]. simpl.
  by destruct (Serverlist.ShouldDrop sl).
Qed.

(** A pick that the serverlist turns into a drop. *)
Lemma Pick_dropped self h a token :
  Picker_refs_valid self h ->
  Picker_drop_token self h = Some token ->
  exists h',
    Picker.Pick self a h
    = Some (PickResult.Drop (UnavailableError "drop directed by grpclb balancer"),
            self, h')
    /\ serverlists h' = Picker_serverlists_after self h
    /\ stats h' =
         match Picker.client_stats_ self with
         | Some q =>
             match stats h !! q with
             | Some s => <[q := GrpcLbClientStats.AddCallDropped token s]> (stats h)
             | None => stats h
             end
         | None => stats h
         end.
Proof.
  intros Hv Htok. unfold Picker.Pick.
  rewrite (consult_serverlist_valid _ _ Hv), Htok. simpl.
  destruct Hv as (_ & Hst & _).
  destruct (Picker.client_stats_ self) as [q|]; simpl.
  - destruct (Hst q eq_refl) as [s Hs]. rewrite Hs. simpl. eauto.
  - eauto.
Qed.

Lemma complete_valid (c : PickResult.Complete SubchannelWrapper.t) h :
  (forall q, SubchannelWrapper.client_stats (PickResult.subchannel c) = Some q ->
             is_Some (stats h !! q)) ->
  exists h',
    Picker.complete c h
    = Some ({| PickResult.subchannel :=
                 SubchannelWrapper.wrapped_subchannel (PickResult.subchannel c);
               PickResult.subchannel_call_tracker :=
                 match SubchannelWrapper.client_stats (PickResult.subchannel c) with
                 | Some q =>
                     Some (SubchannelCallTracker q (PickResult.subchannel_call_tracker c))
                 | None => PickResult.subchannel_call_tracker c
                 end;
               PickResult.metadata_mutations :=
                 PickResult.metadata_mutations c
                 ++ Picker_added_metadata (PickResult.subchannel c) |}, h')
    /\ serverlists h' = serverlists h
    /\ stats h' =
         match SubchannelWrapper.client_stats (PickResult.subchannel c) with
         | Some q =>
             match stats h !! q with
             | Some s => <[q := GrpcLbClientStats.AddCallStarted s]> (stats h)
             | None => stats h
             end
         | None => stats h
         end.
Proof.
  intros Hst. unfold Picker.complete, Picker_added_metadata.
  destruct (SubchannelWrapper.client_stats (PickResult.subchannel c)) as [q|]; simpl.
  - destruct (Hst q eq_refl) as [s Hs]. rewrite Hs. simpl.
    unfold MetadataMutations.Set_.
    destruct (String.eqb _ ""); simpl; eexists;
      (split; [rewrite <- ?app_assoc; reflexivity | by split]).
  - unfold MetadataMutations.Set_.
    destruct (String.eqb _ ""); simpl; eexists;
      (split; [rewrite ?app_nil_r; reflexivity | by split]).
Qed.

(** A pick that is not dropped is delegated: the child picker is asked
    once, with the pick's own arguments. *)
Lemma Pick_delegated self h a :
  Picker_refs_valid self h ->
  Picker_drop_token self h = None ->
  exists h',
    Picker.Pick self a h
    = Some (delegated_result
              (ChildPicker.decide (Picker.child_picker_ self)
                 (ChildPicker.consulted (Picker.child_picker_ self)) a),
            Picker.set_child_picker
              (snd (ChildPicker.Pick (Picker.child_picker_ self) a)) self,
            h')
    /\ serverlists h' = Picker_serverlists_after self h.
Proof.
  intros Hv Htok. unfold Picker.Pick.
  rewrite (consult_serverlist_valid _ _ Hv), Htok. simpl.
  destruct Hv as (_ & _ & Hch).
  destruct (ChildPicker.decide _ _ a) as [c| | |] eqn:Hd; simpl; eauto.
  destruct (complete_valid c (set_serverlists (Picker_serverlists_after self h) h))
    as (h' & -> & Hsl & _).
  { intros q Hq. simpl. eapply Hch; eauto. }
  simpl. eauto.
Qed.

End PickerFacts.

(** ** The address iterator and serverlist equality *)

Section IteratorFacts.

Implicit Types (server : GrpcLbServer) (entries : list GrpcLbServer).

Lemma IsServerValid_ignores_position server idx log idx' log' :
  IsServerValid server idx log = IsServerValid server idx' log'.
Proof. reflexivity. Qed.

Lemma shiftr16_zero_iff_range (p : Z) : Z.shiftr p 16 = 0 <-> 0 <= p < 2 ^ 16.
Proof.
  rewrite Z.shiftr_div_pow2 by lia. split.
  - intros Hq. pose proof (Z.div_mod p (2 ^ 16) ltac:(lia)) as Hdm.
    pose proof (Z.mod_pos_bound p (2 ^ 16) ltac:(lia)). rewrite Hq in Hdm. lia.
  - intros Hr. apply Z.div_small. lia.
Qed.

Lemma range16_high16_zero (p : Z) : 0 <= p < 2 ^ 16 -> high16_zero p.
Proof.
  intros Hr i Hi. destruct (Z.eq_dec p 0) as [-> | Hnz]; [apply Z.bits_0 |].
  apply Z.bits_above_log2; [lia |].
  assert (Z.log2 p < 16) by (apply Z.log2_lt_pow2; lia). lia.
Qed.

Lemma int32_high16_zero_range (p : Z) :
  Int.is_int32 p -> high16_zero p -> 0 <= p < 2 ^ 16.
Proof.
  unfold Int.is_int32. intros Hr Hz.
  assert (Hnn : 0 <= p).
  { destruct (Z.neg_nonneg_cases p) as [Hneg | ]; [| done].
    exfalso.
    assert (Hb : Z.testbit p 31 = true).
    { apply Z.bits_above_log2_neg; [done |].
      assert (Z.log2 (Z.pred (- p)) < 31); [| lia].
      destruct (Z.eq_dec (Z.pred (- p)) 0) as [-> | ]; [simpl; lia |].
      apply Z.log2_lt_pow2; lia. }
    rewrite Hz in Hb by lia. done. }
  split; [done |].
  destruct (Z.lt_ge_cases p (2 ^ 16)) as [ | Hge]; [done | exfalso].
  assert (Hpos : 0 < p) by lia.
  pose proof (Z.bit_log2 p Hpos) as Hb.
  assert (16 <= Z.log2 p) by (apply Z.log2_le_pow2; lia).
  assert (Z.log2 p < 32) by (apply Z.log2_lt_pow2; lia).
  rewrite Hz in Hb by lia. done.
Qed.

Lemma IsServerValid_iff server idx log :
  IsServerValid server idx log = true
  <-> drop server = false
      /\ (ip_size server = 4 \/ ip_size server = 16)
      /\ Z.shiftr (port server) 16 = 0.
Proof.
  unfold IsServerValid.
  destruct (drop server); [intuition congruence |].
  destruct (Z.eqb_spec (Z.shiftr (port server) 16) 0) as [-> | Hp]; simpl;
    [| intuition congruence].
  destruct (Z.eqb_spec (ip_size server) 4), (Z.eqb_spec (ip_size server) 16);
    simpl; intuition congruence.
Qed.

Lemma AddressIterator_visit_snoc (it : AddressIterator.t) (i : nat) server acc :
  Serverlist.serverlist_ (AddressIterator.serverlist_ it) !! i = Some server ->
  AddressIterator.visit it (fun e acc => acc ++ [e]) i acc
  = acc ++ map (endpoint_of (AddressIterator.client_stats_ it))
             (List.filter is_valid_entry [server]).
Proof.
  intros Hs. unfold AddressIterator.visit. rewrite Hs. simpl.
  unfold is_valid_entry. rewrite (IsServerValid_ignores_position server i false O false).
  destruct (IsServerValid server O false); simpl; [done | by rewrite app_nil_r].
Qed.

Lemma AddressIterator_loop_snoc (it : AddressIterator.t) (remaining i : nat) acc :
  (i + remaining = length (Serverlist.serverlist_ (AddressIterator.serverlist_ it)))%nat ->
  AddressIterator.loop it (fun e acc => acc ++ [e]) remaining i acc
  = acc ++ map (endpoint_of (AddressIterator.client_stats_ it))
             (List.filter is_valid_entry
                (skipn i (Serverlist.serverlist_ (AddressIterator.serverlist_ it)))).
Proof.
  revert i acc. induction remaining as [| r IH]; intros i acc Hlen; simpl.
  - rewrite skipn_all2 by lia. simpl. by rewrite app_nil_r.
  - destruct (lookup_lt_is_Some_2
                (Serverlist.serverlist_ (AddressIterator.serverlist_ it)) i)
      as [server Hs]; [lia |].
    rewrite IH by lia.
    rewrite (AddressIterator_visit_snoc it i server acc Hs).
    rewrite (drop_S _ _ _ Hs). simpl.
    destruct (is_valid_entry server); simpl; [| by rewrite app_nil_r].
    by rewrite <- app_assoc.
Qed.

Lemma AddressIterator_endpoints (sl : Serverlist.t) (client_stats : option StatsPtr) :
  EndpointAddressesIterator.endpoints
    (EndpointAddressesIterator.OfServerlist
       {| AddressIterator.serverlist_ := sl;
          AddressIterator.client_stats_ := client_stats |})
  = map (endpoint_of client_stats)
        (List.filter is_valid_entry (Serverlist.serverlist_ sl)).
Proof.
  unfold EndpointAddressesIterator.endpoints. simpl.
  unfold AddressIterator.ForEach.
  by rewrite AddressIterator_loop_snoc.
Qed.

Lemma GrpcLbServer_eqb_eq (a b : GrpcLbServer) : GrpcLbServer_eqb a b = true <-> a = b.
Proof.
  unfold GrpcLbServer_eqb. destruct a, b; simpl.
  rewrite !andb_true_iff, !Z.eqb_eq, !String.eqb_eq, Bool.eqb_true_iff.
  split; [intros ((((-> & ->) & ->) & ->) & ->); done | intros [= -> -> -> -> ->]; done].
Qed.

Lemma vector_eq_eq entries entries' :
  Serverlist.vector_eq entries entries' = true <-> entries = entries'.
Proof.
  revert entries'. induction entries as [| x l IH]; intros [| y l']; simpl;
    try (split; congruence).
  rewrite andb_true_iff, GrpcLbServer_eqb_eq, IH.
  split; [intros [-> ->]; done | intros [= -> ->]; done].
Qed.

Lemma Serverlist_eq_iff (a b : Serverlist.t) :
  Serverlist.eq a b = true <-> Serverlist.serverlist_ a = Serverlist.serverlist_ b.
Proof. apply vector_eq_eq. Qed.

Lemma filter_skips_invalid (pre post : list GrpcLbServer) server :
  is_valid_entry server = false ->
  List.filter is_valid_entry (pre ++ server :: post)
  = List.filter is_valid_entry (pre ++ post).
Proof. intros Hv. rewrite !List.filter_app. simpl. by rewrite Hv. Qed.

End IteratorFacts.

(** ** Character buffers *)

Section BufferFacts.

Implicit Types (buf text rest : string) (size : nat).

Lemma strnlen_le buf size : (CStr.strnlen buf size <= size)%nat.
Proof.
  revert buf. induction size as [| m IH]; intros [| c rest]; simpl; try lia.
  destruct (Ascii.eqb c CStr.NUL); [lia |]. specialize (IH rest). lia.
Qed.

Lemma copied_length buf (n : nat) : String.length (CStr.copied buf n) = n.
Proof.
  revert buf. induction n as [| m IH]; intros [| c rest]; simpl; by rewrite ?IH.
Qed.

Lemma copied_strnlen_no_NUL buf size :
  ~ In CStr.NUL (list_ascii_of_string (CStr.copied buf (CStr.strnlen buf size))).
Proof.
  revert buf. induction size as [| m IH]; intros [| c rest]; simpl; try tauto.
  destruct (Ascii.eqb_spec c CStr.NUL) as [-> | Hne]; simpl; [tauto |].
  intros [Hc | Hin]; [done | by apply (IH rest)].
Qed.

Lemma copied_strnlen_rest buf size :
  exists rest,
    buf = CStr.copied buf (CStr.strnlen buf size) +:+ rest
    /\ (CStr.strnlen buf size = size
        \/ rest = EmptyString
        \/ exists rest', rest = String CStr.NUL rest').
Proof.
  revert buf. induction size as [| m IH]; intros [| c rest]; simpl.
  - exists EmptyString. split; [done | by left].
  - exists (String c rest). split; [done | by left].
  - exists EmptyString. split; [done | right; by left].
  - destruct (Ascii.eqb_spec c CStr.NUL) as [-> | Hne]; simpl.
    + exists (String CStr.NUL rest). split; [done |]. right. right. by eexists.
    + destruct (IH rest) as (r & Hr & Hend). exists r.
      split; [exact (f_equal (String c) Hr) |].
      destruct Hend as [-> | [-> | Hnul]]; [by left | right; by left | by right; right].
Qed.

(** What [strnlen] and the copy of that many bytes read of an array. *)
Lemma read_bytes_before_NUL buf size :
  bytes_before_NUL buf size (CStr.copied buf (CStr.strnlen buf size)).
Proof.
  split; [apply copied_strnlen_no_NUL |]. rewrite copied_length.
  split; [apply strnlen_le |]. apply copied_strnlen_rest.
Qed.

Lemma strnlen_of_text text rest size :
  ~ In CStr.NUL (list_ascii_of_string text) ->
  (String.length text <= size)%nat ->
  String.length text = size \/ rest = EmptyString
  \/ (exists rest', rest = String CStr.NUL rest') ->
  CStr.strnlen (text +:+ rest) size = String.length text
  /\ CStr.copied (text +:+ rest) (String.length text) = text.
Proof.
  revert size. induction text as [| c text IH]; intros size Hnul Hlen Hend.
  - simpl in *. split; [| done].
    destruct Hend as [<- | [-> | [r ->]]]; [by destruct rest | by destruct size |].
    by destruct size.
  - destruct size as [| m]; [simpl in Hlen; lia |].
    change ((String c text) +:+ rest) with (String c (text +:+ rest)).
    simpl. destruct (Ascii.eqb_spec c CStr.NUL) as [-> | Hne].
    { exfalso. apply Hnul. by left. }
    destruct (IH m) as [Hn Hc].
    + intros Hin. apply Hnul. by right.
    + simpl in Hlen. lia.
    + destruct Hend as [Hl | Hr]; [left; simpl in Hl; lia | by right].
    + by rewrite Hn, Hc.
Qed.

(** The read is determined by the array: there is one such text. *)
Lemma bytes_before_NUL_read buf size text :
  bytes_before_NUL buf size text ->
  CStr.strnlen buf size = String.length text
  /\ CStr.copied buf (CStr.strnlen buf size) = text.
Proof.
  intros (Hnul & Hlen & rest & -> & Hend).
  destruct (strnlen_of_text text rest size Hnul Hlen Hend) as [Hn Hc].
  by rewrite Hn, Hc.
Qed.

Lemma c_str_in_text buf size text :
  bytes_before_NUL buf size text -> (String.length text < size)%nat ->
  CStr.c_str_in buf size = Some text.
Proof.
  intros Hb Hlt. destruct (bytes_before_NUL_read buf size text Hb) as [Hn Hc].
  unfold CStr.c_str_in. rewrite Hc, Hn.
  by rewrite (proj2 (Nat.ltb_lt _ _) Hlt).
Qed.

End BufferFacts.

(** ** Claims on the serverlist and the picker *)

(** C1. For every serverlist: when its entry vector is empty,
    [ShouldDrop] returns null and leaves [drop_index_] as it is;
    otherwise a call adds one to [drop_index_] (in [size_t]
    arithmetic, so exactly one below [SIZE_MAX]) and returns the token
    of the entry at the old index modulo the length when that entry is
    a drop entry, null when it is not.  A pick consults the serverlist
    its picker holds exactly once, so the index of a non-empty
    serverlist advances once per pick, and a pick of a picker without
    serverlist moves no index. *)
Theorem ShouldDrop_advances_drop_index_once (sl : Serverlist.t) :
  (Serverlist.serverlist_ sl = [] -> Serverlist.ShouldDrop sl = (None, sl))
  /\ (Serverlist.serverlist_ sl <> [] ->
      exists server,
        Serverlist.serverlist_ sl
          !! Z.to_nat (Serverlist.drop_index_ sl
                       mod Z.of_nat (length (Serverlist.serverlist_ sl))) = Some server
        /\ fst (Serverlist.ShouldDrop sl)
           = (if drop server then Some (load_balance_token server) else None)
        /\ Serverlist.serverlist_ (snd (Serverlist.ShouldDrop sl))
           = Serverlist.serverlist_ sl
        /\ Serverlist.drop_index_ (snd (Serverlist.ShouldDrop sl))
           = Int.size_add (Serverlist.drop_index_ sl) 1
        /\ (0 <= Serverlist.drop_index_ sl < Int.SIZE_MAX ->
            Serverlist.drop_index_ (snd (Serverlist.ShouldDrop sl))
            = Serverlist.drop_index_ sl + 1))
  /\ (forall self a h p,
        Picker_refs_valid self h ->
        Picker.serverlist_ self = Some p ->
        serverlists h !! p = Some sl ->
        exists r self' h',
          Picker.Pick self a h = Some (r, self', h')
          /\ serverlists h' = <[p := snd (Serverlist.ShouldDrop sl)]> (serverlists h))
  /\ (forall self a h,
        Picker_refs_valid self h ->
        Picker.serverlist_ self = None ->
        exists r self' h',
          Picker.Pick self a h = Some (r, self', h')
          /\ serverlists h' = serverlists h).
Proof.
  split; [apply ShouldDrop_empty |].
  split.
  { intros Hne. destruct (ShouldDrop_nonempty sl Hne) as (server & Hs & ->).
    exists server. simpl. repeat split; try done.
    apply size_add_no_overflow. }
  assert (Hpick : forall self a h, Picker_refs_valid self h ->
            exists r self' h', Picker.Pick self a h = Some (r, self', h')
              /\ serverlists h' = Picker_serverlists_after self h).
  { intros self a h Hv.
    destruct (Picker_drop_token self h) as [token |] eqn:Htok.
    - destruct (Pick_dropped self h a token Hv Htok) as (h' & -> & Hsl & _). eauto.
    - destruct (Pick_delegated self h a Hv Htok) as (h' & -> & Hsl). eauto. }
  split.
  - intros self a h p Hv Hp Hsl.
    destruct (Hpick self a h Hv) as (r & self' & h' & Hr & Hafter).
    exists r, self', h'. split; [done |].
    rewrite Hafter. unfold Picker_serverlists_after. by rewrite Hp, Hsl.
  - intros self a h Hv Hp.
    destruct (Hpick self a h Hv) as (r & self' & h' & Hr & Hafter).
    exists r, self', h'. split; [done |].
    rewrite Hafter. unfold Picker_serverlists_after. by rewrite Hp.
Qed.

Lemma ShouldDrop_advances_drop_index_once_witness :
  Serverlist.ShouldDrop Sample.empty_serverlist = (None, Sample.empty_serverlist)
  /\ (exists server,
        Serverlist.serverlist_ Sample.mixed !! 0%nat = Some server
        /\ Serverlist.drop_index_ (snd (Serverlist.ShouldDrop Sample.mixed)) = 1)
  /\ (exists r self' h',
        Picker.Pick (Sample.picker (Some O) Sample.queueing_child) Sample.pick_args
                    (Sample.heap1 Sample.mixed) = Some (r, self', h')
        /\ serverlists h' = [snd (Serverlist.ShouldDrop Sample.mixed)]).
Proof.
  split; [| split].
  - apply (proj1 (ShouldDrop_advances_drop_index_once Sample.empty_serverlist)).
    reflexivity.
  - destruct (proj1 (proj2 (ShouldDrop_advances_drop_index_once Sample.mixed)))
      as (server & Hs & _ & _ & _ & Hidx); [discriminate |].
    exists server. split; [exact Hs |].
    apply Hidx. vm_compute. split; [discriminate | reflexivity].
  - apply (proj1 (proj2 (proj2 (ShouldDrop_advances_drop_index_once Sample.mixed)))
             (Sample.picker (Some O) Sample.queueing_child) Sample.pick_args
             (Sample.heap1 Sample.mixed) O).
    + split; [| split].
      * intros p [= <-]. by eexists.
      * intros q [= <-]. by eexists.
      * intros hist a c q Hc. discriminate Hc.
    + reflexivity.
    + reflexivity.
Defined.

(** C8. The address iterator emits, in serverlist order, exactly the
    entries that are not drop entries, have an IP of 4 or 16 bytes and
    a port whose high 16 bits are zero.  The other entries stay in the
    entry vector, which serverlist equality compares by value: a
    serverlist that differs from this one only in a skipped entry
    (dropped from the vector, or replaced by another skipped entry)
    yields the same endpoints and is still unequal. *)
Theorem AddressIterator_emits_valid_entries
    (sl : Serverlist.t) (client_stats : option StatsPtr) :
  Forall (fun server => Int.is_int32 (port server)) (Serverlist.serverlist_ sl) ->
  EndpointAddressesIterator.endpoints (GrpcLb.GetServerAddressList sl client_stats)
  = map (endpoint_of client_stats)
        (List.filter is_valid_entry (Serverlist.serverlist_ sl))
  /\ (forall server,
        In server (Serverlist.serverlist_ sl) ->
        is_valid_entry server = true
        <-> drop server = false
            /\ (ip_size server = 4 \/ ip_size server = 16)
            /\ high16_zero (port server))
  /\ (forall other,
        Serverlist.eq sl other = true
        <-> Serverlist.serverlist_ sl = Serverlist.serverlist_ other)
  /\ (forall pre skipped post other,
        Serverlist.serverlist_ sl = pre ++ skipped :: post ->
        is_valid_entry skipped = false ->
        Serverlist.serverlist_ other = pre ++ post
        \/ (exists skipped',
              is_valid_entry skipped' = false /\ skipped' <> skipped
              /\ Serverlist.serverlist_ other = pre ++ skipped' :: post) ->
        EndpointAddressesIterator.endpoints (GrpcLb.GetServerAddressList other client_stats)
        = EndpointAddressesIterator.endpoints (GrpcLb.GetServerAddressList sl client_stats)
        /\ Serverlist.eq sl other = false).
Proof.
  intros Hports. unfold GrpcLb.GetServerAddressList.
  split; [apply AddressIterator_endpoints |].
  split.
  { intros server Hin.
    assert (Hp : Int.is_int32 (port server)).
    { rewrite List.Forall_forall in Hports. by apply Hports. }
    unfold is_valid_entry. rewrite IsServerValid_iff, shiftr16_zero_iff_range.
    split.
    - intros (Hd & Hip & Hr). auto using range16_high16_zero.
    - intros (Hd & Hip & Hz). auto using int32_high16_zero_range. }
  split; [intros other; apply Serverlist_eq_iff |].
  intros pre skipped post other Hsl Hskip Hother.
  rewrite !AddressIterator_endpoints, Hsl.
  rewrite (filter_skips_invalid pre post skipped Hskip).
  split.
  - destruct Hother as [-> | (skipped' & Hskip' & _ & ->)]; [done |].
    by rewrite (filter_skips_invalid pre post skipped' Hskip').
  - apply not_true_is_false. rewrite Serverlist_eq_iff, Hsl.
    destruct Hother as [-> | (skipped' & _ & Hne & ->)].
    + intros Heq. apply (f_equal (@length _)) in Heq.
      rewrite !length_app in Heq. simpl in Heq. lia.
    + intros Heq. apply app_inv_head in Heq. congruence.
Qed.

Lemma AddressIterator_emits_valid_entries_witness :
  EndpointAddressesIterator.endpoints (GrpcLb.GetServerAddressList Sample.mixed None)
  = [endpoint_of None (Sample.backend "abcd" 80 "t")].
Proof.
  apply (proj1 (AddressIterator_emits_valid_entries Sample.mixed None
    ltac:(repeat constructor; vm_compute; congruence))).
Defined.

Lemma AddCallDropped_counts_one (token key : string) (s : GrpcLbClientStats.t) :
  bytes_before_NUL token GRPC_GRPCLB_SERVER_LOAD_BALANCE_TOKEN_MAX_SIZE key ->
  (String.length key < GRPC_GRPCLB_SERVER_LOAD_BALANCE_TOKEN_MAX_SIZE)%nat ->
  GrpcLbClientStats.drop_count (GrpcLbClientStats.AddCallDropped token s) key
  = GrpcLbClientStats.drop_count s key + 1
  /\ forall other,
       other <> key ->
       GrpcLbClientStats.drop_count (GrpcLbClientStats.AddCallDropped token s) other
       = GrpcLbClientStats.drop_count s other.
Proof.
  intros Hb Hlt. unfold GrpcLbClientStats.AddCallDropped.
  rewrite (c_str_in_text token _ key Hb Hlt).
  unfold GrpcLbClientStats.drop_count. simpl. split.
  - by rewrite lookup_insert_eq.
  - intros other Hne. by rewrite lookup_insert_ne.
Qed.

Lemma delegated_result_is_drop (r : PickResult.t SubchannelWrapper.t) :
  PickResult.is_drop (delegated_result r) = PickResult.is_drop r.
Proof. by destruct r. Qed.

(** C7, as the code has it.  For every pick: when the picker holds a
    serverlist and [ShouldDrop] returns a token, the pick hands the
    token to [AddCallDropped] of the picker's stats (when it has a
    stats object) and returns a drop result with status "unavailable",
    and the child picker is not asked.  When the token's array holds a
    NUL, the stats then count one more drop under the text before it
    and no other count changes; of a token that fills its array, which
    [AddCallDropped] reads past the end, nothing more is said.  In
    every other case (no
    serverlist, or no token) the child picker is asked, once, and its
    result is returned (a complete pick with the metadata and tracker
    added).  A picker without serverlist returns a drop result exactly
    when its child picker returns one: it adds no drop of its own. *)
Theorem Pick_drops_or_delegates (self : Picker.t) (a : PickArgs) (h : Heap) :
  Picker_refs_valid self h ->
  (forall token,
     Picker_drop_token self h = Some token ->
     exists h',
       Picker.Pick self a h
       = Some (PickResult.Drop (UnavailableError "drop directed by grpclb balancer"),
               self, h')
       /\ (Picker.client_stats_ self = None -> stats h' = stats h)
       /\ (forall q s,
             Picker.client_stats_ self = Some q -> stats h !! q = Some s ->
             stats h' = <[q := GrpcLbClientStats.AddCallDropped token s]> (stats h)
             /\ forall key,
                  bytes_before_NUL token
                    GRPC_GRPCLB_SERVER_LOAD_BALANCE_TOKEN_MAX_SIZE key ->
                  (String.length key
                   < GRPC_GRPCLB_SERVER_LOAD_BALANCE_TOKEN_MAX_SIZE)%nat ->
                  GrpcLbClientStats.drop_count
                    (GrpcLbClientStats.AddCallDropped token s) key
                  = GrpcLbClientStats.drop_count s key + 1
                  /\ forall other,
                       other <> key ->
                       GrpcLbClientStats.drop_count
                         (GrpcLbClientStats.AddCallDropped token s) other
                       = GrpcLbClientStats.drop_count s other))
  /\ (Picker_drop_token self h = None ->
      exists h',
        Picker.Pick self a h
        = Some (delegated_result
                  (ChildPicker.decide (Picker.child_picker_ self)
                     (ChildPicker.consulted (Picker.child_picker_ self)) a),
                Picker.set_child_picker
                  {| ChildPicker.consulted :=
                       ChildPicker.consulted (Picker.child_picker_ self) ++ [a];
                     ChildPicker.decide := ChildPicker.decide (Picker.child_picker_ self) |}
                  self,
                h'))
  /\ (Picker.serverlist_ self = None ->
      Picker_drop_token self h = None
      /\ PickResult.is_drop
           (delegated_result
              (ChildPicker.decide (Picker.child_picker_ self)
                 (ChildPicker.consulted (Picker.child_picker_ self)) a))
         = PickResult.is_drop
             (ChildPicker.decide (Picker.child_picker_ self)
                (ChildPicker.consulted (Picker.child_picker_ self)) a)).
Proof.
  intros Hv. split; [| split].
  - intros token Htok.
    destruct (Pick_dropped self h a token Hv Htok) as (h' & Hp & _ & Hst).
    exists h'. split; [done |]. split.
    + intros Hn. by rewrite Hst, Hn.
    + intros q s Hq Hs. rewrite Hst, Hq, Hs.
      split; [done |]. intros key Hb Hlt.
      by apply AddCallDropped_counts_one.
  - intros Htok. destruct (Pick_delegated self h a Hv Htok) as (h' & Hp & _).
    exists h'. exact Hp.
  - intros Hn. split.
    + unfold Picker_drop_token. by rewrite Hn.
    + apply delegated_result_is_drop.
Qed.

Lemma Sample_picker_refs_valid (serverlist : option ServerlistPtr)
    (child : ChildPicker.t) (sl : Serverlist.t) :
  (forall p, serverlist = Some p -> p = O) ->
  (forall hist a c q,
     ChildPicker.decide child hist a = PickResult.IsComplete c ->
     SubchannelWrapper.client_stats (PickResult.subchannel c) = Some q -> q = O) ->
  Picker_refs_valid (Sample.picker serverlist child) (Sample.heap1 sl).
Proof.
  intros Hp Hc. split; [| split]; simpl.
  - intros p Hs. rewrite (Hp p Hs). by eexists.
  - intros q [= <-]. by eexists.
  - intros hist a c q Hd Hq. rewrite (Hc hist a c q Hd Hq). by eexists.
Defined.

Lemma Pick_drops_or_delegates_witness :
  (exists h',
     Picker.Pick (Sample.picker (Some O) Sample.queueing_child) Sample.pick_args
       (Sample.heap1 (Serverlist.make [Sample.drop_entry "x"]))
     = Some (PickResult.Drop (UnavailableError "drop directed by grpclb balancer"),
             Sample.picker (Some O) Sample.queueing_child, h')
     /\ GrpcLbClientStats.drop_count
          (GrpcLbClientStats.AddCallDropped "x" GrpcLbClientStats.make) "x"
        = 1)
  /\ (exists h',
        Picker.Pick (Sample.picker None Sample.queueing_child) Sample.pick_args
          (Sample.heap1 Sample.mixed)
        = Some (PickResult.Queue,
                Picker.set_child_picker
                  {| ChildPicker.consulted := [Sample.pick_args];
                     ChildPicker.decide := ChildPicker.decide Sample.queueing_child |}
                  (Sample.picker None Sample.queueing_child),
                h')).
Proof.
  split.
  - destruct (proj1 (Pick_drops_or_delegates
                (Sample.picker (Some O) Sample.queueing_child) Sample.pick_args
                (Sample.heap1 (Serverlist.make [Sample.drop_entry "x"]))
                (Sample_picker_refs_valid (Some O) Sample.queueing_child _
                   ltac:(intros p Hp; congruence)
                   ltac:(intros ? ? ? ? Hd; discriminate Hd)))
              "x" eq_refl) as (h' & Hp & _ & Hst).
    exists h'. split; [exact Hp |].
    destruct (Hst O GrpcLbClientStats.make eq_refl eq_refl) as [_ Hcount].
    refine (proj1 (Hcount "x" _ _)); [| vm_compute; lia].
    split; [| split; [vm_compute; lia |]].
    + intros [Hc | []]. discriminate Hc.
    + exists EmptyString. split; [reflexivity | right; left; reflexivity].
  - apply (proj1 (proj2 (Pick_drops_or_delegates
                (Sample.picker None Sample.queueing_child) Sample.pick_args
                (Sample.heap1 Sample.mixed)
                (Sample_picker_refs_valid None Sample.queueing_child _
                   ltac:(intros p Hp; discriminate Hp)
                   ltac:(intros ? ? ? ? Hd; discriminate Hd))))
             eq_refl).
Defined.

(** C7 as stated fails: a picker that holds no serverlist returns the
    drop result of a child picker that drops. *)
Lemma null_serverlist_picker_returns_drop :
  Picker.serverlist_ (Sample.picker None Sample.dropping_child) = None
  /\ (fun r => PickResult.is_drop (fst (fst r)))
       <$> Picker.Pick (Sample.picker None Sample.dropping_child) Sample.pick_args
             (Sample.heap1 Sample.mixed)
     = Some true
  /\ ~ (forall self a h r self' h',
          Picker_refs_valid self h ->
          Picker.serverlist_ self = None ->
          Picker.Pick self a h = Some (r, self', h') ->
          PickResult.is_drop r = false).
Proof.
  split; [reflexivity |]. split; [reflexivity |].
  intros Hclaim.
  assert (Hv : Picker_refs_valid (Sample.picker None Sample.dropping_child)
                                 (Sample.heap1 Sample.mixed)).
  { apply Sample_picker_refs_valid.
    - intros p Hp. discriminate Hp.
    - intros ? ? ? ? Hd. discriminate Hd. }
  pose proof (Hclaim (Sample.picker None Sample.dropping_child) Sample.pick_args
                (Sample.heap1 Sample.mixed) _ _ _ Hv eq_refl eq_refl) as Hf.
  discriminate Hf.
Qed.

Lemma sets_key_added_lb_token (w : SubchannelWrapper.t) :
  MetadataMutations.sets_key LbTokenMetadata_key (Picker_added_metadata w)
  <-> SubchannelWrapper.lb_token w <> "".
Proof.
  unfold MetadataMutations.sets_key, Picker_added_metadata.
  destruct (String.eqb_spec (SubchannelWrapper.lb_token w) "") as [He | Hne].
  - split; [| done]. intros [v Hin]. exfalso.
    destruct (SubchannelWrapper.client_stats w); simpl in Hin; [| done].
    destruct Hin as [[=] | []].
  - split; [done |]. intros _. eexists. apply in_or_app. right. by left.
Qed.

Lemma sets_key_added_client_stats (w : SubchannelWrapper.t) :
  MetadataMutations.sets_key GrpcLbClientStatsMetadata_key (Picker_added_metadata w)
  <-> SubchannelWrapper.client_stats w <> None.
Proof.
  unfold MetadataMutations.sets_key, Picker_added_metadata.
  destruct (SubchannelWrapper.client_stats w) as [q |]; simpl.
  - split; [done |]. intros _. eexists. by left.
  - split; [| done]. intros [v Hin]. exfalso.
    destruct (String.eqb _ ""); simpl in Hin; [done |].
    destruct Hin as [[=] | []].
Qed.

(** ** The policy's control loop *)

Section PolicyFacts.

Context {backoff_ops : BackOffOps}.

Import GrpcLb.

Implicit Types (st : GrpcLb.t).

#[local] Arguments GrpcLb.CreateChildPolicyArgsLocked : simpl never.

(** One clause of the invariant, on a state written out from another
    whose invariant is in the context. *)
Ltac inv_field :=
  simpl; intros;
  repeat match goal with
         | H : Some _ = Some _ |- _ => injection H as H; try subst
         | H : Some _ = None |- _ => discriminate H
         | H : None = Some _ |- _ => discriminate H
         | H : true = false |- _ => discriminate H
         | H : false = true |- _ => discriminate H
         end;
  rewrite ?length_app, ?length_insert; simpl;
  first [ done | congruence | lia | by eauto
        | by (exfalso; eauto)
        | match goal with
          | H : forall x, _ = Some x -> (_ < _)%nat |- (_ < _)%nat =>
              eapply Nat.lt_le_trans; [by eapply H | lia]
          end
        | by (rewrite ?Forall_app; repeat split; try done;
              repeat match goal with
                     | |- context [match ?x with _ => _ end] => destruct x
                     end;
              repeat constructor; done)
        | idtac ].

Ltac inv_intro Hinv :=
  unfold child_updated, orphaned, checks_cancelled, call_started, checks_started,
    channel_updated, settings_updated, serverlist_installed, emit in *;
  simpl in *;
  destruct Hinv; constructor; inv_field.

Lemma Inv_make authority timeout backoff : Inv (make authority timeout backoff).
Proof. constructor; inv_field. Qed.

Lemma Inv_emit st e : Inv st -> effect_ok e -> Inv (emit e st).
Proof. intros Hinv He. inv_intro Hinv. Qed.

(** *** CreateOrUpdateChildPolicyLocked *)

Lemma CreateOrUpdateChildPolicyLocked_shutting_down st :
  shutting_down_ st = true -> CreateOrUpdateChildPolicyLocked st = Some st.
Proof. unfold CreateOrUpdateChildPolicyLocked. by intros ->. Qed.

Lemma child_args_nonempty st b :
  CreateChildPolicyArgsLocked st b <> ChannelArgs.empty.
Proof.
  unfold CreateChildPolicyArgsLocked, ChannelArgs.Set_, ChannelArgs.empty.
  destruct b; apply insert_non_empty.
Qed.

Lemma child_updated_eq st u :
  emit (ChildUpdateLocked u)
       (if child_policy_ st then st
        else set_child_policy_ true (emit ChildPolicyCreate st))
  = child_updated u st.
Proof.
  unfold child_updated, emit. destruct st as [? ? ? ? ? ? ? ? ? ? ? ? ? ? ? cp ? ? ? ?].
  destruct cp; simpl; unfold set_child_policy_, set_effects; simpl;
    [done | by rewrite <- app_assoc].
Qed.

Lemma CreateOrUpdateChildPolicyLocked_inv st st' :
  CreateOrUpdateChildPolicyLocked st = Some st' ->
  st' = st /\ shutting_down_ st = true
  \/ shutting_down_ st = false
     /\ config_ st <> None
     /\ exists u, update_addresses_of st u /\ st' = child_updated u st.
Proof.
  unfold CreateOrUpdateChildPolicyLocked, update_addresses_of, fallback_update.
  destruct (shutting_down_ st) eqn:Hsd; [intros [= <-]; by left |].
  intros Hc. right. split; [done |].
  apply bind_Some in Hc as ([[addrs b] note] & Hsel & Hc).
  rewrite bool_decide_eq_false_2 in Hc by apply child_args_nonempty.
  apply bind_Some in Hc as (config & Hcfg & [= <-]).
  split; [by rewrite Hcfg |].
  eexists. split; [| apply child_updated_eq]. simpl.
  destruct (fallback_mode_ st).
  - destruct (fallback_backend_addresses_ st); by injection Hsel as <- <- <-.
  - apply bind_Some in Hsel as (p & Hp & Hsel).
    apply bind_Some in Hsel as (sl & Hsl & Hsel).
    apply bind_Some in Hsel as (cs & Hcs & [= <- <- <-]).
    by exists p, sl, cs.
Qed.

Lemma lb_calld_client_stats_is_Some st :
  Inv st -> is_Some (lb_calld_client_stats st).
Proof.
  intros Hinv. unfold lb_calld_client_stats.
  destruct (lb_calld_ st) as [calld |] eqn:Hc; [| eauto].
  destruct (lookup_lt_is_Some_2 _ _ (inv_calld_live st Hinv calld Hc)) as [c Hl].
  simpl. rewrite Hl. simpl. eauto.
Qed.

Lemma CreateOrUpdateChildPolicyLocked_total st :
  Inv st ->
  shutting_down_ st = false ->
  config_ st <> None ->
  (fallback_mode_ st = false -> serverlist_ st <> None) ->
  is_Some (CreateOrUpdateChildPolicyLocked st).
Proof.
  intros Hinv Hsd Hcfg Hsl.
  destruct (lb_calld_client_stats_is_Some st Hinv) as [cs Hcs].
  destruct (config_ st) as [config |] eqn:Hc; [| done].
  unfold CreateOrUpdateChildPolicyLocked. rewrite Hsd.
  destruct (fallback_mode_ st).
  - destruct (fallback_backend_addresses_ st); simpl;
      rewrite bool_decide_eq_false_2 by apply child_args_nonempty;
      rewrite Hc; simpl; eauto.
  - destruct (serverlist_ st) as [p |] eqn:Hp; [| by destruct Hsl].
    destruct (lookup_lt_is_Some_2 _ _ (inv_serverlist_live st Hinv p Hp)) as [sl Hl].
    simpl. rewrite Hl. simpl. rewrite Hcs. simpl.
    rewrite bool_decide_eq_false_2 by apply child_args_nonempty.
    rewrite Hc. simpl. eauto.
Qed.

Lemma update_addresses_ok st u : Inv st -> update_addresses_of st u -> update_ok u.
Proof.
  intros Hinv. unfold update_addresses_of, fallback_update, update_ok.
  destruct (fallback_mode_ st).
  - destruct (fallback_backend_addresses_ st) as [it |] eqn:Hfb; intros ->; [| done].
    by apply (inv_fallback_iterator st Hinv).
  - by intros (p & sl & cs & _ & _ & _ & ->).
Qed.

Lemma CreateOrUpdateChildPolicyLocked_Inv st st' :
  Inv st -> CreateOrUpdateChildPolicyLocked st = Some st' -> Inv st'.
Proof.
  intros Hinv Hc.
  apply CreateOrUpdateChildPolicyLocked_inv in Hc
    as [[-> _] | (Hsd & Hcfg & u & Hu & ->)]; [done |].
  pose proof (update_addresses_ok st u Hinv Hu) as Hok.
  unfold update_addresses_of in Hu.
  destruct (fallback_mode_ st) eqn:Hfm;
    try destruct Hu as (p & sl & cs & Hp & _);
    inv_intro Hinv.
  all: rewrite !Forall_app; repeat split; try done;
    destruct (child_policy_ st); by repeat constructor.
Qed.

(** *** The smaller steps *)

Lemma cancel_fallback_at_startup_checks_inv st st' :
  cancel_fallback_at_startup_checks st = Some st' ->
  exists handle,
    lb_fallback_timer_handle_ st = Some handle
    /\ lb_channel_ st <> None
    /\ st' = checks_cancelled handle st.
Proof.
  unfold cancel_fallback_at_startup_checks, CancelFallbackTimer,
    CancelBalancerChannelConnectivityWatchLocked.
  intros Hc. apply bind_Some in Hc as (st1 & Hc1 & Hc).
  apply bind_Some in Hc1 as (handle & Hh & [= <-]). simpl in *.
  exists handle. destruct (lb_channel_ st) eqn:Hch; [| done].
  by injection Hc as <-.
Qed.

Lemma cancel_fallback_at_startup_checks_total st :
  lb_fallback_timer_handle_ st <> None -> lb_channel_ st <> None ->
  exists handle,
    lb_fallback_timer_handle_ st = Some handle
    /\ cancel_fallback_at_startup_checks st = Some (checks_cancelled handle st).
Proof.
  intros Hh Hch.
  destruct (lb_fallback_timer_handle_ st) as [handle |] eqn:Eh; [| done].
  destruct (lb_channel_ st) as [ch |] eqn:Ech; [| done].
  exists handle. split; [done |].
  unfold cancel_fallback_at_startup_checks, CancelFallbackTimer,
    CancelBalancerChannelConnectivityWatchLocked.
  simpl. rewrite Eh. simpl. by rewrite Ech.
Qed.

Lemma Inv_checks_cancelled st handle : Inv st -> Inv (checks_cancelled handle st).
Proof. intros Hinv. inv_intro Hinv. Qed.

Lemma orphaned_eq st calld c :
  set_lb_calld_ None
    match BalancerCallState.client_load_report_handle_ c with
    | Some handle => emit (TimerCancel handle) (emit (CallCancel calld) st)
    | None => emit (CallCancel calld) st
    end
  = orphaned calld c st.
Proof.
  unfold orphaned, emit.
  destruct (BalancerCallState.client_load_report_handle_ c); simpl;
    unfold set_lb_calld_, set_effects; simpl; [by rewrite <- app_assoc | done].
Qed.

Lemma reset_lb_calld_inv st st' :
  reset_lb_calld st = Some st' ->
  lb_calld_ st = None /\ st' = st
  \/ exists calld c,
       lb_calld_ st = Some calld /\ calls st !! calld = Some c
       /\ st' = orphaned calld c st.
Proof.
  unfold reset_lb_calld.
  destruct (lb_calld_ st) as [calld |]; [| intros [= <-]; by left].
  intros Hc. apply bind_Some in Hc as (c & Hl & [= <-]).
  right. exists calld, c. by rewrite <- orphaned_eq.
Qed.

Lemma reset_lb_calld_current st calld c :
  lb_calld_ st = Some calld -> calls st !! calld = Some c ->
  reset_lb_calld st = Some (orphaned calld c st).
Proof.
  intros Hc Hl. unfold reset_lb_calld. rewrite Hc, Hl. simpl.
  by rewrite <- orphaned_eq.
Qed.

Lemma StartBalancerCallLocked_inv st st' :
  StartBalancerCallLocked st = Some st' ->
  lb_channel_ st <> None
  /\ (shutting_down_ st = true /\ st' = st
      \/ shutting_down_ st = false /\ lb_calld_ st = None
         /\ st' = call_started st).
Proof.
  unfold StartBalancerCallLocked.
  destruct (lb_channel_ st); [| done]. intros Hs. split; [done |]. revert Hs.
  destruct (shutting_down_ st); [intros [= <-]; by left |].
  destruct (lb_calld_ st); [done |]. intros [= <-]. by right.
Qed.

Lemma StartBalancerCallLocked_fresh st :
  lb_channel_ st <> None -> shutting_down_ st = false -> lb_calld_ st = None ->
  StartBalancerCallLocked st = Some (call_started st).
Proof.
  intros Hch Hsd Hc. unfold StartBalancerCallLocked.
  destruct (lb_channel_ st); [| done]. by rewrite Hsd, Hc.
Qed.

Lemma lookup_fresh_call (l : list BalancerCallState.t) c :
  (l ++ [BalancerCallState.make]) !! length l = Some c -> c = BalancerCallState.make.
Proof.
  rewrite lookup_app_r by lia.
  replace (length l - length l)%nat with O by lia. by intros [= <-].
Qed.

Lemma Inv_call_started st :
  Inv st -> lb_channel_ st <> None -> shutting_down_ st = false ->
  (fallback_at_startup_checks_pending_ st = true -> serverlist_ st = None) ->
  Inv (call_started st).
Proof.
  intros Hinv Hch Hsd Hsl. inv_intro Hinv.
  match goal with H : _ !! _ = Some _ |- _ => apply lookup_fresh_call in H as -> end.
  done.
Qed.

Lemma MaybeEnterFallbackModeAfterStartup_inv st st' :
  MaybeEnterFallbackModeAfterStartup st = Some st' ->
  (post_startup_fallback_due st
   /\ CreateOrUpdateChildPolicyLocked (set_fallback_mode_ true st) = Some st')
  \/ (~ post_startup_fallback_due st /\ st' = st).
Proof.
  unfold MaybeEnterFallbackModeAfterStartup, post_startup_fallback_due.
  destruct (fallback_mode_ st) eqn:Hfm; simpl;
    [intros [= <-]; right; split; [intros (? & _); done | done] |].
  destruct (fallback_at_startup_checks_pending_ st) eqn:Hp; simpl;
    [intros [= <-]; right; split; [intros (_ & ? & _); done | done] |].
  intros Hm. apply bind_Some in Hm as (seen & Hseen & Hm).
  destruct (lb_calld_ st) as [calld |] eqn:Hc.
  - apply bind_Some in Hseen as (c & Hl & [= <-]).
    destruct (BalancerCallState.seen_serverlist c) eqn:Hs; simpl in Hm.
    { injection Hm as <-. right. split; [| done].
      intros (_ & _ & [? | (calld' & c' & [= <-] & Hl' & Hs')] & _); [done |].
      rewrite Hl in Hl'. injection Hl' as <-. congruence. }
    destruct (child_policy_ready_ st) eqn:Hr; simpl in Hm.
    { injection Hm as <-. right. split; [intros (_ & _ & _ & ?); done | done]. }
    left. split; [| done]. repeat split. right. eauto.
  - injection Hseen as <-. simpl in Hm.
    destruct (child_policy_ready_ st) eqn:Hr; simpl in Hm.
    { injection Hm as <-. right. split; [intros (_ & _ & _ & ?); done | done]. }
    left. split; [| done]. repeat split. by left.
Qed.

Lemma Inv_set_fallback_mode_true st : Inv st -> Inv (set_fallback_mode_ true st).
Proof. intros Hinv. inv_intro Hinv. Qed.

Lemma MaybeEnterFallbackModeAfterStartup_Inv st st' :
  Inv st -> MaybeEnterFallbackModeAfterStartup st = Some st' -> Inv st'.
Proof.
  intros Hinv Hm.
  apply MaybeEnterFallbackModeAfterStartup_inv in Hm as [[_ Hc] | [_ ->]]; [| done].
  eapply CreateOrUpdateChildPolicyLocked_Inv; [| exact Hc].
  by apply Inv_set_fallback_mode_true.
Qed.

(** *** The handlers keep the invariant *)

Lemma OnFallbackTimerLocked_inv st st' :
  OnFallbackTimerLocked st = Some st' ->
  (fallback_at_startup_checks_pending_ st = true /\ shutting_down_ st = false
   /\ lb_channel_ st <> None
   /\ CreateOrUpdateChildPolicyLocked
        (set_fallback_mode_ true
           (emit RemoveConnectivityWatcher
              (set_fallback_at_startup_checks_pending_ false st))) = Some st')
  \/ ((fallback_at_startup_checks_pending_ st = false \/ shutting_down_ st = true)
      /\ st' = st).
Proof.
  unfold OnFallbackTimerLocked, CancelBalancerChannelConnectivityWatchLocked.
  destruct (fallback_at_startup_checks_pending_ st) eqn:Hp; simpl;
    [| intros [= <-]; right; auto].
  destruct (shutting_down_ st) eqn:Hsd; simpl; [intros [= <-]; right; auto |].
  destruct (lb_channel_ st) eqn:Hch; simpl; [| done].
  intros Hc. left. done.
Qed.

Lemma OnFallbackTimerLocked_Inv st st' :
  Inv st -> OnFallbackTimerLocked st = Some st' -> Inv st'.
Proof.
  intros Hinv Ht.
  apply OnFallbackTimerLocked_inv in Ht as [(Hp & Hsd & Hch & Hc) | [_ ->]]; [| done].
  eapply CreateOrUpdateChildPolicyLocked_Inv; [| exact Hc]. inv_intro Hinv.
Qed.

Lemma StateWatcher_OnConnectivityStateChange_Inv st new_state st' :
  Inv st -> StateWatcher_OnConnectivityStateChange st new_state = Some st' -> Inv st'.
Proof.
  intros Hinv. unfold StateWatcher_OnConnectivityStateChange.
  destruct (fallback_at_startup_checks_pending_ st && is_TRANSIENT_FAILURE new_state);
    [| by intros [= <-]].
  intros Hw. apply bind_Some in Hw as (st1 & H1 & Hw).
  apply bind_Some in Hw as (st2 & H2 & Hw).
  unfold CancelFallbackTimer in H1. simpl in H1.
  apply bind_Some in H1 as (handle & Hh & [= <-]).
  unfold CancelBalancerChannelConnectivityWatchLocked in Hw.
  destruct (lb_channel_ st2); [| done]. injection Hw as <-.
  apply Inv_emit; [| done]. eapply CreateOrUpdateChildPolicyLocked_Inv; [| exact H2].
  inv_intro Hinv.
Qed.

Lemma Helper_UpdateState_Inv st state status picker st' :
  Inv st -> Helper_UpdateState st state status picker = Some st' -> Inv st'.
Proof.
  intros Hinv. unfold Helper_UpdateState.
  destruct (shutting_down_ st); [by intros [= <-] |].
  intros Hu. apply bind_Some in Hu as (st2 & Hm & Hu).
  apply bind_Some in Hu as (all_drops & _ & Hu).
  apply bind_Some in Hu as (cs & _ & [= <-]).
  apply Inv_emit; [| done]. eapply MaybeEnterFallbackModeAfterStartup_Inv; [| exact Hm].
  inv_intro Hinv.
Qed.

Lemma Helper_RequestReresolution_Inv st :
  Inv st -> Inv (Helper_RequestReresolution st).
Proof.
  intros Hinv. unfold Helper_RequestReresolution.
  destruct (shutting_down_ st); [done |].
  destruct (fallback_mode_ st); simpl; [by apply Inv_emit | done].
Qed.

Lemma OnBalancerCallRetryTimerLocked_Inv st st' :
  Inv st -> OnBalancerCallRetryTimerLocked st = Some st' -> Inv st'.
Proof.
  intros Hinv. unfold OnBalancerCallRetryTimerLocked.
  assert (Hinv1 : Inv (set_lb_call_retry_timer_handle_ None st)) by inv_intro Hinv.
  destruct (negb _ && _) eqn:Hcond; [| by intros [= <-]].
  intros Hs. apply StartBalancerCallLocked_inv in Hs
    as (Hch & [[_ ->] | (Hsd & Hc & ->)]); [done |].
  apply Inv_call_started; try done.
  simpl in *. intros Hp.
  destruct (inv_pending_calld st Hinv Hp Hsd Hc).
Qed.

Lemma Inv_shutting_down st :
  Inv st -> lb_calld_ st = None -> Inv (set_shutting_down_ true st).
Proof. intros Hinv Hc. inv_intro Hinv. Qed.

Lemma Inv_orphaned_shutting_down st calld c :
  Inv st -> Inv (orphaned calld c (set_shutting_down_ true st)).
Proof. intros Hinv. inv_intro Hinv. Qed.

Lemma Inv_child_reset st :
  Inv st -> Inv (set_child_policy_ false (emit ChildPolicyReset st)).
Proof. intros Hinv. inv_intro Hinv. Qed.

Lemma Inv_channel_reset st :
  Inv st -> lb_calld_ st = None -> shutting_down_ st = true ->
  fallback_at_startup_checks_pending_ st = false ->
  Inv (set_lb_channel_ None (emit ChannelReset st)).
Proof. intros Hinv Hc Hsd Hp. inv_intro Hinv. Qed.

(** What shutdown leaves: no balancer call, no pending checks. *)
Lemma ShutdownLocked_inv st st' :
  Inv st -> ShutdownLocked st = Some st' ->
  Inv st' /\ shutting_down_ st' = true /\ lb_calld_ st' = None
  /\ fallback_at_startup_checks_pending_ st' = false /\ lb_channel_ st' = None.
Proof.
  intros Hinv. unfold ShutdownLocked.
  intros Hs. apply bind_Some in Hs as (st1 & H1 & Hs).
  apply bind_Some in Hs as (st3 & H3 & [= <-]).
  assert (Inv st1 /\ shutting_down_ st1 = true /\ lb_calld_ st1 = None) as (I1 & Hsd1 & Hc1).
  { apply reset_lb_calld_inv in H1 as [[Hc ->] | (calld & c & Hc & Hl & ->)].
    - split; [by apply Inv_shutting_down | done].
    - split; [by apply Inv_orphaned_shutting_down | done]. }
  set (st2 := match lb_call_retry_timer_handle_ st1 with
              | Some handle => emit (TimerCancel handle) st1
              | None => st1
              end) in *.
  assert (Inv st2 /\ shutting_down_ st2 = true /\ lb_calld_ st2 = None) as (I2 & Hsd2 & Hc2).
  { unfold st2. destruct (lb_call_retry_timer_handle_ st1); [| done].
    split; [by apply Inv_emit | done]. }
  clearbody st2.
  assert (Inv st3 /\ shutting_down_ st3 = true /\ lb_calld_ st3 = None
          /\ fallback_at_startup_checks_pending_ st3 = false) as (I3 & Hsd3 & Hc3 & Hp3).
  { destruct (fallback_at_startup_checks_pending_ st2) eqn:Hp.
    - apply cancel_fallback_at_startup_checks_inv in H3 as (handle & _ & _ & ->).
      split; [by apply Inv_checks_cancelled | done].
    - by injection H3 as <-. }
  set (st4 := if child_policy_ st3
              then set_child_policy_ false (emit ChildPolicyReset st3)
              else st3) in *.
  assert (Inv st4 /\ shutting_down_ st4 = true /\ lb_calld_ st4 = None
          /\ fallback_at_startup_checks_pending_ st4 = false) as (I4 & Hsd4 & Hc4 & Hp4).
  { unfold st4. destruct (child_policy_ st3); [| done].
    split; [by apply Inv_child_reset | done]. }
  clearbody st4.
  destruct (lb_channel_ st4) eqn:Hch; [| done].
  split; [by apply Inv_channel_reset | done].
Qed.

(** *** Update *)

Lemma UpdateBalancerChannelLocked_eq st :
  UpdateBalancerChannelLocked st
  = (match ExtractBalancerAddresses (args_ st) with
     | [] => UnavailableError "balancer address list must be non-empty"
     | _ => OkStatus
     end, channel_updated st).
Proof.
  unfold UpdateBalancerChannelLocked, channel_updated, emit. f_equal.
  destruct st as [? ? ? ? ch ? ? ? ? ? ? ? ? ? ? ? ? ? ? ?]. simpl.
  destruct ch; simpl; unfold set_effects, set_lb_channel_; simpl;
    [done | by rewrite <- app_assoc].
Qed.

Lemma UpdateLocked_inv st a status st' :
  UpdateLocked st a = Some (status, st') ->
  exists config st5,
    UpdateArgs.config a = Some config
    /\ status = update_status a
    /\ (if child_policy_ st
        then CreateOrUpdateChildPolicyLocked
               (channel_updated (settings_updated a config st)) = Some st5
        else st5 = channel_updated (settings_updated a config st))
    /\ (if bool_decide (lb_channel_ st = None)
        then StartBalancerCallLocked (checks_started st5) = Some st'
        else st' = st5).
Proof.
  unfold UpdateLocked.
  destruct (UpdateArgs.config a) as [config |]; [| done].
  fold (settings_updated a config st).
  rewrite UpdateBalancerChannelLocked_eq.
  intros Hu. apply bind_Some in Hu as (st5 & H5 & Hu).
  apply bind_Some in Hu as (st6 & H6 & [= <- <-]).
  exists config, st5. split; [done |]. split; [done |].
  simpl in H5. split.
  - destruct (child_policy_ st); [done | by injection H5 as <-].
  - destruct (bool_decide (lb_channel_ st = None)); [done | by injection H6 as <-].
Qed.

Lemma Inv_channel_updated st a config :
  Inv st -> Inv (channel_updated (settings_updated a config st)).
Proof.
  intros Hinv. inv_intro Hinv.
  match goal with
  | H : match ?x with _ => _ end = IsOk _ |- _ => destruct x; by simplify_eq
  end.
Qed.

Lemma Inv_initial_start st :
  Inv st -> lb_channel_ st <> None -> lb_calld_ st = None ->
  (shutting_down_ st = false -> serverlist_ st = None) ->
  forall st', StartBalancerCallLocked (checks_started st) = Some st' -> Inv st'.
Proof.
  intros Hinv Hch Hc Hsl st' Hs.
  apply StartBalancerCallLocked_inv in Hs as (_ & [[Hsd ->] | (Hsd & _ & ->)]).
  - inv_intro Hinv.
  - inv_intro Hinv.
    match goal with H : _ !! _ = Some _ |- _ => apply lookup_fresh_call in H as -> end.
    done.
Qed.

Lemma UpdateLocked_Inv st a status st' :
  Inv st -> UpdateLocked st a = Some (status, st') -> Inv st'.
Proof.
  intros Hinv Hu.
  apply UpdateLocked_inv in Hu as (config & st5 & Hcfg & _ & H5 & H6).
  pose proof (Inv_channel_updated st a config Hinv) as I4.
  set (st4 := channel_updated (settings_updated a config st)) in *.
  assert (Inv st5 /\ lb_calld_ st5 = lb_calld_ st /\ lb_channel_ st5 <> None
          /\ shutting_down_ st5 = shutting_down_ st
          /\ serverlist_ st5 = serverlist_ st) as (I5 & Hc5 & Hch5 & Hsd5 & Hsl5).
  { destruct (child_policy_ st).
    - split; [by eapply CreateOrUpdateChildPolicyLocked_Inv |].
      apply CreateOrUpdateChildPolicyLocked_inv in H5
        as [[-> _] | (_ & _ & u & _ & ->)]; done.
    - by subst st5. }
  case_bool_decide as Hinit; [| by subst st'].
  eapply Inv_initial_start; [exact I5 | exact Hch5 | | | exact H6].
  - rewrite Hc5. destruct (lb_calld_ st) as [calld |] eqn:Hc; [| done].
    destruct (inv_calld_channel st Hinv calld Hc Hinit).
  - rewrite Hsd5, Hsl5. by apply inv_no_channel_no_serverlist.
Qed.

(** *** The end of the balancer call *)

Lemma Inv_orphaned st calld c :
  Inv st -> fallback_at_startup_checks_pending_ st = false ->
  Inv (orphaned calld c st).
Proof. intros Hinv Hp. inv_intro Hinv. Qed.

Lemma Inv_orphaned_checks_cancelled st calld c handle :
  Inv st ->
  Inv (set_fallback_mode_ true (checks_cancelled handle (orphaned calld c st))).
Proof. intros Hinv. inv_intro Hinv. Qed.

(** The policy after the retry timer is armed. *)
Lemma StartBalancerCallRetryTimerLocked_eq st :
  StartBalancerCallRetryTimerLocked st
  = set_lb_call_retry_timer_handle_ (Some (length (effects st)))
      (emit (TimerRunAfter BalancerCallRetryTimer
               (fst (BackOff_NextAttemptDelay (lb_call_backoff_ st))))
         (set_lb_call_backoff_ (snd (BackOff_NextAttemptDelay (lb_call_backoff_ st)))
            st)).
Proof.
  unfold StartBalancerCallRetryTimerLocked, RunAfter.
  by destruct (BackOff_NextAttemptDelay (lb_call_backoff_ st)).
Qed.

Lemma Inv_retry_timer st : Inv st -> Inv (StartBalancerCallRetryTimerLocked st).
Proof.
  intros Hinv. rewrite StartBalancerCallRetryTimerLocked_eq. inv_intro Hinv.
Qed.

(** The status handler on the current call, step by step. *)
Lemma OnBalancerStatusReceivedLocked_inv st this st' :
  lb_calld_ st = Some this ->
  OnBalancerStatusReceivedLocked st this = Some st' ->
  exists calld st2,
    calls st !! this = Some calld
    /\ (if fallback_at_startup_checks_pending_ st then
          BalancerCallState.seen_serverlist_ calld = false
          /\ exists handle,
               lb_fallback_timer_handle_ st = Some handle
               /\ CreateOrUpdateChildPolicyLocked
                    (set_fallback_mode_ true
                       (checks_cancelled handle (orphaned this calld st))) = Some st2
        else MaybeEnterFallbackModeAfterStartup (orphaned this calld st) = Some st2)
    /\ shutting_down_ st2 = false
    /\ (if BalancerCallState.seen_initial_response_ calld
        then StartBalancerCallLocked
               (set_lb_call_backoff_ (BackOff_Reset (lb_call_backoff_ st2))
                  (emit ParentRequestReresolution st2)) = Some st'
        else st' = StartBalancerCallRetryTimerLocked
                     (emit ParentRequestReresolution st2)).
Proof.
  intros Hcur. unfold OnBalancerStatusReceivedLocked.
  rewrite bool_decide_eq_true_2 by done.
  intros Hs. apply bind_Some in Hs as (calld & Hl & Hs).
  rewrite (reset_lb_calld_current st this calld Hcur Hl) in Hs. simpl in Hs.
  apply bind_Some in Hs as (st2 & H2 & Hs).
  exists calld, st2. split; [done |].
  destruct (shutting_down_ st2) eqn:Hsd2; [done |].
  split; [| split; [done |]].
  - destruct (fallback_at_startup_checks_pending_ st) eqn:Hp; [| done].
    destruct (BalancerCallState.seen_serverlist_ calld); [done |].
    split; [done |].
    apply bind_Some in H2 as (st1 & H1 & H2).
    apply cancel_fallback_at_startup_checks_inv in H1 as (handle & Hh & _ & ->).
    exists handle. done.
  - destruct (BalancerCallState.seen_initial_response_ calld); [done |].
    by injection Hs as <-.
Qed.

Lemma OnBalancerStatusReceivedLocked_Inv st this st' :
  Inv st -> OnBalancerStatusReceivedLocked st this = Some st' -> Inv st'.
Proof.
  intros Hinv Hs.
  destruct (decide (lb_calld_ st = Some this)) as [Hcur | Hother].
  2: { unfold OnBalancerStatusReceivedLocked in Hs.
       rewrite bool_decide_eq_false_2 in Hs by done. by injection Hs as <-. }
  apply OnBalancerStatusReceivedLocked_inv in Hs
    as (calld & st2 & Hl & H2 & Hsd2 & Hs); [| done].
  assert (Inv st2 /\ lb_calld_ st2 = None
          /\ fallback_at_startup_checks_pending_ st2 = false
          /\ lb_channel_ st2 <> None) as (I2 & Hc2 & Hp2 & Hch2).
  { pose proof (inv_calld_channel st Hinv this Hcur) as Hch.
    destruct (fallback_at_startup_checks_pending_ st) eqn:Hp.
    - destruct H2 as (_ & handle & Hh & H2).
      split; [eapply CreateOrUpdateChildPolicyLocked_Inv;
              [apply Inv_orphaned_checks_cancelled, Hinv | exact H2] |].
      apply CreateOrUpdateChildPolicyLocked_inv in H2
        as [[-> _] | (_ & _ & u & _ & ->)]; done.
    - split; [eapply MaybeEnterFallbackModeAfterStartup_Inv;
              [by apply Inv_orphaned | exact H2] |].
      apply MaybeEnterFallbackModeAfterStartup_inv in H2 as [[_ H2] | [_ ->]]; [| done].
      apply CreateOrUpdateChildPolicyLocked_inv in H2
        as [[-> _] | (_ & _ & u & _ & ->)]; done. }
  destruct (BalancerCallState.seen_initial_response_ calld).
  - apply StartBalancerCallLocked_inv in Hs as (_ & [[_ ->] | (_ & _ & ->)]).
    + inv_intro I2.
    + apply Inv_call_started; try done; [inv_intro I2 |].
      simpl. congruence.
  - subst st'. by apply Inv_retry_timer, Inv_emit.
Qed.

(** *** Messages of the balancer *)

Lemma start_client_load_reporting_cases st this calld :
  start_client_load_reporting st this calld = (calld, st)
  \/ start_client_load_reporting st this calld
     = (BalancerCallState.set_client_load_report_handle_ (Some (length (effects st)))
          (BalancerCallState.set_client_stats_ (Some (length (stats (heap st)))) calld),
        emit (TimerRunAfter (ClientLoadReportTimer this)
                (BalancerCallState.client_stats_report_interval_ calld))
          (set_heap (set_stats (stats (heap st) ++ [GrpcLbClientStats.make]) (heap st))
                    st)).
Proof.
  unfold start_client_load_reporting.
  destruct (_ && _); [by right | by left].
Qed.

(** What noting a serverlist changes: the state of the call, which has
    now seen a serverlist, the stats store and the log. *)
Lemma serverlist_noted_cases st this calld :
  exists c2 stats' effects',
    BalancerCallState.seen_serverlist_ c2 = true
    /\ BalancerCallState.seen_initial_response_ c2
       = BalancerCallState.seen_initial_response_ calld
    /\ serverlist_noted st this calld
       = set_calls (<[this := c2]> (calls st))
           (set_effects (effects st ++ effects')
              (set_heap (set_stats stats' (heap st)) st))
    /\ Forall effect_ok effects'.
Proof.
  unfold serverlist_noted.
  destruct (start_client_load_reporting_cases st this
              (BalancerCallState.set_seen_serverlist_ true calld)) as [-> | ->]; simpl.
  - exists (BalancerCallState.set_seen_serverlist_ true calld), (stats (heap st)), [].
    split; [done |]. split; [done |]. split; [| done].
    destruct st as [? ? ? ? ? ? ? ? ? ? ? ? ? ? ? ? ? ? [? ?] ?]. simpl.
    unfold set_calls, set_effects, set_heap. simpl. by rewrite app_nil_r.
  - exists (BalancerCallState.set_client_load_report_handle_ (Some (length (effects st)))
              (BalancerCallState.set_client_stats_ (Some (length (stats (heap st))))
                 (BalancerCallState.set_seen_serverlist_ true calld))),
           (stats (heap st) ++ [GrpcLbClientStats.make]),
           [TimerRunAfter (ClientLoadReportTimer this)
              (BalancerCallState.client_stats_report_interval_ calld)].
    split; [done |]. split; [done |]. split; [done |]. by repeat constructor.
Qed.

Lemma on_serverlist_eq st this calld response :
  on_serverlist st this calld response
  = identical ← identical_to_current (serverlist_noted st this calld)
                  (Serverlist.make (serverlist response));
    if identical : bool then Some (serverlist_noted st this calld)
    else install_serverlist (serverlist_noted st this calld)
           (Serverlist.make (serverlist response)).
Proof.
  unfold on_serverlist, serverlist_noted.
  by destruct (start_client_load_reporting st this _).
Qed.

Lemma clear_fallback_mode_eq st :
  (if fallback_mode_ st then set_fallback_mode_ false st else st)
  = set_fallback_mode_ false st.
Proof.
  destruct st as [? ? ? ? ? ? ? ? ? fm ? ? ? ? ? ? ? ? ? ?]. by destruct fm.
Qed.

Lemma install_serverlist_inv st w st' :
  install_serverlist st w = Some st' ->
  exists st2,
    (if fallback_at_startup_checks_pending_ st
     then exists handle,
            lb_fallback_timer_handle_ st = Some handle
            /\ st2 = checks_cancelled handle (set_fallback_mode_ false st)
     else st2 = set_fallback_mode_ false st)
    /\ CreateOrUpdateChildPolicyLocked (serverlist_installed w st2) = Some st'.
Proof.
  unfold install_serverlist. rewrite clear_fallback_mode_eq. simpl.
  intros Hi. apply bind_Some in Hi as (st2 & H2 & Hi).
  exists st2. split; [| done].
  destruct (fallback_at_startup_checks_pending_ st); [| by injection H2 as <-].
  apply cancel_fallback_at_startup_checks_inv in H2 as (handle & Hh & _ & ->).
  by exists handle.
Qed.

Lemma lookup_insert_current (l : list BalancerCallState.t) i x c :
  <[i := x]> l !! i = Some c -> c = x.
Proof.
  intros Hl. apply list_lookup_insert_Some in Hl as [(_ & -> & _) | (? & _)]; done.
Qed.

Lemma Inv_on_initial st this calld response :
  Inv st -> lb_calld_ st = Some this -> calls st !! this = Some calld ->
  Inv (on_initial st this calld response).
Proof.
  intros Hinv Hcur Hl. unfold on_initial.
  destruct (negb _); inv_intro Hinv.
  all: match goal with
       | Hc : lb_calld_ _ = Some ?b, H : <[?a := _]> _ !! ?b = Some _ |- _ =>
           assert (b = a) by congruence; subst b;
           apply lookup_insert_current in H as ->
       end; simpl; eauto.
Qed.

Lemma Inv_serverlist_noted st this calld :
  Inv st -> fallback_at_startup_checks_pending_ st = false ->
  Inv (serverlist_noted st this calld).
Proof.
  intros Hinv Hp.
  destruct (serverlist_noted_cases st this calld) as (c2 & s' & e' & _ & _ & -> & He').
  inv_intro Hinv.
Qed.

Lemma Inv_serverlist_installed st this calld w (st2 : GrpcLb.t) :
  Inv st -> lb_calld_ st = Some this ->
  (if fallback_at_startup_checks_pending_ (serverlist_noted st this calld)
   then exists handle,
          lb_fallback_timer_handle_ (serverlist_noted st this calld) = Some handle
          /\ st2 = checks_cancelled handle
                     (set_fallback_mode_ false (serverlist_noted st this calld))
   else st2 = set_fallback_mode_ false (serverlist_noted st this calld)) ->
  Inv (serverlist_installed w st2).
Proof.
  intros Hinv Hcur.
  destruct (serverlist_noted_cases st this calld) as (c2 & s' & e' & _ & _ & -> & He').
  simpl. pose proof (inv_calld_channel st Hinv this Hcur) as Hch.
  destruct (fallback_at_startup_checks_pending_ st) eqn:Hp.
  - intros (handle & Hh & ->). inv_intro Hinv.
  - intros ->. inv_intro Hinv.
Qed.

Lemma identical_to_current_true st w :
  identical_to_current st w = Some true ->
  exists p current,
    serverlist_ st = Some p /\ serverlists (heap st) !! p = Some current
    /\ Serverlist.eq current w = true.
Proof.
  unfold identical_to_current.
  destruct (serverlist_ st) as [p |]; [| done].
  intros Hi. apply bind_Some in Hi as (current & Hl & [= He]). eauto.
Qed.

Lemma on_serverlist_Inv st this calld response st' :
  Inv st -> lb_calld_ st = Some this -> calls st !! this = Some calld ->
  on_serverlist st this calld response = Some st' -> Inv st'.
Proof.
  intros Hinv Hcur Hl. rewrite on_serverlist_eq.
  intros Hs. apply bind_Some in Hs as ([] & Hid & Hs).
  - injection Hs as <-.
    apply identical_to_current_true in Hid as (p & current & Hp & _).
    apply Inv_serverlist_noted; [done |].
    destruct (serverlist_noted_cases st this calld)
      as (c2 & s' & e' & _ & _ & Heq & _).
    rewrite Heq in Hp. simpl in Hp.
    destruct (fallback_at_startup_checks_pending_ st) eqn:Hpend; [| done].
    rewrite (inv_pending_no_serverlist st Hinv Hpend) in Hp; [done | congruence].
  - apply install_serverlist_inv in Hs as (st2 & H2 & Hc).
    eapply CreateOrUpdateChildPolicyLocked_Inv; [| exact Hc].
    by eapply Inv_serverlist_installed.
Qed.

Lemma on_fallback_inv st st' :
  on_fallback st = Some st' ->
  fallback_mode_ st = true /\ st' = st
  \/ fallback_mode_ st = false
     /\ exists st1 st2,
          (if fallback_at_startup_checks_pending_ st
           then exists handle,
                  lb_fallback_timer_handle_ st = Some handle
                  /\ st1 = checks_cancelled handle st
           else st1 = st)
          /\ CreateOrUpdateChildPolicyLocked (set_fallback_mode_ true st1) = Some st2
          /\ st' = set_serverlist_ None st2.
Proof.
  unfold on_fallback. destruct (fallback_mode_ st); simpl; [intros [= <-]; by left |].
  intros Hf. right. split; [done |].
  apply bind_Some in Hf as (st1 & H1 & Hf).
  apply bind_Some in Hf as (st2 & H2 & [= <-]).
  exists st1, st2. split; [| done].
  destruct (fallback_at_startup_checks_pending_ st); [| by injection H1 as <-].
  apply cancel_fallback_at_startup_checks_inv in H1 as (handle & Hh & _ & ->).
  by exists handle.
Qed.

Lemma Inv_serverlist_reset st :
  Inv st -> fallback_mode_ st = true -> Inv (set_serverlist_ None st).
Proof. intros Hinv Hfm. inv_intro Hinv. Qed.

Lemma on_fallback_Inv st st' : Inv st -> on_fallback st = Some st' -> Inv st'.
Proof.
  intros Hinv Hf.
  apply on_fallback_inv in Hf as [[_ ->] | (Hfm & st1 & st2 & H1 & H2 & ->)]; [done |].
  assert (I1 : Inv st1).
  { destruct (fallback_at_startup_checks_pending_ st).
    - destruct H1 as (handle & _ & ->). by apply Inv_checks_cancelled.
    - by subst st1. }
  apply Inv_serverlist_reset.
  - eapply CreateOrUpdateChildPolicyLocked_Inv; [| exact H2].
    by apply Inv_set_fallback_mode_true.
  - apply CreateOrUpdateChildPolicyLocked_inv in H2
      as [[-> _] | (_ & _ & u & _ & ->)]; done.
Qed.

(** The message handler on the current call: the case of the switch
    and then the next receive. *)
Lemma OnBalancerMessageReceivedLocked_inv st this payload st' :
  lb_calld_ st = Some this ->
  OnBalancerMessageReceivedLocked st this (Some payload) = Some st' ->
  exists calld st1,
    calls st !! this = Some calld
    /\ match GrpcLbResponseParse payload with
       | None => st1 = st
       | Some response =>
           match type response with
           | INITIAL =>
               st1 = if BalancerCallState.seen_initial_response_ calld then st
                     else on_initial st this calld response
           | SERVERLIST => on_serverlist st this calld response = Some st1
           | FALLBACK => on_fallback st = Some st1
           end
       end
    /\ st' = if shutting_down_ st1 then st1 else emit (CallRecvMessage this) st1.
Proof.
  intros Hcur. unfold OnBalancerMessageReceivedLocked.
  rewrite bool_decide_eq_true_2 by done.
  intros Hm. apply bind_Some in Hm as (calld & Hl & Hm).
  apply bind_Some in Hm as (st1 & H1 & Hm).
  exists calld, st1. split; [done |]. split.
  - destruct (GrpcLbResponseParse payload) as [response |]; [| by injection H1 as <-].
    destruct (type response); [| done | done].
    destruct (BalancerCallState.seen_initial_response_ calld); by injection H1 as <-.
  - destruct (shutting_down_ st1); by injection Hm as <-.
Qed.

Lemma OnBalancerMessageReceivedLocked_ignored st this payload :
  lb_calld_ st <> Some this \/ payload = None ->
  OnBalancerMessageReceivedLocked st this payload = Some st.
Proof.
  unfold OnBalancerMessageReceivedLocked. intros [Hc | ->].
  - rewrite bool_decide_eq_false_2 by done. by destruct payload.
  - by destruct (bool_decide _).
Qed.

Lemma OnBalancerMessageReceivedLocked_Inv st this payload st' :
  Inv st -> OnBalancerMessageReceivedLocked st this payload = Some st' -> Inv st'.
Proof.
  intros Hinv Hm.
  destruct (decide (lb_calld_ st = Some this)) as [Hcur | Hother].
  2: { rewrite OnBalancerMessageReceivedLocked_ignored in Hm by auto.
       by injection Hm as <-. }
  destruct payload as [payload |].
  2: { rewrite OnBalancerMessageReceivedLocked_ignored in Hm by auto.
       by injection Hm as <-. }
  apply OnBalancerMessageReceivedLocked_inv in Hm as (calld & st1 & Hl & H1 & ->);
    [| done].
  assert (I1 : Inv st1).
  { destruct (GrpcLbResponseParse payload) as [response |]; [| by subst st1].
    destruct (type response).
    - destruct (BalancerCallState.seen_initial_response_ calld); subst st1;
        [done | by apply Inv_on_initial].
    - by eapply on_serverlist_Inv.
    - by eapply on_fallback_Inv. }
  destruct (shutting_down_ st1); [done | by apply Inv_emit].
Qed.

(** *** Every reachable state satisfies the invariant *)

Lemma step_Inv ev st st' : Inv st -> step ev st = Some st' -> Inv st'.
Proof.
  intros Hinv. destruct ev; simpl.
  - intros Hu. apply bind_Some in Hu as ([status st1] & Hu & [= <-]).
    by eapply UpdateLocked_Inv.
  - intros Hs. by apply ShutdownLocked_inv in Hs as (? & _).
  - by apply OnBalancerMessageReceivedLocked_Inv.
  - by apply OnBalancerStatusReceivedLocked_Inv.
  - by apply OnFallbackTimerLocked_Inv.
  - by apply OnBalancerCallRetryTimerLocked_Inv.
  - by apply StateWatcher_OnConnectivityStateChange_Inv.
  - by apply Helper_UpdateState_Inv.
  - intros [= <-]. by apply Helper_RequestReresolution_Inv.
Qed.

Lemma run_Inv evs st st' : Inv st -> run evs st = Some st' -> Inv st'.
Proof.
  revert st. induction evs as [| ev evs IH]; intros st Hinv; simpl.
  - by intros [= <-].
  - intros Hr. apply bind_Some in Hr as (st1 & H1 & Hr).
    eapply IH; [| exact Hr]. by eapply step_Inv.
Qed.

Lemma reachable_Inv st : reachable st -> Inv st.
Proof.
  intros (authority & timeout & backoff & evs & Hr).
  eapply run_Inv; [| exact Hr]. apply Inv_make.
Qed.

Lemma run_app evs1 evs2 st :
  run (evs1 ++ evs2) st = st1 ← run evs1 st; run evs2 st1.
Proof.
  revert st. induction evs1 as [| ev evs1 IH]; intros st; simpl; [done |].
  destruct (step ev st) as [st1 |]; simpl; [apply IH | done].
Qed.

Lemma reachable_run evs st st' : reachable st -> run evs st = Some st' -> reachable st'.
Proof.
  intros (authority & timeout & backoff & evs0 & Hr) Hrun.
  exists authority, timeout, backoff, (evs0 ++ evs).
  rewrite run_app, Hr. exact Hrun.
Qed.

Lemma reachable_step ev st st' : reachable st -> step ev st = Some st' -> reachable st'.
Proof.
  intros Hr Hs. apply (reachable_run [ev] st st' Hr). simpl. by rewrite Hs.
Qed.

(** *** The handlers return *)

#[local] Arguments serverlist_noted : simpl never.

Lemma MaybeEnterFallbackModeAfterStartup_total st :
  Inv st -> shutting_down_ st = false -> config_ st <> None ->
  is_Some (MaybeEnterFallbackModeAfterStartup st).
Proof.
  intros Hinv Hsd Hcfg. unfold MaybeEnterFallbackModeAfterStartup.
  destruct (negb (fallback_mode_ st) && negb (fallback_at_startup_checks_pending_ st));
    [| eauto].
  assert (Hc : is_Some (CreateOrUpdateChildPolicyLocked (set_fallback_mode_ true st))).
  { apply CreateOrUpdateChildPolicyLocked_total; try done.
    by apply Inv_set_fallback_mode_true. }
  destruct (lb_calld_ st) as [calld |] eqn:Hcur; simpl.
  - destruct (lookup_lt_is_Some_2 _ _ (inv_calld_live st Hinv calld Hcur)) as [c Hl].
    rewrite Hl. simpl. destruct (negb _ && negb _); eauto.
  - destruct (negb (child_policy_ready_ st)); eauto.
Qed.

Lemma MaybeEnterFallbackModeAfterStartup_spec st :
  Inv st -> shutting_down_ st = false -> config_ st <> None ->
  (post_startup_fallback_due st ->
   exists u, fallback_update st u
             /\ MaybeEnterFallbackModeAfterStartup st
                = Some (child_updated u (set_fallback_mode_ true st)))
  /\ (~ post_startup_fallback_due st -> MaybeEnterFallbackModeAfterStartup st = Some st).
Proof.
  intros Hinv Hsd Hcfg.
  destruct (MaybeEnterFallbackModeAfterStartup_total st Hinv Hsd Hcfg) as [st' Hm].
  pose proof Hm as Hm'.
  apply MaybeEnterFallbackModeAfterStartup_inv in Hm' as [[Hdue Hc] | [Hn ->]].
  - split; [| done]. intros _.
    apply CreateOrUpdateChildPolicyLocked_inv in Hc
      as [[_ Hsd'] | (_ & _ & u & Hu & ->)]; [simpl in Hsd'; congruence |].
    exists u. split; [exact Hu | exact Hm].
  - split; [done |]. by intros _.
Qed.

Lemma identical_to_current_total st w :
  Inv st -> is_Some (identical_to_current st w).
Proof.
  intros Hinv. unfold identical_to_current.
  destruct (serverlist_ st) as [p |] eqn:Hp; [| eauto].
  destruct (lookup_lt_is_Some_2 _ _ (inv_serverlist_live st Hinv p Hp)) as [sl Hl].
  rewrite Hl. simpl. eauto.
Qed.

Lemma identical_to_current_noted st this calld w :
  identical_to_current (serverlist_noted st this calld) w = identical_to_current st w.
Proof.
  destruct (serverlist_noted_cases st this calld) as (c2 & s' & e' & _ & _ & -> & _).
  done.
Qed.

(** A new serverlist on the current call of a reachable policy is
    installed and handed to the child policy. *)
Lemma install_serverlist_total st this calld w :
  Inv st -> lb_calld_ st = Some this ->
  exists st2 u,
    (if fallback_at_startup_checks_pending_ st
     then exists handle,
            lb_fallback_timer_handle_ st = Some handle
            /\ st2 = checks_cancelled handle
                       (set_fallback_mode_ false (serverlist_noted st this calld))
     else st2 = set_fallback_mode_ false (serverlist_noted st this calld))
    /\ update_addresses_of (serverlist_installed w st2) u
    /\ install_serverlist (serverlist_noted st this calld) w
       = Some (child_updated u (serverlist_installed w st2)).
Proof.
  intros Hinv Hcur.
  pose proof (inv_calld_channel st Hinv this Hcur) as Hch.
  pose proof (inv_calld_not_shutting_down st Hinv this Hcur) as Hsd.
  pose proof (inv_channel_config st Hinv Hch) as Hcfg.
  assert (Hnoted : forall st2,
    (if fallback_at_startup_checks_pending_ (serverlist_noted st this calld)
     then exists handle,
            lb_fallback_timer_handle_ (serverlist_noted st this calld) = Some handle
            /\ st2 = checks_cancelled handle
                       (set_fallback_mode_ false (serverlist_noted st this calld))
     else st2 = set_fallback_mode_ false (serverlist_noted st this calld)) ->
    exists u, update_addresses_of (serverlist_installed w st2) u
      /\ CreateOrUpdateChildPolicyLocked (serverlist_installed w st2)
         = Some (child_updated u (serverlist_installed w st2))).
  { intros st2 H2.
    pose proof (Inv_serverlist_installed st this calld w st2 Hinv Hcur H2) as I3.
    assert (Hf : shutting_down_ (serverlist_installed w st2) = false
                 /\ config_ (serverlist_installed w st2) <> None).
    { destruct (serverlist_noted_cases st this calld) as (c2 & s' & e' & _ & _ & Heq & _).
      rewrite Heq in H2. simpl in H2.
      destruct (fallback_at_startup_checks_pending_ st);
        [destruct H2 as (handle & _ & ->) | subst st2]; done. }
    destruct Hf as [Hsd3 Hcfg3].
    destruct (CreateOrUpdateChildPolicyLocked_total (serverlist_installed w st2))
      as [st' Hc]; try done.
    pose proof Hc as Hc'.
    apply CreateOrUpdateChildPolicyLocked_inv in Hc'
      as [[_ ?] | (_ & _ & u & Hu & ->)]; [congruence |].
    eauto. }
  unfold install_serverlist. rewrite clear_fallback_mode_eq.
  destruct (serverlist_noted_cases st this calld) as (c2 & s' & e' & _ & _ & Heq & _).
  assert (Hp : fallback_at_startup_checks_pending_ (serverlist_noted st this calld)
               = fallback_at_startup_checks_pending_ st) by by rewrite Heq.
  assert (Hh : lb_fallback_timer_handle_ (serverlist_noted st this calld)
               = lb_fallback_timer_handle_ st) by by rewrite Heq.
  assert (Hc : lb_channel_ (serverlist_noted st this calld) = lb_channel_ st)
    by by rewrite Heq.
  rewrite Hp, Hh in Hnoted.
  change (fallback_at_startup_checks_pending_
            (set_fallback_mode_ false (serverlist_noted st this calld)))
    with (fallback_at_startup_checks_pending_ (serverlist_noted st this calld)).
  rewrite Hp.
  destruct (fallback_at_startup_checks_pending_ st) eqn:Hpend.
  - destruct (cancel_fallback_at_startup_checks_total
                (set_fallback_mode_ false (serverlist_noted st this calld)))
      as (handle & Hhandle & Hcancel).
    { change (lb_fallback_timer_handle_ (serverlist_noted st this calld) <> None).
      rewrite Hh. by apply (inv_pending_handle st Hinv). }
    { change (lb_channel_ (serverlist_noted st this calld) <> None). by rewrite Hc. }
    change (lb_fallback_timer_handle_ (serverlist_noted st this calld) = Some handle)
      in Hhandle.
    rewrite Hh in Hhandle. rewrite Hcancel.
    destruct (Hnoted (checks_cancelled handle
                (set_fallback_mode_ false (serverlist_noted st this calld))))
      as (u & Hu & Hcou); [eauto |].
    exists (checks_cancelled handle
              (set_fallback_mode_ false (serverlist_noted st this calld))), u.
    split; [eauto |]. split; [exact Hu | exact Hcou].
  - destruct (Hnoted (set_fallback_mode_ false (serverlist_noted st this calld)))
      as (u & Hu & Hcou); [done |].
    exists (set_fallback_mode_ false (serverlist_noted st this calld)), u.
    split; [done |]. split; [exact Hu | exact Hcou].
Qed.

(** *** What a message of the balancer does *)

Lemma child_updates_emit st e :
  child_updates (emit e st)
  = child_updates st ++ match e with ChildUpdateLocked u => [u] | _ => [] end.
Proof.
  unfold child_updates, emit. simpl. rewrite omap_app. f_equal. by destruct e.
Qed.

Lemma child_updates_child_updated st u :
  child_updates (child_updated u st) = child_updates st ++ [u].
Proof.
  unfold child_updates, child_updated. simpl. rewrite !omap_app. simpl.
  destruct (child_policy_ st); by simpl.
Qed.

Lemma child_updates_noted st this calld :
  child_updates (serverlist_noted st this calld) = child_updates st.
Proof.
  unfold serverlist_noted.
  destruct (start_client_load_reporting_cases st this
              (BalancerCallState.set_seen_serverlist_ true calld)) as [-> | ->];
    unfold child_updates; simpl; [done |].
  rewrite omap_app. simpl. by rewrite app_nil_r.
Qed.

Lemma child_updates_checks_cancelled st handle :
  child_updates (checks_cancelled handle st) = child_updates st.
Proof.
  unfold checks_cancelled. rewrite !child_updates_emit. simpl.
  by rewrite !app_nil_r.
Qed.

Lemma received_serverlist st this response :
  Inv st -> lb_calld_ st = Some this -> type response = SERVERLIST ->
  exists st' identical,
    step (received this response) st = Some st'
    /\ identical_to_current st (wrapper_of response) = Some identical
    /\ lb_calld_ st' = Some this
    /\ fallback_at_startup_checks_pending_ st' = false
    /\ (identical = true ->
        child_updates st' = child_updates st
        /\ serverlist_ st' = serverlist_ st
        /\ serverlists (heap st') = serverlists (heap st)
        /\ fallback_mode_ st' = fallback_mode_ st)
    /\ (identical = false ->
        (exists u client_stats,
           child_updates st' = child_updates st ++ [u]
           /\ ChildUpdateArgs.addresses u
              = IsOk (GetServerAddressList (wrapper_of response) client_stats))
        /\ serverlist_ st' = Some (length (serverlists (heap st)))
        /\ serverlists (heap st') = serverlists (heap st) ++ [wrapper_of response]
        /\ fallback_mode_ st' = false
        /\ (fallback_at_startup_checks_pending_ st = true -> cancels_checks st st')).
Proof.
  intros Hinv Hcur Hty.
  destruct (lookup_lt_is_Some_2 _ _ (inv_calld_live st Hinv this Hcur)) as [calld Hl].
  pose proof (inv_calld_not_shutting_down st Hinv this Hcur) as Hsd.
  destruct (identical_to_current_total st (wrapper_of response) Hinv) as [identical Hid].
  destruct (serverlist_noted_cases st this calld) as (c2 & s' & e' & _ & _ & Heq & _).
  assert (Hstep : forall st1,
            on_serverlist st this calld response = Some st1 ->
            shutting_down_ st1 = false ->
            step (received this response) st = Some (emit (CallRecvMessage this) st1)).
  { intros st1 H1 Hsd1. unfold received. simpl.
    unfold OnBalancerMessageReceivedLocked.
    rewrite bool_decide_eq_true_2 by done. rewrite Hl. simpl.
    rewrite Hty, H1. simpl. by rewrite Hsd1. }
  destruct identical.
  - pose proof Hid as Hid'. apply identical_to_current_true in Hid'
      as (p & current & Hp & _).
    assert (Hpend : fallback_at_startup_checks_pending_ st = false).
    { destruct (fallback_at_startup_checks_pending_ st) eqn:Hpend; [| done].
      rewrite (inv_pending_no_serverlist st Hinv Hpend) in Hp; [done | congruence]. }
    exists (emit (CallRecvMessage this) (serverlist_noted st this calld)), true.
    split.
    { apply Hstep; [| by rewrite Heq].
      rewrite on_serverlist_eq, identical_to_current_noted. fold (wrapper_of response).
      by rewrite Hid. }
    split; [done |]. rewrite child_updates_emit, child_updates_noted, Heq. simpl.
    rewrite app_nil_r. repeat split; done.
  - destruct (install_serverlist_total st this calld (wrapper_of response) Hinv Hcur)
      as (st2 & u & H2 & Hu & Hin).
    exists (emit (CallRecvMessage this)
              (child_updated u (serverlist_installed (wrapper_of response) st2))), false.
    assert (Hst2 : lb_calld_ st2 = Some this /\ shutting_down_ st2 = false
                   /\ fallback_at_startup_checks_pending_ st2 = false
                   /\ fallback_mode_ st2 = false
                   /\ serverlists (heap st2) = serverlists (heap st)
                   /\ child_updates st2 = child_updates st
                   /\ (fallback_at_startup_checks_pending_ st = true ->
                       exists handle,
                         lb_fallback_timer_handle_ st = Some handle
                         /\ effects st2
                            = effects st ++ e'
                              ++ [TimerCancel handle; RemoveConnectivityWatcher])).
    { destruct (fallback_at_startup_checks_pending_ st) eqn:Hpend.
      - destruct H2 as (handle & Hh & ->).
        rewrite child_updates_checks_cancelled.
        change (child_updates (set_fallback_mode_ false (serverlist_noted st this calld)))
          with (child_updates (serverlist_noted st this calld)).
        rewrite child_updates_noted, Heq. simpl.
        repeat split; try done. intros _. exists handle. split; [done |].
        by rewrite <- !app_assoc.
      - subst st2.
        change (child_updates (set_fallback_mode_ false (serverlist_noted st this calld)))
          with (child_updates (serverlist_noted st this calld)).
        rewrite child_updates_noted, Heq. simpl. repeat split; done. }
    destruct Hst2 as (Hc2 & Hsd2 & Hp2 & Hfm2 & Hh2 & Hcu2 & Heff2).
    split.
    { apply Hstep; [| done].
      rewrite on_serverlist_eq, identical_to_current_noted. fold (wrapper_of response).
      rewrite Hid. simpl. exact Hin. }
    split; [done |]. split; [done |]. split; [done |]. split; [done |].
    intros _. rewrite child_updates_emit, child_updates_child_updated. simpl.
    rewrite app_nil_r.
    unfold update_addresses_of in Hu. simpl in Hu. rewrite Hfm2 in Hu.
    destruct Hu as (p & sl & cs & [= <-] & Hsl & _ & Hadd).
    simpl in Hsl. rewrite lookup_app_r in Hsl by lia.
    rewrite Nat.sub_diag in Hsl. injection Hsl as <-.
    split.
    { exists u, cs. split; [| done].
      assert (child_updates (serverlist_installed (wrapper_of response) st2)
              = child_updates st2) as -> by done.
      by rewrite Hcu2. }
    split; [by rewrite Hh2 |]. split; [by rewrite Hh2 |]. split; [done |].
    intros Hpend. destruct (Heff2 Hpend) as (handle & Hh & He2).
    exists handle, e',
      ((if child_policy_ st2 then [] else [ChildPolicyCreate])
       ++ [ChildUpdateLocked u; CallRecvMessage this]).
    split; [done |]. simpl. rewrite He2. rewrite <- !app_assoc. simpl.
    by rewrite <- ?app_assoc.
Qed.

Lemma fallback_entered st :
  Inv st -> shutting_down_ st = false -> config_ st <> None ->
  exists u,
    fallback_update st u
    /\ CreateOrUpdateChildPolicyLocked (set_fallback_mode_ true st)
       = Some (child_updated u (set_fallback_mode_ true st)).
Proof.
  intros Hinv Hsd Hcfg.
  destruct (CreateOrUpdateChildPolicyLocked_total (set_fallback_mode_ true st))
    as [st' Hc]; try done; [by apply Inv_set_fallback_mode_true |].
  pose proof Hc as Hc'.
  apply CreateOrUpdateChildPolicyLocked_inv in Hc'
    as [[_ ?] | (_ & _ & u & Hu & ->)]; [simpl in *; congruence |].
  exists u. split; [exact Hu | exact Hc].
Qed.

Lemma received_fallback st this response :
  Inv st -> lb_calld_ st = Some this -> type response = FALLBACK ->
  fallback_mode_ st = false ->
  exists st' u,
    step (received this response) st = Some st'
    /\ fallback_update st u
    /\ child_updates st' = child_updates st ++ [u]
    /\ serverlist_ st' = None
    /\ fallback_mode_ st' = true
    /\ lb_calld_ st' = Some this
    /\ fallback_at_startup_checks_pending_ st' = false
    /\ (fallback_at_startup_checks_pending_ st = true -> cancels_checks st st').
Proof.
  intros Hinv Hcur Hty Hfm.
  destruct (lookup_lt_is_Some_2 _ _ (inv_calld_live st Hinv this Hcur)) as [calld Hl].
  pose proof (inv_calld_not_shutting_down st Hinv this Hcur) as Hsd.
  pose proof (inv_calld_channel st Hinv this Hcur) as Hch.
  pose proof (inv_channel_config st Hinv Hch) as Hcfg.
  assert (Hstep : forall st1,
            on_fallback st = Some st1 -> shutting_down_ st1 = false ->
            step (received this response) st = Some (emit (CallRecvMessage this) st1)).
  { intros st1 H1 Hsd1. unfold received. simpl.
    unfold OnBalancerMessageReceivedLocked.
    rewrite bool_decide_eq_true_2 by done. rewrite Hl. simpl.
    rewrite Hty, H1. simpl. by rewrite Hsd1. }
  assert (Hon : exists st1 u,
            fallback_update st1 u
            /\ on_fallback st
               = Some (set_serverlist_ None (child_updated u (set_fallback_mode_ true st1)))
            /\ (if fallback_at_startup_checks_pending_ st
                then exists handle, lb_fallback_timer_handle_ st = Some handle
                                    /\ st1 = checks_cancelled handle st
                else st1 = st)).
  { unfold on_fallback. rewrite Hfm. simpl.
    destruct (fallback_at_startup_checks_pending_ st) eqn:Hpend.
    - destruct (cancel_fallback_at_startup_checks_total st)
        as (handle & Hh & ->); [by apply (inv_pending_handle st Hinv) | done |].
      simpl.
      destruct (fallback_entered (checks_cancelled handle st))
        as (u & Hu & Hc); [by apply Inv_checks_cancelled | done | done |].
      rewrite Hc. simpl. exists (checks_cancelled handle st), u. eauto.
    - simpl. destruct (fallback_entered st) as (u & Hu & Hc); try done.
      rewrite Hc. simpl. exists st, u. eauto. }
  destruct Hon as (st1 & u & Hu & Hon & H1).
  assert (Hst1 : shutting_down_ st1 = false /\ lb_calld_ st1 = Some this
                 /\ fallback_at_startup_checks_pending_ st1 = false
                 /\ child_updates st1 = child_updates st
                 /\ fallback_backend_addresses_ st1 = fallback_backend_addresses_ st).
  { destruct (fallback_at_startup_checks_pending_ st) eqn:Hpend.
    - destruct H1 as (handle & _ & ->). rewrite child_updates_checks_cancelled. done.
    - by subst st1. }
  destruct Hst1 as (Hsd1 & Hc1 & Hp1 & Hcu1 & Hfb1).
  exists (emit (CallRecvMessage this)
            (set_serverlist_ None (child_updated u (set_fallback_mode_ true st1)))), u.
  split; [by apply Hstep |].
  split; [unfold fallback_update in *; by rewrite <- Hfb1 |].
  split.
  { rewrite child_updates_emit. simpl. rewrite app_nil_r.
    change (child_updates (set_serverlist_ None
                             (child_updated u (set_fallback_mode_ true st1))))
      with (child_updates (child_updated u (set_fallback_mode_ true st1))).
    rewrite child_updates_child_updated. by rewrite <- Hcu1. }
  repeat (split; [done |]).
  intros Hpend. rewrite Hpend in H1. destruct H1 as (handle & Hh & ->).
  exists handle, [],
    ((if child_policy_ st then [] else [ChildPolicyCreate])
     ++ [ChildUpdateLocked u; CallRecvMessage this]).
  split; [done |]. simpl. rewrite <- !app_assoc. simpl. by rewrite <- ?app_assoc.
Qed.

(** *** Claims on duplicate serverlists and on the startup timer *)

Lemma wrapper_eq_iff (r1 r2 : GrpcLbResponse) :
  Serverlist.eq (wrapper_of r1) (wrapper_of r2) = true <-> serverlist r1 = serverlist r2.
Proof. apply Serverlist_eq_iff. Qed.

Lemma identical_to_current_congr st w1 w2 :
  Serverlist.eq w1 w2 = true ->
  identical_to_current st w1 = identical_to_current st w2.
Proof.
  intros He. apply Serverlist_eq_iff in He. unfold identical_to_current.
  destruct (serverlist_ st); [| done].
  destruct (serverlists (heap st) !! _); [| done]. simpl.
  f_equal. unfold Serverlist.eq. by rewrite He.
Qed.

Lemma identical_after_install st (p : nat) w1 w2 :
  serverlist_ st = Some p -> serverlists (heap st) !! p = Some w1 ->
  Serverlist.eq w1 w2 = true ->
  identical_to_current st w2 = Some true.
Proof.
  intros Hp Hl He. unfold identical_to_current. rewrite Hp, Hl. simpl. by rewrite He.
Qed.

(** *** What the handlers leave as it is *)

Lemma frame_refl st : frame st st.
Proof. by unfold frame. Qed.

Lemma frame_trans st1 st2 st3 : frame st1 st2 -> frame st2 st3 -> frame st1 st3.
Proof.
  unfold frame. intros (-> & -> & -> & -> & Hp1) (-> & -> & -> & -> & Hp2).
  repeat split; auto.
Qed.

Lemma CreateOrUpdateChildPolicyLocked_frame st st' :
  CreateOrUpdateChildPolicyLocked st = Some st' ->
  frame st st' /\ fallback_mode_ st' = fallback_mode_ st
  /\ serverlist_ st' = serverlist_ st.
Proof.
  intros Hc. apply CreateOrUpdateChildPolicyLocked_inv in Hc
    as [[-> _] | (_ & _ & u & _ & ->)]; by unfold frame.
Qed.

Lemma MaybeEnterFallbackModeAfterStartup_frame st st' :
  MaybeEnterFallbackModeAfterStartup st = Some st' -> frame st st'.
Proof.
  intros Hm. apply MaybeEnterFallbackModeAfterStartup_inv in Hm
    as [[_ Hc] | [_ ->]]; [| apply frame_refl].
  apply CreateOrUpdateChildPolicyLocked_frame in Hc as (Hf & _).
  eapply frame_trans; [| exact Hf]. by unfold frame.
Qed.

Lemma OnFallbackTimerLocked_frame st st' :
  OnFallbackTimerLocked st = Some st' -> frame st st'.
Proof.
  intros Ht. apply OnFallbackTimerLocked_inv in Ht
    as [(_ & _ & _ & Hc) | [_ ->]]; [| apply frame_refl].
  apply CreateOrUpdateChildPolicyLocked_frame in Hc as (Hf & _).
  eapply frame_trans; [| exact Hf]. by unfold frame.
Qed.

Lemma StateWatcher_OnConnectivityStateChange_frame st new_state st' :
  StateWatcher_OnConnectivityStateChange st new_state = Some st' -> frame st st'.
Proof.
  unfold StateWatcher_OnConnectivityStateChange.
  destruct (_ && _); [| intros [= <-]; apply frame_refl].
  intros Hw. apply bind_Some in Hw as (st1 & H1 & Hw).
  apply bind_Some in Hw as (st2 & H2 & Hw).
  unfold CancelFallbackTimer in H1. simpl in H1.
  apply bind_Some in H1 as (handle & Hh & [= <-]).
  unfold CancelBalancerChannelConnectivityWatchLocked in Hw.
  destruct (lb_channel_ st2); [| done]. injection Hw as <-.
  apply CreateOrUpdateChildPolicyLocked_frame in H2 as (Hf & _).
  eapply frame_trans; [eapply frame_trans; [| exact Hf] |]; by unfold frame.
Qed.

Lemma Helper_UpdateState_frame st state status picker st' :
  Helper_UpdateState st state status picker = Some st' -> frame st st'.
Proof.
  unfold Helper_UpdateState.
  destruct (shutting_down_ st); [intros [= <-]; apply frame_refl |].
  intros Hu. apply bind_Some in Hu as (st2 & Hm & Hu).
  apply bind_Some in Hu as (all_drops & _ & Hu).
  apply bind_Some in Hu as (cs & _ & [= <-]).
  apply MaybeEnterFallbackModeAfterStartup_frame in Hm.
  eapply frame_trans; [eapply frame_trans; [| exact Hm] |]; by unfold frame.
Qed.

Lemma Helper_RequestReresolution_frame st : frame st (Helper_RequestReresolution st).
Proof.
  unfold Helper_RequestReresolution.
  destruct (shutting_down_ st); [apply frame_refl |].
  by destruct (fallback_mode_ st).
Qed.

Lemma serverlist_noted_frame st this calld : frame st (serverlist_noted st this calld).
Proof.
  destruct (serverlist_noted_cases st this calld) as (c2 & s' & e' & _ & _ & -> & _).
  by unfold frame.
Qed.

Lemma on_serverlist_frame st this calld response st' :
  on_serverlist st this calld response = Some st' -> frame st st'.
Proof.
  rewrite on_serverlist_eq. intros Hs.
  apply bind_Some in Hs as ([] & _ & Hs).
  - injection Hs as <-. apply serverlist_noted_frame.
  - apply install_serverlist_inv in Hs as (st2 & H2 & Hc).
    apply CreateOrUpdateChildPolicyLocked_frame in Hc as (Hf & _).
    eapply frame_trans; [apply (serverlist_noted_frame st this calld) |].
    eapply frame_trans; [| exact Hf].
    destruct (fallback_at_startup_checks_pending_ (serverlist_noted st this calld));
      [destruct H2 as (handle & _ & ->) | subst st2]; by unfold frame.
Qed.

Lemma on_fallback_frame st st' : on_fallback st = Some st' -> frame st st'.
Proof.
  intros Hf. apply on_fallback_inv in Hf
    as [[_ ->] | (_ & st1 & st2 & H1 & H2 & ->)]; [apply frame_refl |].
  apply CreateOrUpdateChildPolicyLocked_frame in H2 as (Hf & _).
  eapply frame_trans; [eapply frame_trans; [| exact Hf] |]; [| by unfold frame].
  destruct (fallback_at_startup_checks_pending_ st);
    [destruct H1 as (handle & _ & ->) | subst st1]; by unfold frame.
Qed.

Lemma OnBalancerMessageReceivedLocked_frame st this payload st' :
  OnBalancerMessageReceivedLocked st this payload = Some st' -> frame st st'.
Proof.
  intros Hm.
  destruct (decide (lb_calld_ st = Some this)) as [Hcur | Hother].
  2: { rewrite OnBalancerMessageReceivedLocked_ignored in Hm by auto.
       injection Hm as <-. apply frame_refl. }
  destruct payload as [payload |].
  2: { rewrite OnBalancerMessageReceivedLocked_ignored in Hm by auto.
       injection Hm as <-. apply frame_refl. }
  apply OnBalancerMessageReceivedLocked_inv in Hm as (calld & st1 & Hl & H1 & ->);
    [| done].
  assert (F1 : frame st st1).
  { destruct (GrpcLbResponseParse payload) as [response |];
      [| subst st1; apply frame_refl].
    destruct (type response).
    - destruct (BalancerCallState.seen_initial_response_ calld); subst st1;
        [apply frame_refl |].
      unfold on_initial. by destruct (negb _).
    - by eapply on_serverlist_frame.
    - by eapply on_fallback_frame. }
  eapply frame_trans; [exact F1 |]. by destruct (shutting_down_ st1).
Qed.

(** The end of a call that is not the current one changes nothing. *)
Lemma OnBalancerStatusReceivedLocked_ignored st this :
  lb_calld_ st <> Some this -> OnBalancerStatusReceivedLocked st this = Some st.
Proof.
  intros Hc. unfold OnBalancerStatusReceivedLocked.
  by rewrite bool_decide_eq_false_2.
Qed.

(** Once over, the startup checks stay over. *)
Lemma step_checks_over ev st st' :
  Inv st -> checks_over st -> step ev st = Some st' -> checks_over st'.
Proof.
  intros Hinv Hover.
  assert (Hframe : forall s, frame st s -> checks_over s).
  { intros s (Hsd & Hch & _ & _ & Hp). unfold checks_over in *.
    rewrite Hsd, Hch. destruct Hover as [[Hpend Hc] | ?]; [left | by right].
    split; [| done].
    destruct (fallback_at_startup_checks_pending_ s); [| done].
    rewrite Hp in Hpend; done. }
  destruct ev; simpl.
  - intros Hu. apply bind_Some in Hu as ([status st1] & Hu & [= <-]).
    apply UpdateLocked_inv in Hu as (config & st5 & _ & _ & H5 & H6).
    assert (F5 : shutting_down_ st5 = shutting_down_ st
                 /\ lb_channel_ st5 <> None
                 /\ fallback_at_startup_checks_pending_ st5
                    = fallback_at_startup_checks_pending_ st).
    { destruct (child_policy_ st); [| by subst st5].
      apply CreateOrUpdateChildPolicyLocked_inv in H5
        as [[-> _] | (_ & _ & u & _ & ->)]; done. }
    destruct F5 as (Hsd5 & Hch5 & Hp5).
    case_bool_decide as Hinit.
    + destruct Hover as [[_ Hc] | Hsd]; [done |].
      apply StartBalancerCallLocked_inv in H6 as (_ & [[_ ->] | (Hsd' & _)]).
      * right. simpl. congruence.
      * simpl in Hsd'. congruence.
    + subst st1. unfold checks_over in *. rewrite Hp5, Hsd5.
      destruct Hover as [[Hpend _] | ?]; auto.
  - intros Hs. apply ShutdownLocked_inv in Hs as (_ & Hsd & _); [| done]. by right.
  - intros Hm. by apply Hframe, (OnBalancerMessageReceivedLocked_frame _ _ _ _ Hm).
  - intros Hs.
    destruct (decide (lb_calld_ st = Some calld)) as [Hcur | Hother].
    2: { rewrite OnBalancerStatusReceivedLocked_ignored in Hs by done.
         by injection Hs as <-. }
    pose proof (inv_calld_channel st Hinv calld Hcur) as Hch.
    apply OnBalancerStatusReceivedLocked_inv in Hs
      as (c & st2 & Hl & H2 & Hsd2 & Hs); [| done].
    assert (F2 : fallback_at_startup_checks_pending_ st2 = false
                 /\ lb_channel_ st2 = lb_channel_ st).
    { destruct (fallback_at_startup_checks_pending_ st) eqn:Hp.
      - destruct H2 as (_ & handle & _ & H2).
        apply CreateOrUpdateChildPolicyLocked_frame in H2 as ((_ & Hc2 & _ & _ & Hp2) & _).
        split; [| by rewrite Hc2].
        destruct (fallback_at_startup_checks_pending_ st2); [| done].
        by specialize (Hp2 eq_refl).
      - apply MaybeEnterFallbackModeAfterStartup_frame in H2
          as (_ & Hc2 & _ & _ & Hp2).
        split; [| by rewrite Hc2].
        destruct (fallback_at_startup_checks_pending_ st2); [| done].
        specialize (Hp2 eq_refl). simpl in Hp2. congruence. }
    destruct F2 as (Hp2 & Hch2). left.
    destruct (BalancerCallState.seen_initial_response_ c).
    + apply StartBalancerCallLocked_inv in Hs as (_ & [[_ ->] | (_ & _ & ->)]);
        simpl; by rewrite Hp2, Hch2.
    + subst st'. rewrite StartBalancerCallRetryTimerLocked_eq. simpl.
      by rewrite Hp2, Hch2.
  - intros Ht. by apply Hframe, OnFallbackTimerLocked_frame.
  - unfold OnBalancerCallRetryTimerLocked.
    destruct (_ && _); [| by intros [= <-]].
    intros Hs. by apply StartBalancerCallLocked_inv in Hs
      as (_ & [[_ ->] | (_ & _ & ->)]).
  - intros Hw. by apply Hframe, (StateWatcher_OnConnectivityStateChange_frame _ _ _ Hw).
  - intros Hu. by apply Hframe, (Helper_UpdateState_frame _ _ _ _ _ Hu).
  - intros [= <-]. apply Hframe, Helper_RequestReresolution_frame.
Qed.

Lemma run_checks_over evs st st' :
  Inv st -> checks_over st -> run evs st = Some st' -> checks_over st'.
Proof.
  revert st. induction evs as [| ev evs IH]; intros st Hinv Hover; simpl.
  - by intros [= <-].
  - intros Hr. apply bind_Some in Hr as (st1 & H1 & Hr).
    eapply IH; [| | exact Hr]; [by eapply step_Inv | by eapply step_checks_over].
Qed.

(** Between two balancer calls, only the retry timer starts one. *)
Lemma step_between_calls ev st st' :
  Inv st -> between_calls st -> ev <> EvBalancerCallRetryTimer ->
  step ev st = Some st' -> between_calls st'.
Proof.
  intros Hinv [Hnone Hstarted] Hev.
  assert (Hframe : forall s, frame st s -> between_calls s).
  { intros s (Hsd & Hch & Hc & _). unfold between_calls. by rewrite Hsd, Hch, Hc. }
  destruct ev; simpl; try done.
  - intros Hu. apply bind_Some in Hu as ([status st1] & Hu & [= <-]).
    apply UpdateLocked_inv in Hu as (config & st5 & _ & _ & H5 & H6).
    assert (F5 : shutting_down_ st5 = shutting_down_ st
                 /\ lb_channel_ st5 <> None /\ lb_calld_ st5 = None).
    { destruct (child_policy_ st); [| by subst st5].
      apply CreateOrUpdateChildPolicyLocked_inv in H5
        as [[-> _] | (_ & _ & u & _ & ->)]; done. }
    destruct F5 as (Hsd5 & Hch5 & Hc5).
    case_bool_decide as Hinit.
    + destruct Hstarted as [? | Hsd]; [done |].
      apply StartBalancerCallLocked_inv in H6 as (_ & [[_ ->] | (Hsd' & _)]).
      * split; simpl; auto.
      * simpl in Hsd'. congruence.
    + subst st1. split; auto.
  - intros Hs. apply ShutdownLocked_inv in Hs as (_ & Hsd & Hc & _); [| done].
    split; auto.
  - intros Hm. by apply Hframe, (OnBalancerMessageReceivedLocked_frame _ _ _ _ Hm).
  - intros Hs. rewrite OnBalancerStatusReceivedLocked_ignored in Hs by congruence.
    injection Hs as <-. by split.
  - intros Ht. by apply Hframe, OnFallbackTimerLocked_frame.
  - intros Hw. by apply Hframe, (StateWatcher_OnConnectivityStateChange_frame _ _ _ Hw).
  - intros Hu. by apply Hframe, (Helper_UpdateState_frame _ _ _ _ _ Hu).
  - intros [= <-]. apply Hframe, Helper_RequestReresolution_frame.
Qed.

Lemma run_between_calls evs st st' :
  Inv st -> between_calls st -> ~ In EvBalancerCallRetryTimer evs ->
  run evs st = Some st' -> between_calls st'.
Proof.
  revert st. induction evs as [| ev evs IH]; intros st Hinv Hb Hnot; simpl.
  - by intros [= <-].
  - intros Hr. apply bind_Some in Hr as (st1 & H1 & Hr).
    eapply IH; [| | | exact Hr].
    + by eapply step_Inv.
    + eapply step_between_calls; [done | done | | exact H1].
      intros ->. apply Hnot. by left.
    + intros Hin. apply Hnot. by right.
Qed.

(** *** The end of the balancer call, in full *)

(** The policy when the status handler has dealt with fallback: the
    call is gone, the startup checks are over, nothing else of the
    call management has changed. *)
Lemma status_received_fallback_part st this calld :
  Inv st -> lb_calld_ st = Some this -> calls st !! this = Some calld ->
  exists st2,
    (self1 ← reset_lb_calld st;
     if fallback_at_startup_checks_pending_ self1 then
       if BalancerCallState.seen_serverlist_ calld then None
       else
         self' ← cancel_fallback_at_startup_checks self1;
         CreateOrUpdateChildPolicyLocked (set_fallback_mode_ true self')
     else MaybeEnterFallbackModeAfterStartup self1) = Some st2
    /\ Inv st2
    /\ shutting_down_ st2 = false
    /\ lb_channel_ st2 = lb_channel_ st
    /\ lb_calld_ st2 = None
    /\ calls st2 = calls st
    /\ lb_call_backoff_ st2 = lb_call_backoff_ st
    /\ lb_call_retry_timer_handle_ st2 = lb_call_retry_timer_handle_ st
    /\ fallback_at_startup_checks_pending_ st2 = false
    /\ (exists new, effects st2 = effects st ++ new)
    /\ (fallback_at_startup_checks_pending_ st = false ->
        MaybeEnterFallbackModeAfterStartup (orphaned this calld st) = Some st2).
Proof.
  intros Hinv Hcur Hl.
  pose proof (inv_calld_not_shutting_down st Hinv this Hcur) as Hsd.
  pose proof (inv_calld_channel st Hinv this Hcur) as Hch.
  pose proof (inv_channel_config st Hinv Hch) as Hcfg.
  rewrite (reset_lb_calld_current st this calld Hcur Hl). simpl.
  destruct (fallback_at_startup_checks_pending_ st) eqn:Hp.
  - rewrite (inv_pending_not_seen st Hinv Hp this calld Hcur Hl).
    destruct (cancel_fallback_at_startup_checks_total (orphaned this calld st))
      as (handle & Hh & ->); [by apply (inv_pending_handle st Hinv) | done |].
    simpl.
    destruct (fallback_entered (checks_cancelled handle (orphaned this calld st)))
      as (u & _ & Hc); try done.
    { clear Hh. inv_intro Hinv. }
    exists (child_updated u
              (set_fallback_mode_ true (checks_cancelled handle (orphaned this calld st)))).
    split; [exact Hc |].
    split; [eapply CreateOrUpdateChildPolicyLocked_Inv;
            [apply Inv_orphaned_checks_cancelled, Hinv | exact Hc] |].
    repeat (split; [done |]). split; [| done].
    simpl. rewrite <- !app_assoc. by eexists.
  - assert (I1 : Inv (orphaned this calld st)) by by apply Inv_orphaned.
    destruct (MaybeEnterFallbackModeAfterStartup_total (orphaned this calld st))
      as [st2 Hm]; try done.
    exists st2. split; [exact Hm |].
    split; [by eapply MaybeEnterFallbackModeAfterStartup_Inv |].
    assert (Hcases : st2 = orphaned this calld st
                     \/ exists u, st2 = child_updated u
                                          (set_fallback_mode_ true (orphaned this calld st))).
    { pose proof Hm as Hm'.
      apply MaybeEnterFallbackModeAfterStartup_inv in Hm' as [[_ Hc] | [_ ->]];
        [| by left].
      apply CreateOrUpdateChildPolicyLocked_inv in Hc
        as [[_ Hs] | (_ & _ & u & _ & ->)]; [| eauto].
      simpl in Hs. congruence. }
    destruct Hcases as [-> | [u ->]].
    + repeat (split; [done |]). split; [| done]. simpl. by eexists.
    + repeat (split; [done |]). split; [| done].
      simpl. rewrite <- !app_assoc. by eexists.
Qed.

Lemma OnBalancerStatusReceivedLocked_current st this calld :
  lb_calld_ st = Some this -> calls st !! this = Some calld ->
  OnBalancerStatusReceivedLocked st this
  = self2 ← (self1 ← reset_lb_calld st;
             if fallback_at_startup_checks_pending_ self1 then
               if BalancerCallState.seen_serverlist_ calld then None
               else
                 self' ← cancel_fallback_at_startup_checks self1;
                 CreateOrUpdateChildPolicyLocked (set_fallback_mode_ true self')
             else MaybeEnterFallbackModeAfterStartup self1);
    if shutting_down_ self2 then None
    else
      let self3 := emit ParentRequestReresolution self2 in
      if BalancerCallState.seen_initial_response_ calld
      then StartBalancerCallLocked
             (set_lb_call_backoff_ (BackOff_Reset (lb_call_backoff_ self3)) self3)
      else Some (StartBalancerCallRetryTimerLocked self3).
Proof.
  intros Hcur Hl. unfold OnBalancerStatusReceivedLocked.
  rewrite bool_decide_eq_true_2 by done. rewrite Hl. simpl.
  by destruct (reset_lb_calld st).
Qed.

(** *** The endpoints handed to the child policy *)

Lemma GetObject_SetObject (o : TokenAndClientStatsArg.t) (a : gmap string ArgValue) :
  ChannelArgs.GetObject (ChannelArgs.SetObject o a) = Some o.
Proof.
  unfold ChannelArgs.GetObject, ChannelArgs.SetObject. by rewrite lookup_insert_eq.
Qed.

(** The endpoint the fallback iterator makes of a resolver endpoint. *)
Lemma NullLbTokenEndpointIterator_fold (it : NullLbTokenEndpointIterator.t)
    (parent : list EndpointAddresses) (acc : list EndpointAddresses) :
  fold_left
    (fun acc endpoint =>
       acc ++ [{| addresses := addresses endpoint;
                  args := ChannelArgs.SetObject
                            (NullLbTokenEndpointIterator.empty_token_ it)
                            (args endpoint) |}])
    parent acc
  = acc ++ map (fun endpoint =>
                  {| addresses := addresses endpoint;
                     args := ChannelArgs.SetObject
                               (NullLbTokenEndpointIterator.empty_token_ it)
                               (args endpoint) |})
               parent.
Proof.
  revert acc. induction parent as [| e parent IH]; intros acc; simpl.
  - by rewrite app_nil_r.
  - rewrite IH. by rewrite <- app_assoc.
Qed.

Lemma NullLbTokenEndpointIterator_endpoints (it : NullLbTokenEndpointIterator.t) :
  EndpointAddressesIterator.endpoints (EndpointAddressesIterator.OfFallback it)
  = map (fun endpoint =>
           {| addresses := addresses endpoint;
              args := ChannelArgs.SetObject
                        (NullLbTokenEndpointIterator.empty_token_ it)
                        (args endpoint) |})
        (NullLbTokenEndpointIterator.parent_it_ it).
Proof.
  unfold EndpointAddressesIterator.endpoints. simpl.
  unfold NullLbTokenEndpointIterator.ForEach.
  by rewrite NullLbTokenEndpointIterator_fold.
Qed.

Lemma In_child_updates st u :
  In u (child_updates st) -> In (ChildUpdateLocked u) (effects st).
Proof.
  unfold child_updates. intros Hin. apply list_elem_of_In in Hin.
  apply list_elem_of_omap in Hin as (e & He & Hu).
  apply list_elem_of_In. by destruct e; simplify_eq.
Qed.

Lemma child_update_ok st u : Inv st -> In u (child_updates st) -> update_ok u.
Proof.
  intros Hinv Hin. apply In_child_updates in Hin.
  pose proof (inv_effects_ok st Hinv) as Hok.
  rewrite List.Forall_forall in Hok. exact (Hok _ Hin).
Qed.

Lemma Helper_CreateSubchannel_arg st address per_address_args created arg :
  ChannelArgs.GetObject per_address_args = Some arg ->
  Helper_CreateSubchannel st address per_address_args created
  = if shutting_down_ st then Some None
    else Some (Some {| SubchannelWrapper.wrapped_subchannel_ := created;
                       SubchannelWrapper.lb_token_ := TokenAndClientStatsArg.lb_token arg;
                       SubchannelWrapper.client_stats_ :=
                         TokenAndClientStatsArg.client_stats arg |}).
Proof. intros Harg. unfold Helper_CreateSubchannel. by rewrite Harg. Qed.

(** What an endpoint of an update of this policy carries. *)
Lemma child_endpoint_arg st u it e :
  Inv st -> In u (child_updates st) ->
  ChildUpdateArgs.addresses u = IsOk it ->
  In e (EndpointAddressesIterator.endpoints it) ->
  match it with
  | EndpointAddressesIterator.OfServerlist sit =>
      exists server,
        In server (Serverlist.serverlist_ (AddressIterator.serverlist_ sit))
        /\ is_valid_entry server = true
        /\ e = endpoint_of (AddressIterator.client_stats_ sit) server
        /\ ChannelArgs.GetObject (args e)
           = Some {| TokenAndClientStatsArg.lb_token_ := lb_token_of server;
                     TokenAndClientStatsArg.client_stats_ :=
                       AddressIterator.client_stats_ sit |}
  | EndpointAddressesIterator.OfFallback fit =>
      ChannelArgs.GetObject (args e) = Some empty_token
  end.
Proof.
  intros Hinv Hu Hadd He.
  pose proof (child_update_ok st u Hinv Hu) as Hok.
  unfold update_ok in Hok. rewrite Hadd in Hok.
  destruct it as [sit | fit].
  - destruct sit as [sl cs]. rewrite AddressIterator_endpoints in He.
    apply List.in_map_iff in He as (server & <- & Hin).
    apply List.filter_In in Hin as [Hin Hv].
    exists server. simpl. split; [done |]. split; [done |]. split; [done |].
    apply GetObject_SetObject.
  - rewrite NullLbTokenEndpointIterator_endpoints in He.
    apply List.in_map_iff in He as (e0 & <- & _). simpl.
    rewrite GetObject_SetObject. by rewrite Hok.
Qed.

(** *** Claims on the control loop *)

Lemma run_cons ev evs st st1 :
  step ev st = Some st1 -> run (ev :: evs) st = run evs st1.
Proof. intros Hs. cbn [run]. by rewrite Hs. Qed.

(** C2, as the code has it.  On the current call of a reachable
    policy, a SERVERLIST message that is value-equal to the current
    serverlist is dropped without an update of the child policy.  Two
    successive value-equal SERVERLIST messages give the child policy
    at most one update: one, from the first message, when the first is
    not value-equal to the serverlist current at its arrival, and none
    when it is.  A FALLBACK message that arrives while the policy is
    not in fallback mode clears the current serverlist, so that the
    SERVERLIST message after it, whatever its entries, is not a
    duplicate and does update the child policy. *)
Theorem duplicate_serverlists_suppressed st this r1 r2 :
  reachable st -> lb_calld_ st = Some this ->
  type r1 = SERVERLIST -> type r2 = SERVERLIST ->
  Serverlist.eq (wrapper_of r1) (wrapper_of r2) = true ->
  (identical_to_current st (wrapper_of r1) = Some true ->
   exists st1,
     step (received this r1) st = Some st1
     /\ child_updates st1 = child_updates st
     /\ serverlist_ st1 = serverlist_ st)
  /\ (exists st2 identical,
        run [received this r1; received this r2] st = Some st2
        /\ identical_to_current st (wrapper_of r1) = Some identical
        /\ (identical = true -> child_updates st2 = child_updates st)
        /\ (identical = false ->
            exists u client_stats,
              child_updates st2 = child_updates st ++ [u]
              /\ ChildUpdateArgs.addresses u
                 = IsOk (GetServerAddressList (wrapper_of r1) client_stats)))
  /\ (forall f,
        type f = FALLBACK -> fallback_mode_ st = false ->
        exists st1 st2 u1 u2 client_stats,
          step (received this f) st = Some st1
          /\ serverlist_ st1 = None
          /\ fallback_update st u1
          /\ step (received this r1) st1 = Some st2
          /\ child_updates st2 = child_updates st ++ [u1; u2]
          /\ ChildUpdateArgs.addresses u2
             = IsOk (GetServerAddressList (wrapper_of r1) client_stats)).
Proof.
  intros Hreach Hcur Ht1 Ht2 Heq.
  pose proof (reachable_Inv st Hreach) as Hinv.
  destruct (received_serverlist st this r1 Hinv Hcur Ht1)
    as (st1 & identical & Hs1 & Hid & Hc1 & _ & Hsame & Hnew).
  pose proof (step_Inv _ _ _ Hinv Hs1) as Hinv1.
  destruct (received_serverlist st1 this r2 Hinv1 Hc1 Ht2)
    as (st2 & identical2 & Hs2 & Hid2 & _ & _ & Hsame2 & _).
  split; [| split].
  - intros Hid'. rewrite Hid' in Hid. injection Hid as <-.
    destruct (Hsame eq_refl) as (Hcu & Hsl & _). eauto.
  - exists st2, identical.
    rewrite (run_cons _ _ _ _ Hs1), (run_cons _ _ _ _ Hs2).
    split; [done |]. split; [done |].
    assert (Hdup : identical2 = true).
    { rewrite <- (identical_to_current_congr st1 _ _ Heq) in Hid2.
      destruct identical.
      - destruct (Hsame eq_refl) as (_ & Hsl & Hh & _).
        unfold identical_to_current in *. rewrite Hsl, Hh in Hid2. congruence.
      - destruct (Hnew eq_refl) as (_ & Hsl & Hh & _).
        rewrite (identical_after_install st1 (length (serverlists (heap st)))
                   (wrapper_of r1) (wrapper_of r1)) in Hid2.
        + congruence.
        + exact Hsl.
        + rewrite Hh. rewrite lookup_app_r by lia. by rewrite Nat.sub_diag.
        + by apply Serverlist_eq_iff. }
    destruct (Hsame2 Hdup) as (Hcu2 & _). rewrite Hcu2.
    split.
    + intros ->. by destruct (Hsame eq_refl) as (Hcu & _).
    + intros ->. by destruct (Hnew eq_refl) as ((u & cs & Hcu & Hadd) & _); eauto.
  - intros f Hf Hfm.
    destruct (received_fallback st this f Hinv Hcur Hf Hfm)
      as (stf & u1 & Hsf & Hu1 & Hcuf & Hslf & _ & Hcf & _).
    pose proof (step_Inv _ _ _ Hinv Hsf) as Hinvf.
    destruct (received_serverlist stf this r1 Hinvf Hcf Ht1)
      as (st' & identical' & Hs' & Hid' & _ & _ & _ & Hnew').
    assert (identical' = false) as ->.
    { unfold identical_to_current in Hid'. rewrite Hslf in Hid'. congruence. }
    destruct (Hnew' eq_refl) as ((u2 & cs & Hcu' & Hadd) & _).
    exists stf, st', u1, u2, cs. repeat (split; [done |]).
    split; [| done]. rewrite Hcu', Hcuf. by rewrite <- app_assoc.
Qed.

(** C3.  When a reachable policy gets a SERVERLIST message on its
    current call, the startup checks are over afterwards: the flag
    [fallback_at_startup_checks_pending_] is clear, and if it was set
    the timer and the watcher have been cancelled.  Whatever happens
    then, the callback of the fallback timer changes nothing, so the
    policy does not enter fallback mode through the timer.  The
    callback enters fallback mode exactly when the flag is set and the
    policy is not shutting down. *)
Theorem serverlist_ends_startup_fallback st this response :
  reachable st -> lb_calld_ st = Some this -> type response = SERVERLIST ->
  exists st1,
    step (received this response) st = Some st1
    /\ fallback_at_startup_checks_pending_ st1 = false
    /\ (fallback_at_startup_checks_pending_ st = true -> cancels_checks st st1)
    /\ (forall evs st2, run evs st1 = Some st2 -> step EvFallbackTimer st2 = Some st2)
    /\ (forall s,
          reachable s ->
          exists s',
            step EvFallbackTimer s = Some s'
            /\ (fallback_at_startup_checks_pending_ s = true
                /\ shutting_down_ s = false ->
                fallback_mode_ s' = true
                /\ fallback_at_startup_checks_pending_ s' = false
                /\ exists u, fallback_update s u
                             /\ child_updates s' = child_updates s ++ [u])
            /\ (fallback_at_startup_checks_pending_ s = false
                \/ shutting_down_ s = true -> s' = s)).
Proof.
  intros Hreach Hcur Hty.
  pose proof (reachable_Inv st Hreach) as Hinv.
  destruct (received_serverlist st this response Hinv Hcur Hty)
    as (st1 & identical & Hs1 & Hid & Hc1 & Hp1 & Hsame & Hnew).
  pose proof (step_Inv _ _ _ Hinv Hs1) as Hinv1.
  exists st1. split; [done |]. split; [done |]. split; [| split].
  - intros Hpend. destruct identical; [| by apply Hnew].
    apply identical_to_current_true in Hid as (p & current & Hp & _).
    rewrite (inv_pending_no_serverlist st Hinv Hpend) in Hp; [done | congruence].
  - intros evs st2 Hrun.
    assert (Hover : checks_over st1).
    { left. split; [done |].
      apply OnBalancerMessageReceivedLocked_frame in Hs1 as (_ & Hch & _).
      rewrite Hch. by apply (inv_calld_channel st Hinv this). }
    pose proof (run_checks_over evs st1 st2 Hinv1 Hover Hrun) as Hover2.
    simpl. unfold OnFallbackTimerLocked.
    destruct Hover2 as [[-> _] | ->]; [done |].
    by rewrite andb_false_r.
  - intros s Hs. pose proof (reachable_Inv s Hs) as Is. simpl.
    unfold OnFallbackTimerLocked.
    destruct (fallback_at_startup_checks_pending_ s) eqn:Hp;
      destruct (shutting_down_ s) eqn:Hsd; simpl.
    2: { pose proof (inv_pending_channel s Is Hp) as Hch.
         unfold CancelBalancerChannelConnectivityWatchLocked. simpl.
         destruct (lb_channel_ s) as [ch |] eqn:Ech; [| done]. simpl.
         destruct (fallback_entered
                     (emit RemoveConnectivityWatcher
                        (set_fallback_at_startup_checks_pending_ false s)))
           as (u & Hu & Hc).
         { clear Ech. inv_intro Is. }
         { done. }
         { simpl. apply (inv_channel_config s Is). by rewrite Ech. }
         rewrite Hc. eexists. split; [done |]. split.
         - intros _. split; [done |]. split; [done |]. exists u. split; [done |].
           rewrite child_updates_child_updated.
           change (child_updates (set_fallback_mode_ true
                     (emit RemoveConnectivityWatcher
                        (set_fallback_at_startup_checks_pending_ false s))))
             with (child_updates (emit RemoveConnectivityWatcher s)).
           rewrite child_updates_emit. simpl. by rewrite app_nil_r.
         - intros [? | ?]; done. }
    all: eexists; split; [done |]; split; [by intros [? ?] | done].
Qed.

(** C4.  The post-startup fallback check runs in two places: when the
    child policy reports its state (the policy not shutting down) and
    when the current balancer call ends with no startup checks
    pending.  In both, at the moment of the check (the child's READY
    flag updated, or the ended call released), the policy enters
    fallback mode (sets [fallback_mode_] and updates the child policy
    from the fallback addresses) when it is not in fallback mode, no
    startup checks are pending, there is no balancer call or the
    current one has seen no serverlist, and the child policy is not
    READY; otherwise the mode is as it was and the child policy gets
    no update. *)
Theorem post_startup_fallback_check st :
  reachable st ->
  (forall state status picker,
     shutting_down_ st = false -> child_policy_ st = true ->
     exists st',
       step (EvChildUpdateState state status picker) st = Some st'
       /\ (post_startup_fallback_due (set_child_policy_ready_ (is_READY state) st) ->
           fallback_mode_ st' = true
           /\ exists u, fallback_update st u
                        /\ child_updates st' = child_updates st ++ [u])
       /\ (~ post_startup_fallback_due (set_child_policy_ready_ (is_READY state) st) ->
           fallback_mode_ st' = fallback_mode_ st
           /\ child_updates st' = child_updates st))
  /\ (forall this calld,
        lb_calld_ st = Some this -> calls st !! this = Some calld ->
        fallback_at_startup_checks_pending_ st = false ->
        exists st',
          step (EvBalancerStatusReceived this) st = Some st'
          /\ (post_startup_fallback_due (orphaned this calld st) ->
              fallback_mode_ st' = true
              /\ exists u, fallback_update st u
                           /\ child_updates st' = child_updates st ++ [u])
          /\ (~ post_startup_fallback_due (orphaned this calld st) ->
              fallback_mode_ st' = fallback_mode_ st
              /\ child_updates st' = child_updates st)).
Proof.
  intros Hreach. pose proof (reachable_Inv st Hreach) as Hinv.
  assert (Hcheck : forall s st2,
            Inv s -> shutting_down_ s = false -> config_ s <> None ->
            MaybeEnterFallbackModeAfterStartup s = Some st2 ->
            (post_startup_fallback_due s ->
             fallback_mode_ st2 = true
             /\ exists u, fallback_update s u
                          /\ child_updates st2 = child_updates s ++ [u])
            /\ (~ post_startup_fallback_due s ->
                fallback_mode_ st2 = fallback_mode_ s
                /\ child_updates st2 = child_updates s)).
  { intros s st2 Is Hsd Hcfg Hm.
    destruct (MaybeEnterFallbackModeAfterStartup_spec s Is Hsd Hcfg) as [Hdue Hnot].
    split.
    - intros Hd. destruct (Hdue Hd) as (u & Hu & Hm'). rewrite Hm in Hm'.
      injection Hm' as ->. split; [done |]. exists u. split; [done |].
      by rewrite child_updates_child_updated.
    - intros Hn. rewrite (Hnot Hn) in Hm. by injection Hm as <-. }
  split.
  - intros state status picker Hsd Hchild.
    set (s0 := set_child_policy_ready_ (is_READY state) st).
    assert (I0 : Inv s0) by (subst s0; inv_intro Hinv).
    assert (Hcfg : config_ s0 <> None) by by apply (inv_child_config st Hinv).
    destruct (MaybeEnterFallbackModeAfterStartup_total s0 I0 Hsd Hcfg) as [st2 Hm].
    pose proof (MaybeEnterFallbackModeAfterStartup_Inv s0 st2 I0 Hm) as I2.
    destruct (lb_calld_client_stats_is_Some st2 I2) as [cs Hcs].
    assert (Hdrops : exists all_drops,
              match serverlist_ st2 with
              | None => Some false
              | Some p =>
                  if is_READY state then Some false
                  else sl ← serverlists (heap st2) !! p;
                       Some (Serverlist.ContainsAllDropEntries sl)
              end = Some all_drops).
    { destruct (serverlist_ st2) as [p |] eqn:Hp; [| eauto].
      destruct (is_READY state); [eauto |].
      destruct (lookup_lt_is_Some_2 _ _ (inv_serverlist_live st2 I2 p Hp)) as [sl Hl].
      rewrite Hl. simpl. eauto. }
    destruct Hdrops as [all_drops Hdrops].
    eexists. split.
    { cbn [step]. unfold Helper_UpdateState. rewrite Hsd. fold s0.
      rewrite Hm. cbn [mbind option_bind]. rewrite Hdrops. cbn [mbind option_bind].
      rewrite Hcs. cbn [mbind option_bind]. reflexivity. }
    rewrite child_updates_emit. cbn [app]. rewrite app_nil_r.
    exact (Hcheck s0 st2 I0 Hsd Hcfg Hm).
  - intros this calld Hcur Hl Hpend.
    pose proof (inv_calld_not_shutting_down st Hinv this Hcur) as Hsd.
    pose proof (inv_calld_channel st Hinv this Hcur) as Hch.
    pose proof (inv_channel_config st Hinv Hch) as Hcfg.
    destruct (status_received_fallback_part st this calld Hinv Hcur Hl)
      as (st2 & H2 & I2 & Hsd2 & Hch2 & Hc2 & Hcalls2 & Hb2 & Hh2 & Hp2 & _ & Hm).
    specialize (Hm Hpend).
    pose proof (Hcheck (orphaned this calld st) st2
                  (Inv_orphaned st this calld Hinv Hpend) Hsd Hcfg Hm) as Hres.
    assert (Hcu : child_updates (orphaned this calld st) = child_updates st).
    { unfold child_updates, orphaned. simpl. rewrite omap_app. simpl.
      destruct (BalancerCallState.client_load_report_handle_ calld); simpl;
        by rewrite app_nil_r. }
    rewrite Hcu in Hres.
    assert (Hfinal : exists st',
              step (EvBalancerStatusReceived this) st = Some st'
              /\ fallback_mode_ st' = fallback_mode_ st2
              /\ child_updates st' = child_updates st2).
    { cbn [step]. rewrite (OnBalancerStatusReceivedLocked_current st this calld Hcur Hl).
      rewrite H2. cbn [mbind option_bind]. rewrite Hsd2.
      destruct (BalancerCallState.seen_initial_response_ calld).
      - rewrite StartBalancerCallLocked_fresh; [| simpl; congruence | done | done].
        eexists. split; [done |]. split; [done |].
        unfold child_updates, call_started, emit. simpl.
        rewrite !omap_app. simpl. by rewrite !app_nil_r.
      - eexists. split; [done |]. rewrite StartBalancerCallRetryTimerLocked_eq.
        split; [done |].
        unfold child_updates, emit. simpl.
        rewrite !omap_app. simpl. by rewrite !app_nil_r. }
    destruct Hfinal as (st' & Hs' & Hfm' & Hcu').
    exists st'. split; [done |]. rewrite Hfm', Hcu'. exact Hres.
Qed.

(** C5.  When the trailing status of the current balancer call
    arrives: if the call has seen an INITIAL response, the retry
    backoff is reset and a new balancer call is started at once;
    otherwise no call is started, the retry timer is armed with the
    next-attempt delay of the backoff, and from then on no event but
    the retry timer's callback starts a call.  Whenever it runs after
    that, the callback starts a call when there is no balancer call
    and the policy is not shutting down, and starts none otherwise. *)
Theorem call_end_retries st this calld :
  reachable st -> lb_calld_ st = Some this -> calls st !! this = Some calld ->
  exists st',
    step (EvBalancerStatusReceived this) st = Some st'
    /\ (BalancerCallState.seen_initial_response calld = true ->
        lb_call_backoff_ st' = BackOff_Reset (lb_call_backoff_ st)
        /\ lb_calld_ st' = Some (length (calls st))
        /\ calls st' = calls st ++ [BalancerCallState.make]
        /\ lb_call_retry_timer_handle_ st' = lb_call_retry_timer_handle_ st
        /\ exists before,
             effects st' = effects st ++ before ++ [CallStartQuery (length (calls st))])
    /\ (BalancerCallState.seen_initial_response calld = false ->
        lb_calld_ st' = None
        /\ calls st' = calls st
        /\ lb_call_backoff_ st'
           = snd (BackOff_NextAttemptDelay (lb_call_backoff_ st))
        /\ is_Some (lb_call_retry_timer_handle_ st')
        /\ (exists before,
              effects st'
              = effects st ++ before
                ++ [TimerRunAfter BalancerCallRetryTimer
                      (fst (BackOff_NextAttemptDelay (lb_call_backoff_ st)))])
        /\ (forall evs s,
              ~ In EvBalancerCallRetryTimer evs -> run evs st' = Some s ->
              lb_calld_ s = None))
    /\ (forall evs s,
          run evs st' = Some s ->
          exists s',
            step EvBalancerCallRetryTimer s = Some s'
            /\ (shutting_down_ s = false /\ lb_calld_ s = None ->
                lb_calld_ s' = Some (length (calls s))
                /\ calls s' = calls s ++ [BalancerCallState.make])
            /\ (shutting_down_ s = true \/ lb_calld_ s <> None ->
                lb_calld_ s' = lb_calld_ s /\ calls s' = calls s)).
Proof.
  intros Hreach Hcur Hl. pose proof (reachable_Inv st Hreach) as Hinv.
  pose proof (inv_calld_channel st Hinv this Hcur) as Hch.
  destruct (status_received_fallback_part st this calld Hinv Hcur Hl)
    as (st2 & H2 & I2 & Hsd2 & Hch2 & Hc2 & Hcalls2 & Hb2 & Hh2 & Hp2 & [new Hnew] & _).
  assert (Hstep : step (EvBalancerStatusReceived this) st
                  = if BalancerCallState.seen_initial_response_ calld
                    then Some (call_started
                                 (set_lb_call_backoff_
                                    (BackOff_Reset (lb_call_backoff_ st2))
                                    (emit ParentRequestReresolution st2)))
                    else Some (StartBalancerCallRetryTimerLocked
                                 (emit ParentRequestReresolution st2))).
  { cbn [step]. rewrite (OnBalancerStatusReceivedLocked_current st this calld Hcur Hl).
    rewrite H2. cbn [mbind option_bind]. rewrite Hsd2.
    destruct (BalancerCallState.seen_initial_response_ calld); [| done].
    rewrite StartBalancerCallLocked_fresh; [done | simpl; congruence | done | done]. }
  assert (Htimer : forall st',
            step (EvBalancerStatusReceived this) st = Some st' ->
            fallback_at_startup_checks_pending_ st' = false ->
            lb_channel_ st' <> None ->
            forall evs s,
              run evs st' = Some s ->
              exists s',
                step EvBalancerCallRetryTimer s = Some s'
                /\ (shutting_down_ s = false /\ lb_calld_ s = None ->
                    lb_calld_ s' = Some (length (calls s))
                    /\ calls s' = calls s ++ [BalancerCallState.make])
                /\ (shutting_down_ s = true \/ lb_calld_ s <> None ->
                    lb_calld_ s' = lb_calld_ s /\ calls s' = calls s)).
  { intros st' Hs' Hp' Hch' evs s Hrun.
    pose proof (step_Inv _ _ _ Hinv Hs') as I'.
    pose proof (run_checks_over evs st' s I' (or_introl (conj Hp' Hch')) Hrun) as Hover.
    cbn [step]. unfold OnBalancerCallRetryTimerLocked. simpl.
    destruct (shutting_down_ s) eqn:Hsd; simpl.
    { eexists. split; [done |]. split; [by intros [? _] | by simpl]. }
    destruct (lb_calld_ s) as [c |] eqn:Hc.
    { rewrite bool_decide_eq_false_2 by done.
      eexists. split; [done |]. split; [by intros [_ ?] | by simpl]. }
    rewrite bool_decide_eq_true_2 by done.
    destruct Hover as [[_ Hchs] | ?]; [| congruence].
    eexists. split; [by apply StartBalancerCallLocked_fresh |].
    split; [by simpl | by intros [? | ?]]. }
  unfold BalancerCallState.seen_initial_response.
  destruct (BalancerCallState.seen_initial_response_ calld) eqn:Hseen.
  - eexists. split; [exact Hstep |]. split; [| split; [done |]].
    + intros _. simpl. rewrite Hb2, Hcalls2, Hh2.
      repeat (split; [done |]).
      exists (new ++ [ParentRequestReresolution]). rewrite Hnew.
      by rewrite <- !app_assoc.
    + apply Htimer; [exact Hstep | by simpl | simpl; congruence].
  - pose (st1 := emit ParentRequestReresolution st2).
    assert (I3 : Inv (StartBalancerCallRetryTimerLocked st1)).
    { apply Inv_retry_timer, Inv_emit; done. }
    change (emit ParentRequestReresolution st2) with st1 in Hstep.
    exists (StartBalancerCallRetryTimerLocked st1).
    split; [exact Hstep |].
    assert (Hc3 : lb_calld_ (StartBalancerCallRetryTimerLocked st1) = None).
    { rewrite StartBalancerCallRetryTimerLocked_eq. by simpl. }
    assert (Hp3 : fallback_at_startup_checks_pending_
                    (StartBalancerCallRetryTimerLocked st1) = false).
    { rewrite StartBalancerCallRetryTimerLocked_eq. by simpl. }
    assert (Hch3 : lb_channel_ (StartBalancerCallRetryTimerLocked st1) <> None).
    { rewrite StartBalancerCallRetryTimerLocked_eq. simpl. congruence. }
    split; [done |]. split.
    + intros _. split; [exact Hc3 |].
      repeat apply conj.
      * rewrite StartBalancerCallRetryTimerLocked_eq. simpl. exact Hcalls2.
      * rewrite StartBalancerCallRetryTimerLocked_eq. simpl. by rewrite Hb2.
      * rewrite StartBalancerCallRetryTimerLocked_eq. simpl. by eexists.
      * exists (new ++ [ParentRequestReresolution]).
        rewrite StartBalancerCallRetryTimerLocked_eq. simpl.
        rewrite Hnew, Hb2. by rewrite <- !app_assoc.
      * intros evs s Hnot Hrun.
        eapply (run_between_calls evs _ s); [exact I3 | | exact Hnot | exact Hrun].
        split; [exact Hc3 |]. left. exact Hch3.
    + apply Htimer; [exact Hstep | exact Hp3 | exact Hch3].
Qed.

(** [UpdateLocked] returns for every update that has a config: the
    status is the one of the balancer address list, and the balancer
    channel has been updated on the way. *)
Lemma UpdateLocked_total st a config :
  Inv st -> UpdateArgs.config a = Some config ->
  exists st' more,
    UpdateLocked st a = Some (update_status a, st')
    /\ effects st'
       = effects (channel_updated (settings_updated a config st)) ++ more
    /\ lb_channel_ st' <> None.
Proof.
  intros Hinv Hcfg. unfold UpdateLocked. rewrite Hcfg.
  fold (settings_updated a config st).
  rewrite UpdateBalancerChannelLocked_eq.
  change (args_ (settings_updated a config st)) with (UpdateArgs.args a).
  fold (update_status a).
  pose proof (Inv_channel_updated st a config Hinv) as I4.
  set (st4 := channel_updated (settings_updated a config st)) in *.
  assert (Hch4 : lb_channel_ st4 <> None) by done.
  assert (Hc4 : lb_calld_ st4 = lb_calld_ st) by done.
  assert (Hcfg4 : config_ st4 <> None) by done.
  clearbody st4.
  assert (H5 : exists st5 more,
             (if child_policy_ st4 then CreateOrUpdateChildPolicyLocked st4
              else Some st4) = Some st5
             /\ effects st5 = effects st4 ++ more /\ frame st4 st5).
  { destruct (child_policy_ st4) eqn:Hcp.
    - assert (Ht : is_Some (CreateOrUpdateChildPolicyLocked st4)).
      { destruct (shutting_down_ st4) eqn:Hsd.
        - rewrite CreateOrUpdateChildPolicyLocked_shutting_down by done. by eexists.
        - apply CreateOrUpdateChildPolicyLocked_total; [done | done | done |].
          by apply (inv_child_serverlist st4 I4). }
      destruct Ht as [st5 H5]. exists st5.
      pose proof (CreateOrUpdateChildPolicyLocked_frame _ _ H5) as (Hf & _).
      apply CreateOrUpdateChildPolicyLocked_inv in H5 as Hc.
      destruct Hc as [[-> _] | (_ & _ & u & _ & ->)].
      + exists []. by rewrite app_nil_r.
      + eexists. split; [done |]. split; [| done]. by simpl.
    - exists st4, []. rewrite app_nil_r. split; [done |]. split; [done |].
      apply frame_refl. }
  destruct H5 as (st5 & more5 & -> & He5 & Hsd5 & Hch5 & Hc5 & _).
  cbn [mbind option_bind].
  destruct (bool_decide (lb_channel_ st = None)) eqn:Hini.
  - apply bool_decide_eq_true_1 in Hini.
    assert (Hc : lb_calld_ st = None).
    { destruct (lb_calld_ st) as [c |] eqn:Hc; [| done].
      by destruct (inv_calld_channel st Hinv c Hc). }
    unfold RunAfter. cbn [mbind option_bind].
    unfold StartBalancerCallLocked. simpl. rewrite Hch5.
    destruct (lb_channel_ st4); [| done].
    destruct (shutting_down_ st5).
    + simpl. eexists _, _. split; [done |]. simpl. rewrite He5.
      split; [by rewrite <- !app_assoc | by rewrite Hch5].
    + rewrite Hc5, Hc4, Hc. simpl.
      eexists _, _. split; [done |]. simpl. rewrite He5.
      split; [by rewrite <- !app_assoc | by rewrite Hch5].
  - simpl. exists st5, more5. split; [done |]. split; [done |]. by rewrite Hch5.
Qed.

(** C6.  An update that has a config returns: the status is an error
    exactly when the balancer address list of the update is empty, and
    the error is then the unavailable one; a non-empty list gives OK.
    Either way the balancer channel is acted on: it is created when
    the policy had none, it is sent the balancer address list, empty
    or not, and it exists afterwards. *)
Theorem UpdateLocked_status st a config :
  reachable st -> UpdateArgs.config a = Some config ->
  exists status st',
    UpdateLocked st a = Some (status, st')
    /\ (Status_ok status = false
        <-> ExtractBalancerAddresses (UpdateArgs.args a) = [])
    /\ (Status_ok status = false ->
        status = ErrorStatus kUnavailable "balancer address list must be non-empty")
    /\ (ExtractBalancerAddresses (UpdateArgs.args a) <> [] -> status = OkStatus)
    /\ (exists after,
          effects st'
          = effects st
            ++ match lb_channel_ st with
               | None => [ChannelCreate ("fake:///" +:+ authority_ st)]
               | Some _ => []
               end
            ++ SetResponseAsync (ExtractBalancerAddresses (UpdateArgs.args a))
               :: after)
    /\ lb_channel_ st' <> None.
Proof.
  intros Hreach Hcfg. pose proof (reachable_Inv st Hreach) as Hinv.
  destruct (UpdateLocked_total st a config Hinv Hcfg) as (st' & more & Hu & He & Hch).
  exists (update_status a), st'. split; [exact Hu |].
  unfold update_status.
  destruct (ExtractBalancerAddresses (UpdateArgs.args a)) as [| b bs] eqn:Hb.
  - repeat split; try done.
    exists more. rewrite He. simpl. rewrite Hb.
    destruct (lb_channel_ st); simpl; by rewrite <- !app_assoc.
  - repeat split; try done.
    exists more. rewrite He. simpl. rewrite Hb.
    destruct (lb_channel_ st); simpl; by rewrite <- !app_assoc.
Qed.

(** The argument an endpoint of a serverlist iterator carries: the
    token read off the token array of its entry, and the stats handle
    of the iterator. *)
Lemma serverlist_endpoint_arg (sl : Serverlist.t) (client_stats : option StatsPtr)
    (e : EndpointAddresses) :
  In e (EndpointAddressesIterator.endpoints
          (GetServerAddressList sl client_stats)) ->
  exists server arg,
    In server (Serverlist.serverlist_ sl)
    /\ drop server = false
    /\ is_valid_entry server = true
    /\ e = endpoint_of client_stats server
    /\ ChannelArgs.GetObject (args e) = Some arg
    /\ bytes_before_NUL (load_balance_token server)
         GRPC_GRPCLB_SERVER_LOAD_BALANCE_TOKEN_MAX_SIZE
         (TokenAndClientStatsArg.lb_token arg)
    /\ TokenAndClientStatsArg.lb_token arg = lb_token_of server
    /\ TokenAndClientStatsArg.client_stats arg = client_stats.
Proof.
  unfold GetServerAddressList. rewrite AddressIterator_endpoints.
  intros He. apply List.in_map_iff in He as (server & <- & Hin).
  apply List.filter_In in Hin as [Hin Hv].
  exists server. eexists. split; [done |]. split.
  { unfold is_valid_entry in Hv. by apply IsServerValid_iff in Hv as (? & _). }
  split; [done |]. split; [done |].
  split; [apply GetObject_SetObject |]. simpl.
  split; [apply read_bytes_before_NUL | done].
Qed.

(** The stats handle of the current balancer call, if there is one. *)
Lemma lb_calld_client_stats_current st client_stats :
  lb_calld_client_stats st = Some client_stats ->
  (lb_calld_ st = None -> client_stats = None)
  /\ (forall calld c,
        lb_calld_ st = Some calld -> calls st !! calld = Some c ->
        client_stats = BalancerCallState.client_stats_ c).
Proof.
  unfold lb_calld_client_stats. destruct (lb_calld_ st) as [calld |].
  - intros Hcs. apply bind_Some in Hcs as (c & Hc & [= <-]).
    split; [done |]. intros calld' c' [= <-] Hc'.
    rewrite Hc in Hc'. by injection Hc' as <-.
  - intros [= <-]. done.
Qed.

(** C9.  In every state the policy reaches, every endpoint of every
    update it has handed to its child policy carries a
    [TokenAndClientStatsArg] in its channel args, so
    [Helper::CreateSubchannel] does not crash on the args of such an
    endpoint.  An endpoint of a serverlist iterator stands for an
    entry of the iterator's serverlist that is no drop entry, and
    carries the LB token read off the token array of that entry (its
    bytes up to the first NUL, 50 at most) and the stats handle of the
    iterator; an endpoint of the fallback iterator carries the empty
    token and no stats.  When the policy updates its child outside
    fallback mode, the serverlist of the iterator is the policy's
    current one and the stats handle is the one of the balancer call
    [lb_calld_] points at, null when there is no call: this is what
    every endpoint of the update carries. *)
Theorem child_endpoints_carry_token_arg st :
  reachable st ->
  (forall u it e,
     In u (child_updates st) ->
     ChildUpdateArgs.addresses u = IsOk it ->
     In e (EndpointAddressesIterator.endpoints it) ->
     (exists arg,
        ChannelArgs.GetObject (args e) = Some arg
        /\ match it with
           | EndpointAddressesIterator.OfServerlist sit =>
               exists server,
                 In server (Serverlist.serverlist_ (AddressIterator.serverlist_ sit))
                 /\ drop server = false
                 /\ is_valid_entry server = true
                 /\ e = endpoint_of (AddressIterator.client_stats_ sit) server
                 /\ bytes_before_NUL (load_balance_token server)
                      GRPC_GRPCLB_SERVER_LOAD_BALANCE_TOKEN_MAX_SIZE
                      (TokenAndClientStatsArg.lb_token arg)
                 /\ TokenAndClientStatsArg.lb_token arg = lb_token_of server
                 /\ TokenAndClientStatsArg.client_stats arg
                    = AddressIterator.client_stats_ sit
           | EndpointAddressesIterator.OfFallback _ =>
               TokenAndClientStatsArg.lb_token arg = ""
               /\ TokenAndClientStatsArg.client_stats arg = None
           end)
     /\ forall s address created,
          Helper_CreateSubchannel s address (args e) created <> None)
  /\ (forall st',
        shutting_down_ st = false -> fallback_mode_ st = false ->
        CreateOrUpdateChildPolicyLocked st = Some st' ->
        exists u p sl client_stats,
          child_updates st' = child_updates st ++ [u]
          /\ serverlist_ st = Some p
          /\ serverlists (heap st) !! p = Some sl
          /\ lb_calld_client_stats st = Some client_stats
          /\ ChildUpdateArgs.addresses u
             = IsOk (EndpointAddressesIterator.OfServerlist
                       {| AddressIterator.serverlist_ := sl;
                          AddressIterator.client_stats_ := client_stats |})
          /\ (lb_calld_ st = None -> client_stats = None)
          /\ (forall calld c,
                lb_calld_ st = Some calld -> calls st !! calld = Some c ->
                client_stats = BalancerCallState.client_stats_ c)
          /\ forall e,
               In e (EndpointAddressesIterator.endpoints
                       (EndpointAddressesIterator.OfServerlist
                          {| AddressIterator.serverlist_ := sl;
                             AddressIterator.client_stats_ := client_stats |})) ->
               exists server arg,
                 In server (Serverlist.serverlist_ sl)
                 /\ drop server = false
                 /\ ChannelArgs.GetObject (args e) = Some arg
                 /\ bytes_before_NUL (load_balance_token server)
                      GRPC_GRPCLB_SERVER_LOAD_BALANCE_TOKEN_MAX_SIZE
                      (TokenAndClientStatsArg.lb_token arg)
                 /\ (lb_calld_ st = None ->
                     TokenAndClientStatsArg.client_stats arg = None)
                 /\ (forall calld c,
                       lb_calld_ st = Some calld -> calls st !! calld = Some c ->
                       TokenAndClientStatsArg.client_stats arg
                       = BalancerCallState.client_stats_ c)).
Proof.
  intros Hreach. pose proof (reachable_Inv st Hreach) as Hinv. split.
  - intros u it e Hu Hadd He.
    pose proof (child_endpoint_arg st u it e Hinv Hu Hadd He) as Harg.
    assert (Hget : exists arg, ChannelArgs.GetObject (args e) = Some arg).
    { destruct it; [destruct Harg as (? & _ & _ & _ & ->) | rewrite Harg]; by eexists. }
    split.
    + destruct it as [[sl cs] | fit].
      * destruct (serverlist_endpoint_arg sl cs e He)
          as (server & arg & Hin & Hd & Hv & -> & Hg & Hb & Htok & Hcs).
        exists arg. split; [exact Hg |]. by exists server.
      * eexists. split; [exact Harg |]. done.
    + intros s address created. destruct Hget as [arg Hg].
      rewrite (Helper_CreateSubchannel_arg s address (args e) created arg Hg).
      by destruct (shutting_down_ s).
  - intros st' Hsd Hfm Hc.
    apply CreateOrUpdateChildPolicyLocked_inv in Hc
      as [[_ Hsd'] | (_ & _ & u & Hu & ->)]; [congruence |].
    unfold update_addresses_of in Hu. rewrite Hfm in Hu.
    destruct Hu as (p & sl & cs & Hp & Hsl & Hcs & Hadd).
    destruct (lb_calld_client_stats_current st cs Hcs) as [Hnone Hcur].
    exists u, p, sl, cs. split; [apply child_updates_child_updated |].
    split; [done |]. split; [done |]. split; [done |]. split; [done |].
    split; [done |]. split; [done |].
    intros e He.
    destruct (serverlist_endpoint_arg sl cs e He)
      as (server & arg & Hin & Hd & _ & _ & Hg & Hb & _ & Hacs).
    exists server, arg. rewrite Hacs. done.
Qed.

(** C10.  On a pick the child picker completes, the picker returns a
    complete pick whose metadata mutations are the child's followed by
    the entries the picker adds.  Among the added entries there is an
    lb-token entry exactly when the LB token of the picked subchannel
    wrapper is not empty, and it then holds that token; there is a
    grpclb-client-stats entry exactly when the wrapper has a stats
    object, and the call tracker is then the one that releases these
    stats, whatever the token is; without a stats object the child's
    call tracker is passed on.  A wrapper made for an endpoint of the
    fallback iterator has the empty token and no stats, so the picker
    adds nothing for it. *)
Theorem Pick_complete_metadata self h a c :
  Picker_refs_valid self h ->
  Picker_drop_token self h = None ->
  ChildPicker.decide (Picker.child_picker_ self)
    (ChildPicker.consulted (Picker.child_picker_ self)) a
  = PickResult.IsComplete c ->
  exists self' h' tracker added,
    Picker.Pick self a h
    = Some (PickResult.IsComplete
              {| PickResult.subchannel :=
                   SubchannelWrapper.wrapped_subchannel (PickResult.subchannel c);
                 PickResult.subchannel_call_tracker := tracker;
                 PickResult.metadata_mutations :=
                   PickResult.metadata_mutations c ++ added |},
            self', h')
    /\ (MetadataMutations.sets_key LbTokenMetadata_key added
        <-> SubchannelWrapper.lb_token (PickResult.subchannel c) <> "")
    /\ (SubchannelWrapper.lb_token (PickResult.subchannel c) <> "" ->
        In (LbTokenMetadata_key,
            SliceBytes (SubchannelWrapper.lb_token (PickResult.subchannel c)))
           added)
    /\ (MetadataMutations.sets_key GrpcLbClientStatsMetadata_key added
        <-> SubchannelWrapper.client_stats (PickResult.subchannel c) <> None)
    /\ (forall q,
          SubchannelWrapper.client_stats (PickResult.subchannel c) = Some q ->
          tracker = Some (SubchannelCallTracker q
                            (PickResult.subchannel_call_tracker c))
          /\ In (GrpcLbClientStatsMetadata_key, SliceStaticPointer q) added)
    /\ (SubchannelWrapper.client_stats (PickResult.subchannel c) = None ->
        tracker = PickResult.subchannel_call_tracker c)
    /\ (forall st u fit e s address created,
          reachable st -> In u (child_updates st) ->
          ChildUpdateArgs.addresses u
          = IsOk (EndpointAddressesIterator.OfFallback fit) ->
          In e (EndpointAddressesIterator.endpoints
                  (EndpointAddressesIterator.OfFallback fit)) ->
          Helper_CreateSubchannel s address (args e) created
          = Some (Some (PickResult.subchannel c)) ->
          added = [] /\ tracker = PickResult.subchannel_call_tracker c).
Proof.
  intros Hv Htok Hd.
  destruct (Pick_delegated self h a Hv Htok) as (h' & Hpick & _).
  rewrite Hd in Hpick. simpl in Hpick.
  eexists _, h', _, (Picker_added_metadata (PickResult.subchannel c)).
  split; [exact Hpick |].
  split; [apply sets_key_added_lb_token |]. split.
  { intros Hne. unfold Picker_added_metadata. apply in_or_app. right.
    destruct (String.eqb_spec (SubchannelWrapper.lb_token (PickResult.subchannel c)) "");
      [done | by left]. }
  split; [apply sets_key_added_client_stats |]. split.
  { intros q Hq. unfold Picker_added_metadata. rewrite Hq. split; [done |].
    apply in_or_app. left. by left. }
  split; [by intros -> |].
  intros st u fit e s address created Hreach Hu Hadd He Hcreate.
  pose proof (child_endpoint_arg st u _ e (reachable_Inv st Hreach) Hu Hadd He) as Hg.
  simpl in Hg.
  rewrite (Helper_CreateSubchannel_arg s address (args e) created _ Hg) in Hcreate.
  destruct (shutting_down_ s); [done |]. injection Hcreate as <-.
  by unfold Picker_added_metadata.
Qed.

(** * Further properties of the code *)

(** ** The serverlist and its iterators *)

Lemma ShouldDrop_times_tokens (k : nat) (entries : list GrpcLbServer) (d : Z) :
  entries <> [] -> 0 <= d -> d + Z.of_nat k <= Int.SIZE_MAX ->
  ShouldDrop_times k {| Serverlist.serverlist_ := entries; Serverlist.drop_index_ := d |}
  = (map (fun i : nat =>
            entries !! Z.to_nat ((d + Z.of_nat i) mod Z.of_nat (length entries))
            ≫= drop_token_of)
         (seq 0 k),
     {| Serverlist.serverlist_ := entries;
        Serverlist.drop_index_ := d + Z.of_nat k |}).
Proof.
  intros Hne. revert d. induction k as [| k IH]; intros d Hd Hk.
  - simpl. by rewrite Z.add_0_r.
  - cbn [ShouldDrop_times].
    destruct (ShouldDrop_nonempty
                {| Serverlist.serverlist_ := entries; Serverlist.drop_index_ := d |} Hne)
      as (server & Hs & ->). simpl in Hs |- *.
    rewrite size_add_no_overflow by lia.
    rewrite (IH (d + 1)) by lia.
    rewrite Z.add_0_r, Hs. simpl. f_equal.
    + f_equal. rewrite <- seq_shift, map_map. apply map_ext. intros i.
      by replace (d + 1 + Z.of_nat i) with (d + Z.of_nat (S i)) by lia.
    + f_equal. lia.
Qed.

Lemma filter_rotate_length {A : Type} (f : A -> bool) (n : nat) (l : list A) :
  length (List.filter f (rotate n l)) = length (List.filter f l).
Proof.
  unfold rotate. rewrite List.filter_app, length_app, Nat.add_comm.
  rewrite <- length_app, <- List.filter_app. by rewrite take_drop.
Qed.

Lemma filter_drop_token_length (l : list GrpcLbServer) :
  length (List.filter is_drop_token
            (map drop_token_of l))
  = length (List.filter drop l).
Proof.
  induction l as [| s l IH]; [done |]. simpl. unfold drop_token_of at 1.
  destruct (drop s); simpl; by rewrite IH.
Qed.

(** X1.  [ShouldDrop] goes round the entries: on a non-empty
    serverlist whose drop index cannot wrap during the calls, as many
    successive calls as there are entries return the drop tokens of
    the entries in order, starting at the entry the index points at
    and wrapping round; so exactly as many of these calls return a
    token as there are drop entries.  The entries are left as they
    are and the index has advanced by their number. *)
Theorem ShouldDrop_full_cycle (sl : Serverlist.t) :
  Serverlist.serverlist_ sl <> [] ->
  0 <= Serverlist.drop_index_ sl ->
  Serverlist.drop_index_ sl + Z.of_nat (length (Serverlist.serverlist_ sl))
  <= Int.SIZE_MAX ->
  fst (ShouldDrop_times (length (Serverlist.serverlist_ sl)) sl)
  = map drop_token_of
        (rotate (Z.to_nat (Serverlist.drop_index_ sl)) (Serverlist.serverlist_ sl))
  /\ length (List.filter is_drop_token
               (fst (ShouldDrop_times (length (Serverlist.serverlist_ sl)) sl)))
     = length (List.filter drop (Serverlist.serverlist_ sl))
  /\ snd (ShouldDrop_times (length (Serverlist.serverlist_ sl)) sl)
     = {| Serverlist.serverlist_ := Serverlist.serverlist_ sl;
          Serverlist.drop_index_ :=
            Serverlist.drop_index_ sl + Z.of_nat (length (Serverlist.serverlist_ sl)) |}.
Proof.
  destruct sl as [entries d]. simpl. intros Hne Hd Hk.
  rewrite (ShouldDrop_times_tokens (length entries) entries d Hne Hd Hk). simpl.
  assert (Htok : map (fun i : nat =>
                        entries
                          !! Z.to_nat ((d + Z.of_nat i) mod Z.of_nat (length entries))
                        ≫= drop_token_of)
                     (seq 0 (length entries))
                 = map drop_token_of (rotate (Z.to_nat d) entries)).
  { apply list_eq. intros i. rewrite !list_lookup_fmap.
    destruct (decide (i < length entries)%nat) as [Hi | Hi].
    - rewrite lookup_seq_lt by done. simpl.
      rewrite lookup_rotate_r by done. unfold rotate_nat_add.
      rewrite Z2Nat.id by done.
      destruct (lookup_lt_is_Some_2 entries
                  (Z.to_nat ((d + Z.of_nat i) mod Z.of_nat (length entries))))
        as [s Hs]; [apply drop_slot_in_range; done |].
      by rewrite Hs.
    - rewrite lookup_seq_ge by lia.
      rewrite (lookup_ge_None_2 (rotate _ _)); [done |].
      rewrite length_rotate. lia. }
  split; [exact Htok |]. split; [| done].
  rewrite Htok, filter_drop_token_length. apply filter_rotate_length.
Qed.

Lemma forallb_drop_no_valid (entries : list GrpcLbServer) :
  forallb drop entries = true -> List.filter is_valid_entry entries = [].
Proof.
  induction entries as [| s l IH]; [done |]. simpl.
  intros [Hs Hl]%andb_true_iff. unfold is_valid_entry at 1, IsServerValid.
  rewrite Hs. by apply IH.
Qed.

Lemma ContainsAllDropEntries_iff (sl : Serverlist.t) :
  Serverlist.ContainsAllDropEntries sl = true
  <-> Serverlist.serverlist_ sl <> []
      /\ Forall (fun server => drop server = true) (Serverlist.serverlist_ sl).
Proof.
  unfold Serverlist.ContainsAllDropEntries.
  destruct (Serverlist.serverlist_ sl) as [| s l] eqn:E.
  - split; [done | by intros [? _]].
  - rewrite forallb_forall, List.Forall_forall. split; [by intros H | by intros [_ H]].
Qed.

Lemma fold_left_absorbs {A : Type} (f : bool -> A -> bool) (l : list A) (b : bool) :
  (forall b' x, f b' x = false) -> l <> [] -> fold_left f l b = false.
Proof.
  intros Hf. revert b. induction l as [| x l IH]; intros b Hne; [done |]. simpl.
  destruct l as [| y l']; [apply Hf |]. by apply IH.
Qed.

(** An iteration over a serverlist calls back on the endpoints of its
    valid entries, in order. *)
Lemma AddressIterator_loop_fold {A : Type} (it : AddressIterator.t)
    (callback : EndpointAddresses -> A -> A) (remaining i : nat) (acc : A) :
  (i + remaining = length (Serverlist.serverlist_ (AddressIterator.serverlist_ it)))%nat ->
  AddressIterator.loop it callback remaining i acc
  = fold_left (fun a e => callback e a)
      (map (endpoint_of (AddressIterator.client_stats_ it))
         (List.filter is_valid_entry
            (skipn i (Serverlist.serverlist_ (AddressIterator.serverlist_ it)))))
      acc.
Proof.
  revert i acc. induction remaining as [| r IH]; intros i acc Hlen; simpl.
  - by rewrite skipn_all2 by lia.
  - destruct (lookup_lt_is_Some_2
                (Serverlist.serverlist_ (AddressIterator.serverlist_ it)) i)
      as [server Hs]; [lia |].
    rewrite IH by lia. rewrite (drop_S _ _ _ Hs). simpl.
    unfold AddressIterator.visit. rewrite Hs. simpl.
    unfold is_valid_entry. rewrite (IsServerValid_ignores_position server i false O false).
    by destruct (IsServerValid server O false).
Qed.

Lemma ForEach_fold {A : Type} (it : EndpointAddressesIterator.t)
    (callback : EndpointAddresses -> A -> A) (acc : A) :
  EndpointAddressesIterator.ForEach it callback acc
  = fold_left (fun a e => callback e a) (EndpointAddressesIterator.endpoints it) acc.
Proof.
  destruct it as [[sl cs] | fit].
  - rewrite AddressIterator_endpoints. simpl. unfold AddressIterator.ForEach.
    by rewrite AddressIterator_loop_fold.
  - rewrite NullLbTokenEndpointIterator_endpoints. simpl.
    unfold NullLbTokenEndpointIterator.ForEach.
    generalize (NullLbTokenEndpointIterator.parent_it_ fit). intros l. revert acc.
    induction l as [| e l IH]; intros acc; [done |]. simpl. by rewrite IH.
Qed.

Lemma EndpointIteratorIsEmpty_endpoints (it : EndpointAddressesIterator.t) :
  EndpointIteratorIsEmpty it
  = match EndpointAddressesIterator.endpoints it with [] => true | _ => false end.
Proof.
  unfold EndpointIteratorIsEmpty. rewrite ForEach_fold.
  destruct (EndpointAddressesIterator.endpoints it) as [| e l]; [done |].
  by rewrite fold_left_absorbs.
Qed.

(** X2.  [ContainsAllDropEntries] holds exactly of the non-empty
    serverlists all of whose entries are drop entries.  On such a
    serverlist every call of [ShouldDrop] returns a token, whatever
    the drop index, and the address iterator emits no endpoint, so
    [EndpointIteratorIsEmpty] holds of it. *)
Theorem all_drop_serverlist (sl : Serverlist.t) (client_stats : option StatsPtr) :
  (Serverlist.ContainsAllDropEntries sl = true
   <-> Serverlist.serverlist_ sl <> []
       /\ Forall (fun server => drop server = true) (Serverlist.serverlist_ sl))
  /\ (Serverlist.ContainsAllDropEntries sl = true ->
      (exists token, fst (Serverlist.ShouldDrop sl) = Some token)
      /\ EndpointAddressesIterator.endpoints
           (GrpcLb.GetServerAddressList sl client_stats) = []
      /\ EndpointIteratorIsEmpty (GrpcLb.GetServerAddressList sl client_stats) = true).
Proof.
  pose proof (ContainsAllDropEntries_iff sl) as Hiff.
  split; [exact Hiff |]. intros Hall.
  destruct (proj1 Hiff Hall) as [Hne Hdrop].
  assert (Hnone : List.filter is_valid_entry (Serverlist.serverlist_ sl) = []).
  { apply forallb_drop_no_valid. rewrite forallb_forall.
    by rewrite List.Forall_forall in Hdrop. }
  split; [| split].
  - destruct (ShouldDrop_nonempty sl Hne) as (server & Hs & ->). simpl.
    rewrite List.Forall_forall in Hdrop.
    rewrite (Hdrop server); [by eexists |].
    apply list_elem_of_In, list_elem_of_lookup. by eexists.
  - unfold GrpcLb.GetServerAddressList. rewrite AddressIterator_endpoints.
    by rewrite Hnone.
  - unfold EndpointIteratorIsEmpty, GrpcLb.GetServerAddressList. simpl.
    unfold AddressIterator.ForEach. simpl.
    assert (Hloop : forall remaining i acc,
              AddressIterator.loop
                {| AddressIterator.serverlist_ := sl;
                   AddressIterator.client_stats_ := client_stats |}
                (fun _ _ => false) remaining i acc = acc).
    { induction remaining as [| r IH]; intros i acc; [done |]. simpl.
      rewrite IH. unfold AddressIterator.visit. simpl.
      destruct (Serverlist.serverlist_ sl !! i) as [server |] eqn:Hs; [| done].
      rewrite List.Forall_forall in Hdrop.
      unfold IsServerValid. rewrite (Hdrop server); [done |].
      apply list_elem_of_In, list_elem_of_lookup. by eexists. }
    apply Hloop.
Qed.

(** X3.  The fallback iterator made for a resolver's endpoints emits
    one endpoint per resolver endpoint, in the same order and with the
    same addresses; its args are the resolver's with the token
    argument set to the empty token without stats, in place of a
    token argument the resolver's endpoint may have had, and all other
    args as they were.  The iteration is empty exactly when the
    resolver gave no endpoint. *)
Theorem NullLbTokenEndpointIterator_wraps (parent : list EndpointAddresses) :
  EndpointAddressesIterator.endpoints
    (EndpointAddressesIterator.OfFallback (NullLbTokenEndpointIterator.make parent))
  = map with_empty_token parent
  /\ (forall i endpoint,
        parent !! i = Some endpoint ->
        exists wrapped,
          EndpointAddressesIterator.endpoints
            (EndpointAddressesIterator.OfFallback
               (NullLbTokenEndpointIterator.make parent)) !! i = Some wrapped
          /\ addresses wrapped = addresses endpoint
          /\ ChannelArgs.GetObject (args wrapped) = Some empty_token
          /\ forall name,
               name <> TokenAndClientStatsArg.ChannelArgName ->
               args wrapped !! name = args endpoint !! name)
  /\ (EndpointIteratorIsEmpty
        (EndpointAddressesIterator.OfFallback (NullLbTokenEndpointIterator.make parent))
      = true <-> parent = []).
Proof.
  assert (He : EndpointAddressesIterator.endpoints
                 (EndpointAddressesIterator.OfFallback
                    (NullLbTokenEndpointIterator.make parent))
               = map with_empty_token parent).
  { by rewrite NullLbTokenEndpointIterator_endpoints. }
  split; [exact He |]. split.
  - intros i endpoint Hi. exists (with_empty_token endpoint).
    rewrite He, list_lookup_fmap, Hi. split; [done |]. split; [done |].
    split; [apply GetObject_SetObject |].
    intros name Hne. simpl. unfold ChannelArgs.SetObject.
    by rewrite lookup_insert_ne.
  - unfold EndpointIteratorIsEmpty. simpl.
    unfold NullLbTokenEndpointIterator.ForEach. simpl.
    destruct parent as [| e l]; [done |].
    split; [| done]. intros Hf. exfalso.
    rewrite fold_left_absorbs in Hf; done.
Qed.

(** *** No handler crashes *)

Lemma ShutdownLocked_total st : Inv st -> is_Some (ShutdownLocked st).
Proof.
  intros Hinv. unfold ShutdownLocked.
  assert (H1 : exists st1,
             reset_lb_calld (set_shutting_down_ true st) = Some st1
             /\ fallback_at_startup_checks_pending_ st1
                = fallback_at_startup_checks_pending_ st
             /\ lb_fallback_timer_handle_ st1 = lb_fallback_timer_handle_ st
             /\ lb_channel_ st1 = lb_channel_ st).
  { destruct (lb_calld_ st) as [calld |] eqn:Hc.
    - destruct (lookup_lt_is_Some_2 _ _ (inv_calld_live st Hinv calld Hc)) as [c Hl].
      exists (orphaned calld c (set_shutting_down_ true st)).
      split; [by apply reset_lb_calld_current | done].
    - exists (set_shutting_down_ true st).
      split; [| done]. unfold reset_lb_calld. simpl. by rewrite Hc. }
  destruct H1 as (st1 & -> & Hp1 & Hh1 & Hch1). cbn [mbind option_bind].
  set (st2 := match lb_call_retry_timer_handle_ st1 with
              | Some handle => emit (TimerCancel handle) st1
              | None => st1
              end).
  assert (H2 : fallback_at_startup_checks_pending_ st2
               = fallback_at_startup_checks_pending_ st
               /\ lb_fallback_timer_handle_ st2 = lb_fallback_timer_handle_ st
               /\ lb_channel_ st2 = lb_channel_ st).
  { subst st2. by destruct (lb_call_retry_timer_handle_ st1). }
  destruct H2 as (Hp2 & Hh2 & Hch2). clearbody st2.
  destruct (fallback_at_startup_checks_pending_ st2) eqn:Hp; [| by eexists].
  rewrite Hp2 in Hp.
  destruct (cancel_fallback_at_startup_checks_total st2) as (handle & _ & ->).
  - rewrite Hh2. by apply (inv_pending_handle st Hinv).
  - rewrite Hch2. by apply (inv_pending_channel st Hinv).
  - by eexists.
Qed.

Lemma OnFallbackTimerLocked_total st : Inv st -> is_Some (OnFallbackTimerLocked st).
Proof.
  intros Hinv. unfold OnFallbackTimerLocked.
  destruct (fallback_at_startup_checks_pending_ st) eqn:Hp;
    destruct (shutting_down_ st) eqn:Hsd; simpl; try by eexists.
  pose proof (inv_pending_channel st Hinv Hp) as Hch.
  unfold CancelBalancerChannelConnectivityWatchLocked. simpl.
  destruct (lb_channel_ st) as [ch |] eqn:Ech; [| done]. simpl.
  destruct (fallback_entered
              (emit RemoveConnectivityWatcher
                 (set_fallback_at_startup_checks_pending_ false st)))
    as (u & _ & ->); [| done | | by eexists].
  - clear Ech. inv_intro Hinv.
  - simpl. apply (inv_channel_config st Hinv). by rewrite Ech.
Qed.

Lemma StateWatcher_OnConnectivityStateChange_total st new_state :
  Inv st -> is_Some (StateWatcher_OnConnectivityStateChange st new_state).
Proof.
  intros Hinv. unfold StateWatcher_OnConnectivityStateChange.
  destruct (fallback_at_startup_checks_pending_ st) eqn:Hp; [| by eexists].
  destruct (is_TRANSIENT_FAILURE new_state); simpl; [| by eexists].
  pose proof (inv_pending_channel st Hinv Hp) as Hch.
  pose proof (inv_pending_handle st Hinv Hp) as Hh.
  pose proof (inv_pending_calld st Hinv Hp) as Hcalld.
  unfold CancelFallbackTimer. simpl.
  destruct (lb_fallback_timer_handle_ st) as [handle |] eqn:Eh; [| done]. simpl.
  destruct (shutting_down_ st) eqn:Hsd.
  - rewrite CreateOrUpdateChildPolicyLocked_shutting_down by done. simpl.
    unfold CancelBalancerChannelConnectivityWatchLocked. simpl.
    destruct (lb_channel_ st); [by eexists | done].
  - destruct (fallback_entered
                (emit (TimerCancel handle)
                   (set_fallback_at_startup_checks_pending_ false st)))
      as (u & _ & ->); [| done | |].
    + clear Eh. inv_intro Hinv.
    + simpl. by apply (inv_channel_config st Hinv).
    + simpl. unfold CancelBalancerChannelConnectivityWatchLocked. simpl.
      destruct (lb_channel_ st); [by eexists | done].
Qed.

Lemma Helper_UpdateState_total st state status picker :
  Inv st -> child_policy_ st = true \/ shutting_down_ st = true ->
  is_Some (Helper_UpdateState st state status picker).
Proof.
  intros Hinv Hchild. unfold Helper_UpdateState.
  destruct (shutting_down_ st) eqn:Hsd; [by eexists |].
  destruct Hchild as [Hchild | ?]; [| done].
  set (s0 := set_child_policy_ready_ (is_READY state) st).
  assert (I0 : Inv s0) by (subst s0; inv_intro Hinv).
  assert (Hcfg : config_ s0 <> None) by by apply (inv_child_config st Hinv).
  destruct (MaybeEnterFallbackModeAfterStartup_total s0 I0 Hsd Hcfg) as [st2 Hm].
  pose proof (MaybeEnterFallbackModeAfterStartup_Inv s0 st2 I0 Hm) as I2.
  destruct (lb_calld_client_stats_is_Some st2 I2) as [cs Hcs].
  rewrite Hm. cbn [mbind option_bind].
  destruct (serverlist_ st2) as [p |] eqn:Hp.
  - destruct (is_READY state); cbn [mbind option_bind].
    + rewrite Hcs. by eexists.
    + destruct (lookup_lt_is_Some_2 _ _ (inv_serverlist_live st2 I2 p Hp)) as [sl Hl].
      rewrite Hl. cbn [mbind option_bind]. rewrite Hcs. by eexists.
  - cbn [mbind option_bind]. rewrite Hcs. by eexists.
Qed.

Lemma OnBalancerMessageReceivedLocked_total st this payload :
  Inv st -> is_Some (OnBalancerMessageReceivedLocked st this payload).
Proof.
  intros Hinv.
  destruct (decide (lb_calld_ st = Some this)) as [Hcur | Hnot].
  2: { unfold OnBalancerMessageReceivedLocked.
       rewrite bool_decide_eq_false_2 by done. by eexists. }
  destruct payload as [[response | bytes] |].
  3: { unfold OnBalancerMessageReceivedLocked.
       rewrite bool_decide_eq_true_2 by done. by eexists. }
  2: { unfold OnBalancerMessageReceivedLocked.
       rewrite bool_decide_eq_true_2 by done.
       destruct (lookup_lt_is_Some_2 _ _ (inv_calld_live st Hinv this Hcur)) as [c ->].
       simpl. destruct (shutting_down_ st); by eexists. }
  destruct (type response) eqn:Hty.
  - unfold OnBalancerMessageReceivedLocked.
    rewrite bool_decide_eq_true_2 by done.
    destruct (lookup_lt_is_Some_2 _ _ (inv_calld_live st Hinv this Hcur)) as [c ->].
    simpl. rewrite Hty.
    destruct (BalancerCallState.seen_initial_response_ c); simpl;
      match goal with |- context [if ?b then _ else _] => destruct b end; by eexists.
  - destruct (received_serverlist st this response Hinv Hcur Hty) as (st' & _ & Hs & _).
    exists st'. exact Hs.
  - destruct (fallback_mode_ st) eqn:Hfm.
    + unfold OnBalancerMessageReceivedLocked.
      rewrite bool_decide_eq_true_2 by done.
      destruct (lookup_lt_is_Some_2 _ _ (inv_calld_live st Hinv this Hcur)) as [c ->].
      simpl. rewrite Hty. unfold on_fallback. rewrite Hfm. simpl.
      destruct (shutting_down_ st); by eexists.
    + destruct (received_fallback st this response Hinv Hcur Hty Hfm)
        as (st' & _ & Hs & _).
      exists st'. exact Hs.
Qed.

Lemma OnBalancerStatusReceivedLocked_total st this :
  Inv st -> is_Some (OnBalancerStatusReceivedLocked st this).
Proof.
  intros Hinv.
  destruct (decide (lb_calld_ st = Some this)) as [Hcur | Hnot].
  2: { rewrite OnBalancerStatusReceivedLocked_ignored by done. by eexists. }
  destruct (lookup_lt_is_Some_2 _ _ (inv_calld_live st Hinv this Hcur)) as [calld Hl].
  pose proof (inv_calld_channel st Hinv this Hcur) as Hch.
  destruct (status_received_fallback_part st this calld Hinv Hcur Hl)
    as (st2 & H2 & I2 & Hsd2 & Hch2 & Hc2 & _).
  rewrite (OnBalancerStatusReceivedLocked_current st this calld Hcur Hl).
  rewrite H2. cbn [mbind option_bind]. rewrite Hsd2.
  destruct (BalancerCallState.seen_initial_response_ calld); [| by eexists].
  rewrite StartBalancerCallLocked_fresh; [by eexists | simpl; congruence | done | done].
Qed.

Lemma OnBalancerCallRetryTimerLocked_total st :
  Inv st -> lb_channel_ st <> None \/ shutting_down_ st = true ->
  is_Some (OnBalancerCallRetryTimerLocked st).
Proof.
  intros Hinv Hstarted. unfold OnBalancerCallRetryTimerLocked. simpl.
  destruct (shutting_down_ st) eqn:Hsd; simpl; [by eexists |].
  destruct (lb_calld_ st) as [c |] eqn:Hc.
  - rewrite bool_decide_eq_false_2 by done. by eexists.
  - rewrite bool_decide_eq_true_2 by done.
    destruct Hstarted as [Hch | ?]; [| done].
    rewrite StartBalancerCallLocked_fresh by done. by eexists.
Qed.

(** X4.  No handler of a reachable policy crashes: whatever state the
    policy has got into, each event its callers can deliver runs to
    the end, so no [CHECK] fails and no null pointer or empty optional
    is dereferenced (the balancer channel, the fallback timer handle,
    the config, the current call and serverlist are there where the
    handlers use them).  The next state is reachable again. *)
Theorem handlers_never_crash st ev :
  reachable st -> event_ok ev st ->
  exists st', step ev st = Some st' /\ reachable st'.
Proof.
  intros Hreach Hok. pose proof (reachable_Inv st Hreach) as Hinv.
  assert (Hsome : is_Some (step ev st)).
  { destruct ev as [a | | calld payload | calld | | | new_state
                   | state status picker |]; cbn [step].
    - destruct (UpdateArgs.config a) as [config |] eqn:Hcfg; [| done].
      destruct (UpdateLocked_total st a config Hinv Hcfg) as (st' & more & -> & _).
      by eexists.
    - by apply ShutdownLocked_total.
    - by apply OnBalancerMessageReceivedLocked_total.
    - by apply OnBalancerStatusReceivedLocked_total.
    - by apply OnFallbackTimerLocked_total.
    - by apply OnBalancerCallRetryTimerLocked_total.
    - by apply StateWatcher_OnConnectivityStateChange_total.
    - by apply Helper_UpdateState_total.
    - by eexists. }
  destruct Hsome as [st' Hs]. exists st'. split; [exact Hs |].
  by apply (reachable_step ev st).
Qed.

(** *** Shutdown *)





(** *** The watcher of the balancer channel *)

(** X6.  While the startup checks are pending, the balancer channel
    going into TRANSIENT_FAILURE puts the policy into fallback mode at
    once: the flag is cleared and the fallback timer cancelled, the
    child policy (made first if there is none) is updated from the
    fallback addresses, and the channel watch is removed last.  In
    any other state of the channel, or once the checks are over, the
    watcher changes nothing. *)
Theorem balancer_channel_failure_at_startup st new_state :
  reachable st ->
  exists st',
    step (EvBalancerChannelState new_state) st = Some st'
    /\ (fallback_at_startup_checks_pending_ st = true ->
        new_state = GRPC_CHANNEL_TRANSIENT_FAILURE ->
        shutting_down_ st = false ->
        fallback_mode_ st' = true
        /\ fallback_at_startup_checks_pending_ st' = false
        /\ exists handle u,
             lb_fallback_timer_handle_ st = Some handle
             /\ fallback_update st u
             /\ effects st'
                = effects st
                  ++ [TimerCancel handle]
                  ++ (if child_policy_ st then [] else [ChildPolicyCreate])
                  ++ [ChildUpdateLocked u; RemoveConnectivityWatcher])
    /\ (fallback_at_startup_checks_pending_ st = false
        \/ new_state <> GRPC_CHANNEL_TRANSIENT_FAILURE ->
        st' = st).
Proof.
  intros Hreach. pose proof (reachable_Inv st Hreach) as Hinv.
  cbn [step]. unfold StateWatcher_OnConnectivityStateChange.
  destruct (fallback_at_startup_checks_pending_ st) eqn:Hp.
  2: { exists st. split; [done |]. split; [done | done]. }
  destruct new_state;
    try (exists st; split; [done |]; split; [done | done]).
  simpl.
  pose proof (inv_pending_channel st Hinv Hp) as Hch.
  pose proof (inv_pending_handle st Hinv Hp) as Hh.
  unfold CancelFallbackTimer. simpl.
  destruct (lb_fallback_timer_handle_ st) as [handle |] eqn:Eh; [| done]. simpl.
  destruct (shutting_down_ st) eqn:Hsd.
  - rewrite CreateOrUpdateChildPolicyLocked_shutting_down by done. simpl.
    unfold CancelBalancerChannelConnectivityWatchLocked. simpl.
    destruct (lb_channel_ st); [| done].
    eexists. split; [done |]. split; [done |]. by intros [? | ?].
  - destruct (fallback_entered
                (emit (TimerCancel handle)
                   (set_fallback_at_startup_checks_pending_ false st)))
      as (u & Hu & ->); [| done | |].
    + clear Eh. inv_intro Hinv.
    + simpl. by apply (inv_channel_config st Hinv).
    + simpl. unfold CancelBalancerChannelConnectivityWatchLocked. simpl.
      destruct (lb_channel_ st); [| done].
      eexists. split; [done |]. split; [| by intros [? | ?]].
      intros _ _ _. split; [done |]. split; [done |].
      exists handle, u. split; [done |]. split; [exact Hu |].
      unfold child_updated, emit. simpl.
      destruct (child_policy_ st); simpl; by rewrite <- !app_assoc.
Qed.

(** *** The helper of the child policy *)

Lemma MaybeEnterFallbackModeAfterStartup_keeps st st' :
  MaybeEnterFallbackModeAfterStartup st = Some st' ->
  serverlist_ st' = serverlist_ st /\ heap st' = heap st
  /\ lb_calld_ st' = lb_calld_ st /\ calls st' = calls st
  /\ child_policy_ready_ st' = child_policy_ready_ st
  /\ exists new, effects st' = effects st ++ new.
Proof.
  intros Hm. apply MaybeEnterFallbackModeAfterStartup_inv in Hm
    as [[_ Hc] | [_ ->]].
  - apply CreateOrUpdateChildPolicyLocked_inv in Hc
      as [[-> _] | (_ & _ & u & _ & ->)].
    + repeat (split; [done |]). exists []. simpl. by rewrite app_nil_r.
    + repeat (split; [done |]). unfold child_updated. simpl. by eexists.
  - repeat (split; [done |]). exists []. by rewrite app_nil_r.
Qed.

(** X7.  When the child policy reports a state (the policy not
    shutting down), the policy records whether that state is READY
    and reports the same state and status to its parent, with a picker
    around the child's picker.  That picker gets the current
    serverlist when the state is READY or when the serverlist is not
    empty and all its entries are drop entries, and no serverlist
    otherwise, so that no drop is counted on a pick the child would
    queue; it gets the stats object of the current balancer call, if
    there is a call and it has one. *)
Theorem child_state_update_wraps_picker st state status picker :
  reachable st -> shutting_down_ st = false -> child_policy_ st = true ->
  exists st' before serverlist client_stats,
    step (EvChildUpdateState state status picker) st = Some st'
    /\ (child_policy_ready_ st' = true <-> state = GRPC_CHANNEL_READY)
    /\ effects st'
       = effects st ++ before
         ++ [ParentUpdateState state status
               {| Picker.serverlist_ := serverlist;
                  Picker.child_picker_ := picker;
                  Picker.client_stats_ := client_stats |}]
    /\ (forall e, In e before -> forall s s' p, e <> ParentUpdateState s s' p)
    /\ (state = GRPC_CHANNEL_READY -> serverlist = serverlist_ st)
    /\ (serverlist_ st = None -> serverlist = None)
    /\ (forall p sl,
          state <> GRPC_CHANNEL_READY ->
          serverlist_ st = Some p -> serverlists (heap st) !! p = Some sl ->
          (Serverlist.serverlist_ sl <> []
           /\ Forall (fun server => drop server = true) (Serverlist.serverlist_ sl) ->
           serverlist = Some p)
          /\ (Serverlist.serverlist_ sl = []
              \/ Exists (fun server => drop server = false) (Serverlist.serverlist_ sl) ->
              serverlist = None))
    /\ (lb_calld_ st = None -> client_stats = None)
    /\ (forall calld c,
          lb_calld_ st = Some calld -> calls st !! calld = Some c ->
          client_stats = BalancerCallState.client_stats_ c).
Proof.
  intros Hreach Hsd Hchild. pose proof (reachable_Inv st Hreach) as Hinv.
  set (s0 := set_child_policy_ready_ (is_READY state) st).
  assert (I0 : Inv s0) by (subst s0; inv_intro Hinv).
  assert (Hcfg : config_ s0 <> None) by by apply (inv_child_config st Hinv).
  destruct (MaybeEnterFallbackModeAfterStartup_total s0 I0 Hsd Hcfg) as [st2 Hm].
  pose proof (MaybeEnterFallbackModeAfterStartup_Inv s0 st2 I0 Hm) as I2.
  destruct (MaybeEnterFallbackModeAfterStartup_keeps s0 st2 Hm)
    as (Hsl2 & Hheap2 & Hc2 & Hcalls2 & Hr2 & new & He2).
  assert (Hnew : forall e, In e new -> forall s s' p, e <> ParentUpdateState s s' p).
  { apply MaybeEnterFallbackModeAfterStartup_inv in Hm as [[_ Hc] | [_ ->]].
    - apply CreateOrUpdateChildPolicyLocked_inv in Hc
        as [[-> _] | (_ & _ & u & _ & ->)].
      + simpl in He2. rewrite <- (app_nil_r (effects st)) in He2 at 1.
        apply app_inv_head in He2 as <-. by intros e [].
      + unfold child_updated in He2. simpl in He2.
        apply app_inv_head in He2 as <-.
        intros e He s s' p ->. destruct (child_policy_ st); simpl in He;
          intuition discriminate.
    - rewrite <- (app_nil_r (effects s0)) in He2 at 1.
      apply app_inv_head in He2 as <-. by intros e []. }
  destruct (lb_calld_client_stats_is_Some st2 I2) as [cs Hcs].
  destruct (lb_calld_client_stats_current st2 cs Hcs) as [Hnone Hcur].
  change (serverlist_ s0) with (serverlist_ st) in Hsl2.
  change (heap s0) with (heap st) in Hheap2.
  change (lb_calld_ s0) with (lb_calld_ st) in Hc2.
  change (calls s0) with (calls st) in Hcalls2.
  change (effects s0) with (effects st) in He2.
  change (child_policy_ready_ s0) with (is_READY state) in Hr2.
  assert (Hdrops : exists all_drops,
            match serverlist_ st2 with
            | None => Some false
            | Some p =>
                if is_READY state then Some false
                else sl ← serverlists (heap st2) !! p;
                     Some (Serverlist.ContainsAllDropEntries sl)
            end = Some all_drops
            /\ (serverlist_ st = None -> all_drops = false)
            /\ (forall p sl,
                  is_READY state = false ->
                  serverlist_ st = Some p -> serverlists (heap st) !! p = Some sl ->
                  all_drops = Serverlist.ContainsAllDropEntries sl)).
  { rewrite Hsl2, Hheap2.
    destruct (serverlist_ st) as [p |] eqn:Hp.
    - destruct (is_READY state) eqn:Hready.
      + exists false. split; [done |]. split; [done | done].
      + destruct (lookup_lt_is_Some_2 _ _ (inv_serverlist_live st Hinv p Hp)) as [sl Hl].
        rewrite Hl. simpl. eexists. split; [done |]. split; [done |].
        intros p' sl' _ [= <-] Hl'. rewrite Hl in Hl'. by injection Hl' as <-.
    - exists false. split; [done |]. split; [done | done]. }
  destruct Hdrops as (all_drops & Hdrops & Hnosl & Hall).
  exists (emit (ParentUpdateState state status
                  {| Picker.serverlist_ :=
                       if is_READY state || all_drops then serverlist_ st2 else None;
                     Picker.child_picker_ := picker;
                     Picker.client_stats_ := cs |}) st2),
    new, (if is_READY state || all_drops then serverlist_ st2 else None), cs.
  split.
  { cbn [step]. unfold Helper_UpdateState. rewrite Hsd. fold s0.
    rewrite Hm. cbn [mbind option_bind]. rewrite Hdrops. cbn [mbind option_bind].
    rewrite Hcs. cbn [mbind option_bind]. reflexivity. }
  split.
  { simpl. rewrite Hr2. by destruct state. }
  split; [unfold emit; simpl; by rewrite He2, <- app_assoc |].
  split; [exact Hnew |]. rewrite Hsl2.
  split; [by intros -> |].
  split.
  { intros Hn. rewrite Hn. by destruct (is_READY state || all_drops). }
  split.
  { intros p sl Hready Hp Hl.
    assert (Hr : is_READY state = false) by by destruct state.
    rewrite Hr, (Hall p sl Hr Hp Hl). simpl. split.
    - intros Hd. by rewrite (proj2 (ContainsAllDropEntries_iff sl) Hd).
    - intros Hd. destruct (Serverlist.ContainsAllDropEntries sl) eqn:Hc; [| done].
      exfalso. apply ContainsAllDropEntries_iff in Hc as [Hne Hf].
      destruct Hd as [He | Hex]; [done |].
      rewrite List.Forall_forall in Hf. apply List.Exists_exists in Hex as (s & Hin & Hs).
      rewrite (Hf s Hin) in Hs. done. }
  rewrite <- Hc2, <- Hcalls2. split; [exact Hnone | exact Hcur].
Qed.

(** *** Messages of the balancer *)

(** X8.  A message that arrives on a call that is not the current
    balancer call, or with a null payload, is ignored altogether.  On
    the current call a payload that does not parse, or an INITIAL
    response after the first one, changes nothing but for the next
    read the policy asks of the call.  The first INITIAL response
    marks the call as having seen it and sets the interval of client
    load reports: the response's interval, raised to one second if it
    is shorter, or none if the response asks for none (interval zero);
    it starts no child update, and the policy reads on. *)
Theorem balancer_message_handling st this :
  reachable st ->
  (forall payload,
     lb_calld_ st <> Some this \/ payload = None ->
     step (EvBalancerMessageReceived this payload) st = Some st)
  /\ (forall bytes,
        lb_calld_ st = Some this ->
        step (EvBalancerMessageReceived this (Some (Malformed bytes))) st
        = Some (emit (CallRecvMessage this) st))
  /\ (forall response calld,
        lb_calld_ st = Some this -> calls st !! this = Some calld ->
        type response = INITIAL ->
        (BalancerCallState.seen_initial_response_ calld = true ->
         step (received this response) st = Some (emit (CallRecvMessage this) st))
        /\ (BalancerCallState.seen_initial_response_ calld = false ->
            exists st' calld',
              step (received this response) st = Some st'
              /\ effects st' = effects st ++ [CallRecvMessage this]
              /\ calls st' = <[this := calld']> (calls st)
              /\ BalancerCallState.seen_initial_response_ calld' = true
              /\ BalancerCallState.seen_serverlist_ calld'
                 = BalancerCallState.seen_serverlist_ calld
              /\ BalancerCallState.client_stats_ calld'
                 = BalancerCallState.client_stats_ calld
              /\ (client_stats_report_interval response = 0 ->
                  BalancerCallState.client_stats_report_interval_ calld'
                  = BalancerCallState.client_stats_report_interval_ calld)
              /\ (client_stats_report_interval response <> 0 ->
                  1000 <= BalancerCallState.client_stats_report_interval_ calld'
                  /\ client_stats_report_interval response
                     <= BalancerCallState.client_stats_report_interval_ calld'
                  /\ (BalancerCallState.client_stats_report_interval_ calld' = 1000
                      \/ BalancerCallState.client_stats_report_interval_ calld'
                         = client_stats_report_interval response))
              /\ lb_calld_ st' = lb_calld_ st
              /\ serverlist_ st' = serverlist_ st
              /\ fallback_mode_ st' = fallback_mode_ st
              /\ fallback_at_startup_checks_pending_ st'
                 = fallback_at_startup_checks_pending_ st)).
Proof.
  intros Hreach. pose proof (reachable_Inv st Hreach) as Hinv.
  split; [| split].
  - intros payload Hign. cbn [step]. unfold OnBalancerMessageReceivedLocked.
    destruct Hign as [Hnot | ->].
    + by rewrite bool_decide_eq_false_2.
    + by destruct (bool_decide (lb_calld_ st = Some this)).
  - intros bytes Hcur. cbn [step]. unfold OnBalancerMessageReceivedLocked.
    rewrite bool_decide_eq_true_2 by done.
    destruct (lookup_lt_is_Some_2 _ _ (inv_calld_live st Hinv this Hcur)) as [c ->].
    simpl. by rewrite (inv_calld_not_shutting_down st Hinv this Hcur).
  - intros response calld Hcur Hl Hty.
    pose proof (inv_calld_not_shutting_down st Hinv this Hcur) as Hsd.
    unfold received. cbn [step]. unfold OnBalancerMessageReceivedLocked.
    rewrite bool_decide_eq_true_2 by done. rewrite Hl. simpl. rewrite Hty.
    split.
    + intros ->. simpl. by rewrite Hsd.
    + intros ->. simpl. rewrite Hsd. simpl.
      eexists. eexists. split; [reflexivity |].
      unfold on_initial, emit. simpl.
      split; [done |]. split; [reflexivity |].
      split; [done |].
      destruct (Z.eqb_spec (client_stats_report_interval response) 0) as [He | Hne];
        simpl.
      * repeat (split; [done |]). done.
      * split; [done |]. split; [done |]. split; [done |].
        split; [lia |]. done.
Qed.

(** *** What the child policy is given *)

(** X9.  An update of the child policy by a policy that is not
    shutting down: the child policy is made first if there is none,
    and gets the child config of the policy's config and the policy's
    channel args with the load-reporting filter turned on and the
    backend-from-balancer flag set to 1 outside fallback mode and to 0
    in it; health checking is inhibited outside fallback mode only.
    In fallback mode the addresses are the fallback addresses (or the
    resolver's error), and the note says so when there are none;
    outside it they are those of the current serverlist, and the note
    says so when the iteration over it is empty. *)
Theorem child_update_content st st' :
  reachable st -> shutting_down_ st = false ->
  CreateOrUpdateChildPolicyLocked st = Some st' ->
  exists u config,
    config_ st = Some config
    /\ effects st'
       = effects st
         ++ (if child_policy_ st then [] else [ChildPolicyCreate])
         ++ [ChildUpdateLocked u]
    /\ child_policy_ st' = true
    /\ ChildUpdateArgs.config u = GrpcLbConfig.child_policy_ config
    /\ ChildUpdateArgs.args u !! GRPC_ARG_GRPCLB_ENABLE_LOAD_REPORTING_FILTER
       = Some (ArgInt 1)
    /\ ChildUpdateArgs.args u !! GRPC_ARG_ADDRESS_IS_BACKEND_FROM_GRPCLB_LOAD_BALANCER
       = Some (ArgInt (if fallback_mode_ st then 0 else 1))
    /\ ChildUpdateArgs.args u !! GRPC_ARG_INHIBIT_HEALTH_CHECKING
       = (if fallback_mode_ st
          then channel_args (args_ st) !! GRPC_ARG_INHIBIT_HEALTH_CHECKING
          else Some (ArgInt 1))
    /\ (forall name,
          name <> GRPC_ARG_GRPCLB_ENABLE_LOAD_REPORTING_FILTER ->
          name <> GRPC_ARG_ADDRESS_IS_BACKEND_FROM_GRPCLB_LOAD_BALANCER ->
          name <> GRPC_ARG_INHIBIT_HEALTH_CHECKING ->
          ChildUpdateArgs.args u !! name = channel_args (args_ st) !! name)
    /\ (fallback_mode_ st = true ->
        match fallback_backend_addresses_ st with
        | IsError status =>
            ChildUpdateArgs.addresses u = IsError status
            /\ ChildUpdateArgs.resolution_note u = ""
        | IsOk it =>
            ChildUpdateArgs.addresses u
            = IsOk (EndpointAddressesIterator.OfFallback it)
            /\ ChildUpdateArgs.resolution_note u
               = match NullLbTokenEndpointIterator.parent_it_ it with
                 | [] => "grpclb in fallback mode without any fallback addresses: "
                         +:+ resolution_note_ st
                 | _ => ""
                 end
        end)
    /\ (fallback_mode_ st = false ->
        exists p sl client_stats,
          serverlist_ st = Some p /\ serverlists (heap st) !! p = Some sl
          /\ ChildUpdateArgs.addresses u
             = IsOk (EndpointAddressesIterator.OfServerlist
                       {| AddressIterator.serverlist_ := sl;
                          AddressIterator.client_stats_ := client_stats |})
          /\ ChildUpdateArgs.resolution_note u
             = match List.filter is_valid_entry (Serverlist.serverlist_ sl) with
               | [] => "empty serverlist from grpclb balancer"
               | _ => ""
               end).
Proof.
  intros Hreach Hsd Hc. unfold CreateOrUpdateChildPolicyLocked in Hc.
  rewrite Hsd in Hc.
  apply bind_Some in Hc as ([[addrs b] note] & Hsel & Hc).
  rewrite bool_decide_eq_false_2 in Hc by apply child_args_nonempty.
  apply bind_Some in Hc as (config & Hcfg & [= <-]).
  eexists. exists config. split; [exact Hcfg |].
  split.
  { unfold emit. destruct (child_policy_ st) eqn:Hcp; simpl;
      [reflexivity | by rewrite <- app_assoc]. }
  split; [by destruct (child_policy_ st) eqn:Hcp |].
  split; [done |]. simpl.
  assert (Hb : b = negb (fallback_mode_ st)).
  { destruct (fallback_mode_ st).
    - by destruct (fallback_backend_addresses_ st); injection Hsel as _ <- _.
    - apply bind_Some in Hsel as (p & _ & Hsel).
      apply bind_Some in Hsel as (sl & _ & Hsel).
      by apply bind_Some in Hsel as (cs & _ & [= _ <- _]). }
  unfold CreateChildPolicyArgsLocked, ChannelArgs.Set_.
  unfold GRPC_ARG_GRPCLB_ENABLE_LOAD_REPORTING_FILTER,
    GRPC_ARG_ADDRESS_IS_BACKEND_FROM_GRPCLB_LOAD_BALANCER,
    GRPC_ARG_INHIBIT_HEALTH_CHECKING.
  split.
  { rewrite Hb. destruct (fallback_mode_ st); simpl;
      by rewrite ?lookup_insert_eq, ?lookup_insert_ne, ?lookup_insert_eq by done. }
  split.
  { rewrite Hb. destruct (fallback_mode_ st); simpl;
      by rewrite ?lookup_insert_ne, ?lookup_insert_eq by done. }
  split.
  { rewrite Hb. destruct (fallback_mode_ st); simpl.
    - by rewrite !lookup_insert_ne by done.
    - by rewrite lookup_insert_eq. }
  split.
  { intros name H1 H2 H3. rewrite Hb. destruct (fallback_mode_ st); simpl;
      by rewrite !lookup_insert_ne by done. }
  split.
  - intros Hfm. rewrite Hfm in Hsel.
    destruct (fallback_backend_addresses_ st) as [it | status];
      injection Hsel as <- _ <-; [| done].
    split; [done |].
    unfold EndpointIteratorIsEmpty. simpl.
    unfold NullLbTokenEndpointIterator.ForEach.
    destruct (NullLbTokenEndpointIterator.parent_it_ it) as [| e l] eqn:Hp; [done |].
    by rewrite fold_left_absorbs.
  - intros Hfm. rewrite Hfm in Hsel.
    apply bind_Some in Hsel as (p & Hp & Hsel).
    apply bind_Some in Hsel as (sl & Hsl & Hsel).
    apply bind_Some in Hsel as (cs & Hcs & [= <- _ <-]).
    exists p, sl, cs. split; [done |]. split; [done |]. split; [done |].
    change (AddressIterator.ForEach
              {| AddressIterator.serverlist_ := sl;
                 AddressIterator.client_stats_ := cs |}
              (fun (_ : EndpointAddresses) (_ : bool) => false) true)
      with (EndpointIteratorIsEmpty
              (EndpointAddressesIterator.OfServerlist
                 {| AddressIterator.serverlist_ := sl;
                    AddressIterator.client_stats_ := cs |})).
    rewrite EndpointIteratorIsEmpty_endpoints, AddressIterator_endpoints.
    by destruct (List.filter is_valid_entry (Serverlist.serverlist_ sl)).
Qed.

(** *** Resolver updates *)

(** The fallback addresses an update leaves in the policy. *)
Lemma CreateOrUpdateChildPolicyLocked_fallback st st' :
  shutting_down_ st = false -> fallback_mode_ st = true ->
  CreateOrUpdateChildPolicyLocked st = Some st' ->
  exists u config,
    config_ st = Some config
    /\ st' = child_updated u st
    /\ ChildUpdateArgs.config u = GrpcLbConfig.child_policy_ config
    /\ ChildUpdateArgs.addresses u
       = match fallback_backend_addresses_ st with
         | IsOk it => IsOk (EndpointAddressesIterator.OfFallback it)
         | IsError status => IsError status
         end.
Proof.
  intros Hsd Hfm Hc. unfold CreateOrUpdateChildPolicyLocked in Hc.
  rewrite Hsd, Hfm in Hc.
  apply bind_Some in Hc as ([[addrs b] note] & Hsel & Hc).
  rewrite bool_decide_eq_false_2 in Hc by apply child_args_nonempty.
  apply bind_Some in Hc as (config & Hcfg & [= <-]).
  eexists. exists config. split; [exact Hcfg |].
  split; [apply child_updated_eq |]. split; [done |]. simpl.
  by destruct (fallback_backend_addresses_ st); injection Hsel as <- _ _.
Qed.

(** X10.  The first update of a freshly made policy, whatever its
    balancer addresses: the balancer channel is created under the
    name "fake:///" followed by the authority and sent the balancer
    addresses, the fallback timer is started with the fallback
    timeout (10 s unless the channel args say otherwise, and never
    negative), the channel is watched, and the first balancer call is
    started; the startup checks are pending, the policy is not in
    fallback mode and has no child policy yet. *)
Theorem first_update_starts_everything (authority : string) (timeout : option Z)
    (backoff : BackOff) (a : UpdateArgs.t) (config : GrpcLbConfig.t) :
  UpdateArgs.config a = Some config ->
  exists status st',
    UpdateLocked (make authority timeout backoff) a = Some (status, st')
    /\ effects st'
       = [ChannelCreate ("fake:///" +:+ authority);
          SetResponseAsync (ExtractBalancerAddresses (UpdateArgs.args a));
          TimerRunAfter FallbackTimer
            match timeout with
            | None => 10000
            | Some ms => if ms <? 0 then 0 else ms
            end;
          AddConnectivityWatcher;
          CallStartQuery 0]
    /\ lb_channel_ st' = Some ("fake:///" +:+ authority)
    /\ fallback_at_startup_checks_pending_ st' = true
    /\ is_Some (lb_fallback_timer_handle_ st')
    /\ lb_calld_ st' = Some O /\ calls st' = [BalancerCallState.make]
    /\ fallback_mode_ st' = false /\ child_policy_ st' = false
    /\ serverlist_ st' = None /\ shutting_down_ st' = false
    /\ config_ st' = Some config
    /\ fallback_backend_addresses_ st'
       = match UpdateArgs.addresses a with
         | IsOk endpoints =>
             IsOk {| NullLbTokenEndpointIterator.parent_it_ := endpoints;
                     NullLbTokenEndpointIterator.empty_token_ := empty_token |}
         | IsError status => IsError status
         end.
Proof.
  intros Hcfg.
  destruct (UpdateLocked_total (make authority timeout backoff) a config
              (Inv_make authority timeout backoff) Hcfg) as (st' & more & Hu & _ & _).
  exists (update_status a), st'. split; [exact Hu |].
  apply UpdateLocked_inv in Hu as (config' & st5 & Hcfg' & _ & H5 & H6).
  rewrite Hcfg in Hcfg'. injection Hcfg' as <-.
  cbn [make child_policy_ lb_channel_] in H5, H6. subst st5.
  rewrite bool_decide_eq_true_2 in H6 by done.
  apply StartBalancerCallLocked_inv in H6 as (_ & [[Hsd _] | (_ & _ & ->)]);
    [discriminate Hsd |].
  unfold call_started, checks_started, channel_updated, settings_updated, emit.
  cbn -[Z.max Z.ltb String.append].
  split.
  { unfold GRPC_GRPCLB_DEFAULT_FALLBACK_TIMEOUT_MS.
    destruct timeout as [ms |]; cbn -[Z.max Z.ltb String.append]; try done.
    destruct (Z.ltb_spec ms 0);
      [rewrite Z.max_l by lia | rewrite Z.max_r by lia]; done. }
  repeat (split; [first [done | by eexists] |]).
  by destruct (UpdateArgs.addresses a).
Qed.

(** X11.  A later update, to a policy that has its balancer channel
    and is not shutting down: the new config, args and fallback
    addresses are taken over and the balancer addresses are sent to
    the existing channel; no channel is created, no balancer call
    started or ended, and the startup checks, the mode and the
    serverlist stay as they are.  A child policy, if there is one,
    is updated once with the child config of the new config; in
    fallback mode its addresses are the new fallback addresses (or the
    resolver's error). *)
Theorem later_update_reaches_child st a config :
  reachable st -> lb_channel_ st <> None -> shutting_down_ st = false ->
  UpdateArgs.config a = Some config ->
  exists status st',
    UpdateLocked st a = Some (status, st')
    /\ lb_channel_ st' = lb_channel_ st
    /\ lb_calld_ st' = lb_calld_ st /\ calls st' = calls st
    /\ fallback_at_startup_checks_pending_ st'
       = fallback_at_startup_checks_pending_ st
    /\ fallback_mode_ st' = fallback_mode_ st
    /\ serverlist_ st' = serverlist_ st
    /\ config_ st' = Some config
    /\ args_ st' = UpdateArgs.args a
    /\ (child_policy_ st = false ->
        effects st'
        = effects st
          ++ [SetResponseAsync (ExtractBalancerAddresses (UpdateArgs.args a))])
    /\ (child_policy_ st = true ->
        exists u,
          effects st'
          = effects st
            ++ [SetResponseAsync (ExtractBalancerAddresses (UpdateArgs.args a));
                ChildUpdateLocked u]
          /\ (fallback_mode_ st = true ->
              ChildUpdateArgs.config u = GrpcLbConfig.child_policy_ config
              /\ ChildUpdateArgs.addresses u
                 = match UpdateArgs.addresses a with
                   | IsOk endpoints =>
                       IsOk (EndpointAddressesIterator.OfFallback
                               {| NullLbTokenEndpointIterator.parent_it_ := endpoints;
                                  NullLbTokenEndpointIterator.empty_token_ :=
                                    empty_token |})
                   | IsError status => IsError status
                   end)).
Proof.
  intros Hreach Hch Hsd Hcfg. pose proof (reachable_Inv st Hreach) as Hinv.
  unfold UpdateLocked. rewrite Hcfg.
  fold (settings_updated a config st).
  rewrite UpdateBalancerChannelLocked_eq.
  rewrite (bool_decide_eq_false_2 (lb_channel_ st = None)) by done.
  pose proof (Inv_channel_updated st a config Hinv) as I4.
  assert (He4 : effects (channel_updated (settings_updated a config st))
                = effects st
                  ++ [SetResponseAsync (ExtractBalancerAddresses (UpdateArgs.args a))]).
  { unfold channel_updated. simpl. by destruct (lb_channel_ st). }
  assert (Hch4 : lb_channel_ (channel_updated (settings_updated a config st))
                 = lb_channel_ st).
  { unfold channel_updated. simpl. by destruct (lb_channel_ st). }
  set (st4 := channel_updated (settings_updated a config st)) in *.
  assert (Hf4 : lb_calld_ st4 = lb_calld_ st /\ calls st4 = calls st
                /\ fallback_at_startup_checks_pending_ st4
                   = fallback_at_startup_checks_pending_ st
                /\ fallback_mode_ st4 = fallback_mode_ st
                /\ serverlist_ st4 = serverlist_ st
                /\ config_ st4 = Some config /\ args_ st4 = UpdateArgs.args a
                /\ child_policy_ st4 = child_policy_ st
                /\ shutting_down_ st4 = shutting_down_ st
                /\ fallback_backend_addresses_ st4
                   = match UpdateArgs.addresses a with
                     | IsError status => IsError status
                     | IsOk parent_it => IsOk (NullLbTokenEndpointIterator.make parent_it)
                     end) by done.
  destruct Hf4 as (Hc4 & Hcalls4 & Hp4 & Hfm4 & Hsl4 & Hcfg4 & Hargs4 & Hcp4 & Hsd4 & Hfb4).
  clearbody st4. rewrite Hcp4.
  destruct (child_policy_ st) eqn:Hcp.
  - destruct (CreateOrUpdateChildPolicyLocked_total st4) as [st5 H5].
    + done.
    + by rewrite Hsd4.
    + by rewrite Hcfg4.
    + rewrite Hfm4, Hsl4. by apply (inv_child_serverlist st Hinv).
    + rewrite H5. cbn [mbind option_bind].
      eexists. exists st5. split; [reflexivity |].
      pose proof H5 as H5'.
      apply CreateOrUpdateChildPolicyLocked_inv in H5
        as [[_ Hsd5] | (_ & _ & u & _ & ->)]; [congruence |].
      unfold child_updated. simpl. rewrite Hch4, Hc4, Hcalls4, Hp4, Hfm4, Hsl4.
      repeat (split; [done |]). intros _.
      exists u. rewrite Hcp4, He4. split; [by rewrite <- app_assoc |].
      intros Hfm.
      assert (Hsd4' : shutting_down_ st4 = false) by congruence.
      assert (Hfm4' : fallback_mode_ st4 = true) by congruence.
      destruct (CreateOrUpdateChildPolicyLocked_fallback st4 _ Hsd4' Hfm4' H5')
        as (u' & config' & Hcfg' & Hu' & Hcu' & Hau').
      assert (u' = u) as ->.
      { unfold child_updated in Hu'. apply (f_equal effects) in Hu'. simpl in Hu'.
        apply app_inv_head in Hu'. rewrite Hcp4 in Hu'. simpl in Hu'. congruence. }
      rewrite Hcfg4 in Hcfg'. injection Hcfg' as <-. split; [done |].
      rewrite Hau', Hfb4. by destruct (UpdateArgs.addresses a).
  - cbn [mbind option_bind]. eexists. exists st4. split; [reflexivity |].
    rewrite Hch4, Hc4, Hcalls4, Hp4, Hfm4, Hsl4.
    repeat (split; [done |]). done.
Qed.

End PolicyFacts.

(** ** The subchannel cache *)

Section SubchannelCacheFacts.

Import SubchannelCache.

Implicit Types (self : SubchannelCache.t)
  (m : list (Timestamp * list SubchannelPtr)).

Lemma ascending_cons (k : Timestamp) (keys : list Timestamp) :
  ascending (k :: keys) <-> Forall (fun k' => k < k') keys /\ ascending keys.
Proof.
  revert k. induction keys as [| k' keys IH]; intros k.
  - simpl. split; [by split | done].
  - change (ascending (k :: k' :: keys)) with (k < k' /\ ascending (k' :: keys)).
    rewrite List.Forall_cons_iff. split.
    + intros [Hlt Hasc]. split; [| done]. split; [done |].
      apply IH in Hasc as [Hall _]. eapply List.Forall_impl; [| exact Hall].
      simpl. lia.
    + intros [[Hlt _] Hasc]. done.
Qed.

Lemma push_back_at_keys key (x : SubchannelPtr) m :
  forall k, In k (map fst (push_back_at key x m)) <-> k = key \/ In k (map fst m).
Proof.
  induction m as [| [k0 v0] rest IH]; intros k; simpl.
  - intuition congruence.
  - destruct (Z.ltb_spec key k0); [simpl; intuition congruence |].
    destruct (Z.eqb_spec key k0) as [-> | Hne]; simpl; [intuition congruence |].
    rewrite IH. intuition congruence.
Qed.

Lemma push_back_at_ascending key (x : SubchannelPtr) m :
  ascending (map fst m) -> ascending (map fst (push_back_at key x m)).
Proof.
  induction m as [| [k0 v0] rest IH]; [done |].
  intros Hasc. change (map fst ((k0, v0) :: rest)) with (k0 :: map fst rest) in Hasc.
  apply ascending_cons in Hasc as [Hall Hrest]. simpl.
  destruct (Z.ltb_spec key k0).
  - change (ascending (key :: k0 :: map fst rest)).
    apply ascending_cons. split.
    + constructor; [done |]. eapply List.Forall_impl; [| exact Hall]. simpl. lia.
    + by apply ascending_cons.
  - destruct (Z.eqb_spec key k0) as [-> | Hne].
    + change (ascending (k0 :: map fst rest)). by apply ascending_cons.
    + change (ascending (k0 :: map fst (push_back_at key x rest))).
      apply ascending_cons. split; [| by apply IH].
      rewrite List.Forall_forall. intros k Hin.
      apply push_back_at_keys in Hin as [-> | Hin]; [lia |].
      rewrite List.Forall_forall in Hall. by apply Hall.
Qed.

Lemma push_back_at_nonempty key (x : SubchannelPtr) m :
  Forall (fun entry => snd entry <> []) m ->
  Forall (fun entry => snd entry <> []) (push_back_at key x m)
  /\ push_back_at key x m <> [].
Proof.
  induction m as [| [k0 v0] rest IH]; intros Hall; simpl.
  - split; [by repeat constructor | done].
  - apply List.Forall_cons_iff in Hall as [H0 Hrest].
    destruct (Z.ltb_spec key k0); [split; [by repeat constructor | done] |].
    destruct (Z.eqb_spec key k0).
    + split; [| done]. constructor; [| done]. simpl. by destruct v0.
    + split; [| done]. constructor; [done |]. by apply IH.
Qed.

Lemma push_back_at_held key (x : SubchannelPtr) m :
  (exists v, In (key, v) (push_back_at key x m) /\ In x v)
  /\ Permutation (concat (map snd (push_back_at key x m)))
                 (x :: concat (map snd m)).
Proof.
  induction m as [| [k0 v0] rest [[v [Hin Hx]] Hperm]]; simpl.
  - split; [exists [x]; split; by left | done].
  - destruct (Z.ltb_spec key k0).
    { split; [exists [x]; split; by left | done]. }
    destruct (Z.eqb_spec key k0) as [-> | Hne].
    + split.
      * exists (v0 ++ [x]). split; [by left |]. apply in_or_app. right. by left.
      * simpl. rewrite <- app_assoc. simpl.
        rewrite <- Permutation_middle. done.
    + split.
      * exists v. split; [by right | done].
      * simpl. rewrite Hperm. by rewrite Permutation_middle.
Qed.

Lemma step_consistent ev self :
  consistent self -> exists self', step ev self = Some self' /\ consistent self'.
Proof.
  intros Hc. pose proof Hc as (Hasc & Hne & Htimer & Hsd).
  destruct ev as [w now now_timer | now |]; simpl.
  - unfold SubchannelWrapper_Orphaned.
    destruct (shutting_down_ self) eqn:Esd; simpl; [by exists self |].
    unfold CacheDeletedSubchannelLocked. simpl.
    pose proof (push_back_at_ascending (now + subchannel_cache_interval_ self)
                  (SubchannelWrapper.wrapped_subchannel w) _ Hasc) as Hasc'.
    destruct (push_back_at_nonempty (now + subchannel_cache_interval_ self)
                (SubchannelWrapper.wrapped_subchannel w) _ Hne) as [Hne' Hnil'].
    destruct (subchannel_cache_timer_handle_ self) as [handle |] eqn:Eh.
    + eexists. split; [done |]. split; [done |]. split; [done |]. simpl.
      split; [split; [done | by eexists] | by rewrite Esd].
    + unfold StartSubchannelCacheTimerLocked. simpl.
      destruct (push_back_at _ _ _) as [| [first v] rest] eqn:Epush; [done |].
      eexists. split; [done |]. split; [done |]. split; [done |]. simpl.
      split; [split; [done | by eexists] | by rewrite Esd].
  - unfold OnSubchannelCacheTimerLocked.
    destruct (subchannel_cache_timer_handle_ self) as [handle |] eqn:Eh.
    2: { by exists self. }
    simpl. destruct (cached_subchannels_ self) as [| [k v] rest] eqn:Ec.
    { destruct (proj1 Htimer); [by eexists | done]. }
    change (map fst ((k, v) :: rest)) with (k :: map fst rest) in Hasc.
    apply ascending_cons in Hasc as [_ Hasc].
    apply List.Forall_cons_iff in Hne as [_ Hne].
    destruct rest as [| [k' v'] rest'] eqn:Er.
    + eexists. split; [done |]. split; [done |]. split; [done |]. simpl.
      split; [| done]. split; [by intros [? ?] | done].
    + unfold StartSubchannelCacheTimerLocked. simpl.
      eexists. split; [done |]. split; [done |]. split; [done |]. simpl.
      split; [split; [done | by eexists] |].
      intros Hs. specialize (Hsd Hs). done.
  - eexists. split; [done |]. split; [done |]. split; [done |]. simpl.
    split; [| done]. split; [by intros [? ?] | done].
Qed.

Lemma run_consistent evs self :
  consistent self -> exists self', run evs self = Some self' /\ consistent self'.
Proof.
  revert self. induction evs as [| ev evs IH]; intros self Hc; simpl.
  - by exists self.
  - destruct (step_consistent ev self Hc) as (self1 & -> & Hc1). simpl.
    by apply IH.
Qed.

Lemma make_consistent (interval : option Z) : consistent (make interval).
Proof.
  split; [done |]. split; [done |]. split; [| done].
  split; [by intros [? ?] | done].
Qed.

(** X12.  Whatever subchannels are orphaned, whenever the cache timer
    fires and whenever the policy shuts down, no handler of the
    subchannel cache crashes (the [CHECK] that the cache is not empty
    when its timer is started holds), and afterwards the deletion
    times in the cache ascend, no entry is empty, the timer is armed
    exactly when the cache holds something, and a policy that is
    shutting down holds nothing. *)
Theorem subchannel_cache_consistent (interval : option Z) (evs : list Event) :
  exists self,
    run evs (make interval) = Some self
    /\ ascending (map fst (cached_subchannels_ self))
    /\ Forall (fun entry => snd entry <> []) (cached_subchannels_ self)
    /\ (is_Some (subchannel_cache_timer_handle_ self)
        <-> cached_subchannels_ self <> [])
    /\ (shutting_down_ self = true -> cached_subchannels_ self = [] /\ held self = []).
Proof.
  destruct (run_consistent evs (make interval) (make_consistent interval))
    as (self & Hr & Hasc & Hne & Htimer & Hsd).
  exists self. split; [done |]. split; [done |]. split; [done |]. split; [done |].
  intros Hs. unfold held. by rewrite (Hsd Hs).
Qed.

(** X13.  Orphaning a subchannel wrapper.  A policy that is shutting
    down lets the subchannel go at once.  Otherwise the cache holds
    the wrapped subchannel from then on, under the deletion time that
    is the time of the call plus the cache interval, and holds what it
    held; the timer is started, for the earliest deletion time, when
    none was armed, and an armed timer is left as it is. *)
Theorem orphaned_subchannel_is_cached (interval : option Z) (evs : list Event)
    self (w : SubchannelWrapper.t) (now now_timer : Timestamp) :
  run evs (make interval) = Some self ->
  exists self',
    step (EvOrphaned w now now_timer) self = Some self'
    /\ (shutting_down_ self = true -> self' = self)
    /\ (shutting_down_ self = false ->
        (exists v,
           In (now + subchannel_cache_interval_ self, v) (cached_subchannels_ self')
           /\ In (SubchannelWrapper.wrapped_subchannel_ w) v)
        /\ Permutation (held self')
                       (SubchannelWrapper.wrapped_subchannel_ w :: held self)
        /\ (cached_subchannels_ self <> [] ->
            subchannel_cache_timer_handle_ self' = subchannel_cache_timer_handle_ self
            /\ effects self' = effects self)
        /\ (cached_subchannels_ self = [] ->
            subchannel_cache_timer_handle_ self' = Some (length (effects self))
            /\ effects self'
               = effects self
                 ++ [RunAfter (now + subchannel_cache_interval_ self - now_timer)])).
Proof.
  intros Hrun.
  destruct (run_consistent evs (make interval) (make_consistent interval))
    as (self0 & Hr & Hasc & Hne & Htimer & Hsd).
  rewrite Hrun in Hr. injection Hr as <-.
  simpl. unfold SubchannelWrapper_Orphaned.
  destruct (shutting_down_ self) eqn:Esd; simpl.
  { exists self. split; [done |]. split; [done | done]. }
  unfold CacheDeletedSubchannelLocked. simpl.
  destruct (push_back_at_held (now + subchannel_cache_interval_ self)
              (SubchannelWrapper.wrapped_subchannel w) (cached_subchannels_ self))
    as [Hheld Hperm].
  destruct (cached_subchannels_ self) as [| [k v] rest] eqn:Ec.
  - destruct (subchannel_cache_timer_handle_ self) as [handle |] eqn:Eh.
    { destruct (proj1 Htimer); [by eexists | done]. }
    simpl. unfold StartSubchannelCacheTimerLocked. simpl.
    eexists. split; [done |]. split; [done |]. intros _. simpl.
    split; [exists [SubchannelWrapper.wrapped_subchannel w]; split; by left |].
    split; [unfold held; simpl; by rewrite Ec |]. split; [done | done].
  - destruct (subchannel_cache_timer_handle_ self) as [handle |] eqn:Eh.
    2: { destruct (proj2 Htimer) as [? ?]; done. }
    eexists. split; [done |]. split; [done |]. intros _.
    split; [exact Hheld |].
    split; [unfold held; simpl; rewrite Ec; exact Hperm |]. split; [done | done].
Qed.

(** X14.  The callback of the cache timer on a cache that holds
    something releases the subchannels with the earliest deletion
    time, all of them and no others; when entries are left, the timer
    is started again for the earliest of them, with the time left
    until then as its delay, and otherwise no timer is armed.  A
    callback that finds no timer armed, as after a shutdown, does
    nothing. *)
Theorem cache_timer_releases_earliest (interval : option Z) (evs : list Event)
    self (now : Timestamp) :
  run evs (make interval) = Some self ->
  exists self',
    step (EvSubchannelCacheTimer now) self = Some self'
    /\ match cached_subchannels_ self with
       | [] => self' = self /\ subchannel_cache_timer_handle_ self = None
       | (k, v) :: rest =>
           cached_subchannels_ self' = rest
           /\ held self = v ++ held self'
           /\ v <> []
           /\ (forall k' v', In (k', v') rest -> k < k')
           /\ match rest with
              | [] =>
                  subchannel_cache_timer_handle_ self' = None
                  /\ effects self' = effects self
              | (k', _) :: _ =>
                  subchannel_cache_timer_handle_ self' = Some (length (effects self))
                  /\ effects self' = effects self ++ [RunAfter (k' - now)]
              end
       end.
Proof.
  intros Hrun.
  destruct (run_consistent evs (make interval) (make_consistent interval))
    as (self0 & Hr & Hasc & Hne & Htimer & Hsd).
  rewrite Hrun in Hr. injection Hr as <-.
  simpl. unfold OnSubchannelCacheTimerLocked.
  destruct (cached_subchannels_ self) as [| [k v] rest] eqn:Ec.
  - destruct (subchannel_cache_timer_handle_ self) as [handle |] eqn:Eh.
    { destruct (proj1 Htimer); [by eexists | done]. }
    by exists self.
  - destruct (subchannel_cache_timer_handle_ self) as [handle |] eqn:Eh.
    2: { destruct (proj2 Htimer) as [? ?]; done. }
    change (map fst ((k, v) :: rest)) with (k :: map fst rest) in Hasc.
    apply ascending_cons in Hasc as [Hall _].
    apply List.Forall_cons_iff in Hne as [Hv _].
    assert (Hearliest : forall k' v', In (k', v') rest -> k < k').
    { intros k' v' Hin. rewrite List.Forall_forall in Hall. apply Hall.
      apply List.in_map_iff. by exists (k', v'). }
    simpl. destruct rest as [| [k' v'] rest'].
    + eexists. split; [done |]. unfold held. simpl. rewrite Ec. simpl.
      split; [done |]. split; [by rewrite app_nil_r |]. done.
    + unfold StartSubchannelCacheTimerLocked. simpl.
      eexists. split; [done |]. unfold held. simpl. rewrite Ec. simpl.
      split; [done |]. split; [done |]. done.
Qed.

End SubchannelCacheFacts.

(** ** The client load reports *)

Section LoadReportFacts.

Import LoadReport.

Implicit Types (self : LoadReport.t) (sent : list Snapshot).

Lemma spaced_snoc sent r :
  spaced sent -> (last_was_zero sent = true -> all_zero r = false) ->
  spaced (sent ++ [r]).
Proof.
  intros Hsp Hlast i r1 r2 H1 H2 Hz.
  destruct (decide (S i < length sent)%nat) as [Hlt | Hge].
  - rewrite lookup_app_l in H1 by lia. rewrite lookup_app_l in H2 by lia.
    exact (Hsp i r1 r2 H1 H2 Hz).
  - assert (Hi : S i = length sent).
    { apply lookup_lt_Some in H2. rewrite length_app in H2. simpl in H2. lia. }
    rewrite lookup_app_l in H1 by lia.
    rewrite lookup_app_r in H2 by lia. rewrite Hi, Nat.sub_diag in H2.
    injection H2 as <-. apply Hlast. unfold last_was_zero.
    assert (Hl : last sent = Some r1).
    { rewrite last_lookup. rewrite <- Hi. simpl. exact H1. }
    by rewrite Hl.
Qed.

Lemma reports_snoc (log : list Effect) e :
  reports (log ++ [e])
  = reports log ++ match e with StartBatch snapshot => [snapshot] | _ => [] end.
Proof. unfold reports. rewrite omap_app. by destruct e. Qed.

Lemma timers_snoc (log : list Effect) e :
  timers (log ++ [e])
  = timers log ++ match e with RunAfter delay => [delay] | _ => [] end.
Proof. unfold timers. rewrite omap_app. by destruct e. Qed.

Lemma last_was_zero_snoc sent r : last_was_zero (sent ++ [r]) = all_zero r.
Proof. unfold last_was_zero. by rewrite last_snoc. Qed.

Lemma SendClientLoadReportLocked_ok self snapshot :
  reports_ok self -> send_message_payload_ self = None ->
  exists self',
    SendClientLoadReportLocked self snapshot = Some self' /\ reports_ok self'.
Proof.
  intros [Hsp Hflag] Hp. unfold SendClientLoadReportLocked. rewrite Hp.
  destruct (all_zero snapshot && last_client_load_report_counters_were_zero_ self)
    eqn:Eskip.
  - eexists. split; [reflexivity |].
    split; simpl; rewrite reports_snoc, app_nil_r; done.
  - eexists. split; [reflexivity |].
    split; simpl; rewrite reports_snoc.
    + apply spaced_snoc; [done |]. intros Hl. rewrite <- Hflag in Hl.
      rewrite Hl, andb_true_r in Eskip. exact Eskip.
    + by rewrite last_was_zero_snoc.
Qed.

Lemma step_reports_ok ev self :
  reports_ok self -> exists self', step ev self = Some self' /\ reports_ok self'.
Proof.
  intros Hok. pose proof Hok as [Hsp Hflag].
  destruct ev as [snapshot | interval | | snapshot | error_ok | cancelled]; simpl.
  - unfold OnInitialRequestSentLocked. simpl.
    destruct (client_load_report_is_due_ self && is_current self).
    + destruct (SendClientLoadReportLocked_ok (set_send_message_payload_ None self)
                  snapshot Hok eq_refl) as (self2 & -> & Hok2).
      simpl. eexists. split; [reflexivity |]. exact Hok2.
    + eexists. split; [reflexivity |]. exact Hok.
  - unfold on_initial_response.
    destruct (is_current self && negb (seen_initial_response_ self));
      eexists; (split; [reflexivity |]); exact Hok.
  - unfold on_serverlist.
    destruct (is_current self && (0 <? client_stats_report_interval_ self)
              && negb (has_client_stats_ self));
      eexists; (split; [reflexivity |]); [| exact Hok].
    split; simpl; rewrite reports_snoc, app_nil_r; done.
  - unfold MaybeSendClientLoadReportLocked. simpl.
    destruct (is_current self); simpl.
    + destruct (send_message_payload_ self) eqn:Ep.
      * eexists. split; [reflexivity |]. exact Hok.
      * apply (SendClientLoadReportLocked_ok
                 (set_client_load_report_handle_ None self) snapshot Hok Ep).
    + eexists. split; [reflexivity |].
      split; simpl; rewrite reports_snoc, app_nil_r; done.
  - unfold ClientLoadReportDoneLocked. simpl.
    destruct (negb error_ok || negb (is_current self));
      eexists; (split; [reflexivity |]);
      split; simpl; rewrite reports_snoc, app_nil_r; done.
  - unfold reset_by_policy, Orphan. simpl.
    destruct (client_load_report_handle_ self); [destruct cancelled |];
      eexists; (split; [reflexivity |]);
      split; simpl; rewrite ?reports_snoc, ?app_nil_r; done.
Qed.

Lemma run_reports_ok evs self :
  reports_ok self -> exists self', run evs self = Some self' /\ reports_ok self'.
Proof.
  revert self. induction evs as [| ev evs IH]; intros self Hok; simpl.
  - by exists self.
  - destruct (step_reports_ok ev self Hok) as (self1 & -> & Hok1). simpl.
    by apply IH.
Qed.

Lemma step_not_current ev self :
  is_current self = false ->
  exists self',
    step ev self = Some self' /\ is_current self' = false
    /\ reports (effects self') = reports (effects self)
    /\ timers (effects self') = timers (effects self).
Proof.
  intros Hc.
  destruct ev as [snapshot | interval | | snapshot | error_ok | cancelled]; simpl.
  - unfold OnInitialRequestSentLocked. simpl. rewrite Hc, andb_false_r.
    eexists. split; [reflexivity |]. done.
  - unfold on_initial_response. rewrite Hc. simpl. by exists self.
  - unfold on_serverlist. rewrite Hc. simpl. by exists self.
  - unfold MaybeSendClientLoadReportLocked. simpl. rewrite Hc. simpl.
    eexists. split; [reflexivity |]. simpl.
    rewrite reports_snoc, timers_snoc, !app_nil_r. done.
  - unfold ClientLoadReportDoneLocked. simpl. rewrite Hc, orb_true_r.
    eexists. split; [reflexivity |]. simpl.
    rewrite reports_snoc, timers_snoc, !app_nil_r. done.
  - unfold reset_by_policy, Orphan. simpl.
    destruct (client_load_report_handle_ self); [destruct cancelled |];
      eexists; (split; [reflexivity |]); simpl;
      rewrite ?reports_snoc, ?timers_snoc, ?app_nil_r; done.
Qed.

(** X15.  Whatever the order of the completions, timer callbacks and
    messages of a balancer call, and whatever the stats hold each
    time, its handlers run to the end (the [CHECK] that no message
    is being sent when a report is made holds), and of the load
    reports the call sends no two in a row are without content: a
    report with all counters zero and no drop counts is sent only
    when the report sent before it had content, or is the first.
    The flag the call keeps says whether the last report sent was
    without content. *)
Theorem no_two_empty_reports_in_a_row (evs : list Event) :
  exists self,
    run evs make = Some self
    /\ (forall i r1 r2,
          reports (effects self) !! i = Some r1 ->
          reports (effects self) !! S i = Some r2 ->
          all_zero r1 = true -> all_zero r2 = false)
    /\ last_client_load_report_counters_were_zero_ self
       = last_was_zero (reports (effects self)).
Proof.
  assert (Hmake : reports_ok make).
  { split; [| done]. intros i r1 r2 H1. done. }
  destruct (run_reports_ok evs make Hmake) as (self & Hrun & Hsp & Hflag).
  exists self. split; [done |]. split; [exact Hsp | exact Hflag].
Qed.

(** X16.  A call that is not the policy's current call any more sends
    no load report and starts no timer, whatever completions and
    timer callbacks still arrive on it; they run to the end. *)
Theorem only_the_current_call_reports self (evs : list Event) :
  is_current self = false ->
  exists self',
    run evs self = Some self'
    /\ is_current self' = false
    /\ reports (effects self') = reports (effects self)
    /\ timers (effects self') = timers (effects self).
Proof.
  revert self. induction evs as [| ev evs IH]; intros self Hc; simpl.
  - by exists self.
  - destruct (step_not_current ev self Hc) as (self1 & -> & Hc1 & Hr1 & Ht1). simpl.
    destruct (IH self1 Hc1) as (self' & Hrun & Hc' & Hr & Ht).
    exists self'. split; [done |]. split; [done |]. split; congruence.
Qed.

(** X17.  A load report that falls due while the initial request is
    still being sent waits for it: the timer callback sends nothing,
    starts no timer and marks the report as due; when the initial
    request has been sent, the call still being the current one, the
    report is made of the stats as they are then, and sent, or, if
    it and the report before it are without content, left out and the
    timer started again with the report interval.  The mark is
    cleared. *)
Theorem due_report_waits_for_initial_request self (at_timer at_sent : Snapshot) :
  is_current self = true ->
  send_message_payload_ self = Some InitialRequest ->
  exists self1 self2,
    step (EvClientLoadReportTimer at_timer) self = Some self1
    /\ effects self1 = effects self
    /\ client_load_report_is_due_ self1 = true
    /\ client_load_report_handle_ self1 = None
    /\ send_message_payload_ self1 = Some InitialRequest
    /\ step (EvInitialRequestSent at_sent) self1 = Some self2
    /\ client_load_report_is_due_ self2 = false
    /\ (all_zero at_sent = true ->
        last_client_load_report_counters_were_zero_ self = true ->
        effects self2 = effects self ++ [RunAfter (client_stats_report_interval_ self)]
        /\ client_load_report_handle_ self2 = Some (length (effects self))
        /\ send_message_payload_ self2 = None)
    /\ (all_zero at_sent = false
        \/ last_client_load_report_counters_were_zero_ self = false ->
        effects self2 = effects self ++ [StartBatch at_sent]
        /\ client_load_report_handle_ self2 = None
        /\ send_message_payload_ self2 = Some (LoadReportRequest at_sent)
        /\ last_client_load_report_counters_were_zero_ self2 = all_zero at_sent).
Proof.
  intros Hc Hp.
  exists (set_client_load_report_is_due_ true
            (set_client_load_report_handle_ None self)).
  simpl. unfold MaybeSendClientLoadReportLocked. simpl. rewrite Hc, Hp. simpl.
  unfold OnInitialRequestSentLocked, SendClientLoadReportLocked. simpl. rewrite Hc. simpl.
  destruct (all_zero at_sent) eqn:Ez;
    destruct (last_client_load_report_counters_were_zero_ self) eqn:El; simpl;
    eexists; (split; [reflexivity |]);
    (split; [done |]); (split; [done |]); (split; [done |]); (split; [done |]);
    (split; [reflexivity |]); simpl; (split; [done |]);
    (split; [try done | intros Hor; try done; by destruct Hor]).
Qed.

End LoadReportFacts.

(** ** The claims on the control loop, on the sample policy *)

Lemma PolicySample_after_reachable (evs : list GrpcLb.Event) :
  match GrpcLb.run evs PolicySample.policy with Some _ => True | None => False end ->
  GrpcLb.reachable (PolicySample.after evs).
Proof.
  intros Hrun. exists "svc.example.com", None, 1000, evs.
  unfold PolicySample.after. fold PolicySample.policy.
  destruct (GrpcLb.run evs PolicySample.policy); [reflexivity | destruct Hrun].
Defined.

Lemma PolicySample_started_reachable : GrpcLb.reachable PolicySample.started.
Proof. apply PolicySample_after_reachable. vm_compute. exact I. Defined.

Lemma PolicySample_serving_reachable : GrpcLb.reachable PolicySample.serving.
Proof. apply PolicySample_after_reachable. vm_compute. exact I. Defined.

Lemma PolicySample_lost_balancer_reachable :
  GrpcLb.reachable PolicySample.lost_balancer.
Proof. apply PolicySample_after_reachable. vm_compute. exact I. Defined.

Lemma duplicate_serverlists_suppressed_witness :
  GrpcLb.reachable PolicySample.started
  /\ GrpcLb.lb_calld_ PolicySample.started = Some O
  /\ exists st2 u client_stats,
       GrpcLb.run [received 0 PolicySample.serverlist_response;
                   received 0 PolicySample.serverlist_response]
                  PolicySample.started = Some st2
       /\ GrpcLb.child_updates st2 = GrpcLb.child_updates PolicySample.started ++ [u]
       /\ ChildUpdateArgs.addresses u
          = IsOk (GrpcLb.GetServerAddressList
                    (wrapper_of PolicySample.serverlist_response) client_stats).
Proof.
  split; [exact PolicySample_started_reachable |]. split; [reflexivity |].
  destruct (duplicate_serverlists_suppressed PolicySample.started O
              PolicySample.serverlist_response PolicySample.serverlist_response
              PolicySample_started_reachable eq_refl eq_refl eq_refl eq_refl)
    as (_ & (st2 & identical & Hrun & Hid & _ & Hnew) & _).
  vm_compute in Hid. injection Hid as <-.
  destruct (Hnew eq_refl) as (u & client_stats & Hcu & Hadd).
  exists st2, u, client_stats. split; [exact Hrun |]. split; [exact Hcu | exact Hadd].
Defined.

(** C2 as stated fails on two counts.  A serverlist message equal to
    the current serverlist, sent twice, gives the child policy no
    update for the pair.  And a FALLBACK message that finds the policy
    in fallback mode already is ignored: it leaves the current
    serverlist in place, so the equal serverlist after it is dropped
    as a duplicate. *)
Lemma equal_serverlist_messages_without_update :
  (GrpcLb.lb_calld_ PolicySample.serving = Some O
   /\ PolicySample.child_updates_during
        [received 0 PolicySample.serverlist_response;
         received 0 PolicySample.serverlist_response]
        PolicySample.serving
      = Some O)
  /\ (GrpcLb.lb_calld_ PolicySample.lost_balancer = Some 1%nat
      /\ GrpcLb.fallback_mode_ PolicySample.lost_balancer = true
      /\ (GrpcLb.serverlist_
            <$> GrpcLb.step (received 1 PolicySample.fallback_response)
                  PolicySample.lost_balancer)
         = Some (Some O)
      /\ PolicySample.child_updates_during
           [received 1 PolicySample.fallback_response;
            received 1 PolicySample.serverlist_response]
           PolicySample.lost_balancer
         = Some O).
Proof. vm_compute. repeat split. Qed.

Lemma serverlist_ends_startup_fallback_witness :
  GrpcLb.reachable PolicySample.started
  /\ GrpcLb.lb_calld_ PolicySample.started = Some O
  /\ GrpcLb.fallback_at_startup_checks_pending_ PolicySample.started = true
  /\ exists st1,
       GrpcLb.step (received 0 PolicySample.serverlist_response) PolicySample.started
       = Some st1
       /\ GrpcLb.fallback_at_startup_checks_pending_ st1 = false
       /\ cancels_checks PolicySample.started st1
       /\ GrpcLb.step GrpcLb.EvFallbackTimer st1 = Some st1.
Proof.
  split; [exact PolicySample_started_reachable |].
  split; [reflexivity |]. split; [reflexivity |].
  destruct (serverlist_ends_startup_fallback PolicySample.started O
              PolicySample.serverlist_response
              PolicySample_started_reachable eq_refl eq_refl)
    as (st1 & Hs & Hp & Hc & Ht & _).
  exists st1. split; [exact Hs |]. split; [exact Hp |].
  split; [exact (Hc eq_refl) | exact (Ht [] st1 eq_refl)].
Defined.

Lemma post_startup_fallback_check_witness :
  GrpcLb.reachable PolicySample.serving
  /\ exists st',
       GrpcLb.step (GrpcLb.EvBalancerStatusReceived 0) PolicySample.serving = Some st'
       /\ GrpcLb.fallback_mode_ st' = true
       /\ exists u,
            fallback_update PolicySample.serving u
            /\ GrpcLb.child_updates st'
               = GrpcLb.child_updates PolicySample.serving ++ [u].
Proof.
  split; [exact PolicySample_serving_reachable |].
  destruct (proj2 (post_startup_fallback_check PolicySample.serving
                     PolicySample_serving_reachable)
              O _ eq_refl eq_refl eq_refl) as (st' & Hs & Hdue & _).
  exists st'. split; [exact Hs |]. apply Hdue.
  split; [reflexivity |]. split; [reflexivity |].
  split; [left; reflexivity | reflexivity].
Defined.

Lemma call_end_retries_witness :
  GrpcLb.reachable PolicySample.started
  /\ exists st',
       GrpcLb.step (GrpcLb.EvBalancerStatusReceived 0) PolicySample.started = Some st'
       /\ GrpcLb.lb_calld_ st' = None
       /\ GrpcLb.lb_call_backoff_ st' = 1600
       /\ is_Some (GrpcLb.lb_call_retry_timer_handle_ st')
       /\ exists s', GrpcLb.step GrpcLb.EvBalancerCallRetryTimer st' = Some s'.
Proof.
  split; [exact PolicySample_started_reachable |].
  destruct (call_end_retries PolicySample.started O _
              PolicySample_started_reachable eq_refl eq_refl)
    as (st' & Hs & _ & Hretry & Htimer).
  destruct (Hretry eq_refl) as (Hc & _ & Hb & Hh & _).
  destruct (Htimer [] st' eq_refl) as (s' & Hs' & _).
  exists st'. split; [exact Hs |]. split; [exact Hc |].
  split; [exact Hb |]. split; [exact Hh |].
  exists s'. exact Hs'.
Defined.

Lemma UpdateLocked_status_witness :
  UpdateArgs.config PolicySample.update = Some PolicySample.config
  /\ exists st',
       GrpcLb.UpdateLocked PolicySample.policy PolicySample.update
       = Some (OkStatus, st')
       /\ GrpcLb.lb_channel_ st' <> None.
Proof.
  split; [reflexivity |].
  destruct (UpdateLocked_status PolicySample.policy PolicySample.update
              PolicySample.config (PolicySample_after_reachable [] I) eq_refl)
    as (status & st' & Hu & _ & _ & Hok & _ & Hch).
  exists st'. rewrite <- (Hok ltac:(discriminate)). split; [exact Hu | exact Hch].
Defined.

(** C6 as stated fails: an update without balancer addresses returns
    the unavailable status, and on the way the balancer channel is
    created and sent the empty address list. *)
Lemma update_without_balancers_acts_on_channel :
  ExtractBalancerAddresses (UpdateArgs.args PolicySample.update_without_balancers) = []
  /\ GrpcLb.lb_channel_ PolicySample.policy = None
  /\ (fun r => (fst r, GrpcLb.lb_channel_ (snd r), GrpcLb.effects (snd r)))
       <$> GrpcLb.UpdateLocked PolicySample.policy PolicySample.update_without_balancers
     = Some (ErrorStatus kUnavailable "balancer address list must be non-empty",
             Some "fake:///svc.example.com",
             [ChannelCreate "fake:///svc.example.com"; SetResponseAsync [];
              TimerRunAfter FallbackTimer 10000; AddConnectivityWatcher;
              CallStartQuery 0]).
Proof. vm_compute. repeat split. Qed.

Lemma PolicySample_reporting_reachable : GrpcLb.reachable PolicySample.reporting.
Proof. apply PolicySample_after_reachable. vm_compute. exact I. Defined.

Lemma child_endpoints_carry_token_arg_witness :
  GrpcLb.reachable PolicySample.serving
  /\ length (GrpcLb.child_updates PolicySample.serving) = 1%nat
  /\ (forall u it e,
        In u (GrpcLb.child_updates PolicySample.serving) ->
        ChildUpdateArgs.addresses u = IsOk it ->
        In e (EndpointAddressesIterator.endpoints it) ->
        forall (s : @GrpcLb.t PolicySample.backoff_ops) address created,
          GrpcLb.Helper_CreateSubchannel s address (args e) created <> None)
  /\ GrpcLb.reachable PolicySample.reporting
  /\ forall st',
       GrpcLb.CreateOrUpdateChildPolicyLocked PolicySample.reporting = Some st' ->
       exists u sit,
         GrpcLb.child_updates st' = GrpcLb.child_updates PolicySample.reporting ++ [u]
         /\ ChildUpdateArgs.addresses u
            = IsOk (EndpointAddressesIterator.OfServerlist sit)
         /\ forall e,
              In e (EndpointAddressesIterator.endpoints
                      (EndpointAddressesIterator.OfServerlist sit)) ->
              exists arg,
                ChannelArgs.GetObject (args e) = Some arg
                /\ TokenAndClientStatsArg.lb_token arg = "t"
                /\ TokenAndClientStatsArg.client_stats arg = Some O.
Proof.
  split; [exact PolicySample_serving_reachable |]. split; [reflexivity |].
  split.
  { intros u it e Hu Hadd He.
    exact (proj2 (proj1 (child_endpoints_carry_token_arg PolicySample.serving
                           PolicySample_serving_reachable) u it e Hu Hadd He)). }
  split; [exact PolicySample_reporting_reachable |].
  intros st' Hc.
  assert (Hsd : GrpcLb.shutting_down_ PolicySample.reporting = false)
    by (vm_compute; reflexivity).
  assert (Hfm : GrpcLb.fallback_mode_ PolicySample.reporting = false)
    by (vm_compute; reflexivity).
  assert (Hcall : exists c,
            GrpcLb.lb_calld_ PolicySample.reporting = Some O
            /\ GrpcLb.calls PolicySample.reporting !! O = Some c
            /\ BalancerCallState.client_stats_ c = Some O).
  { vm_compute. eexists. split; [reflexivity |]. split; reflexivity. }
  destruct Hcall as (c & Hcur & Hl & Hstats).
  destruct (proj2 (child_endpoints_carry_token_arg PolicySample.reporting
                     PolicySample_reporting_reachable) st' Hsd Hfm Hc)
    as (u & p & sl & cs & Hcu & Hp & Hsl & _ & Hadd & _ & _ & Hends).
  vm_compute in Hp. injection Hp as <-.
  vm_compute in Hsl. injection Hsl as <-.
  exists u. eexists. split; [exact Hcu |]. split; [exact Hadd |].
  intros e He.
  destruct (Hends e He) as (server & arg & Hin & _ & Hg & Hb & _ & Harg).
  exists arg. split; [exact Hg |].
  destruct Hin as [<- | []]. split.
  - destruct (bytes_before_NUL_read _ _ _ Hb) as [_ Htok].
    vm_compute in Htok. symmetry. exact Htok.
  - rewrite (Harg O c Hcur Hl). exact Hstats.
Defined.

Lemma Pick_complete_metadata_witness :
  exists self' h' tracker,
    Picker.Pick (Sample.picker None (Sample.completing_child (Sample.wrapper "" None)))
      Sample.pick_args (Sample.heap1 Sample.mixed)
    = Some (PickResult.IsComplete
              {| PickResult.subchannel := 7%nat;
                 PickResult.subchannel_call_tracker := tracker;
                 PickResult.metadata_mutations := [] |},
            self', h').
Proof.
  destruct (Pick_complete_metadata (backoff_ops := PolicySample.backoff_ops)
              (Sample.picker None (Sample.completing_child (Sample.wrapper "" None)))
              (Sample.heap1 Sample.mixed) Sample.pick_args _
              (Sample_picker_refs_valid None
                 (Sample.completing_child (Sample.wrapper "" None)) Sample.mixed
                 ltac:(intros p Hp; discriminate Hp)
                 ltac:(intros hist a c q Hd Hq; simpl in Hd; injection Hd as <-;
                       discriminate Hq))
              eq_refl eq_refl)
    as (self' & h' & tracker & added & Hpick & Htok & _).
  assert (Hadded : added = []).
  { vm_compute in Hpick. injection Hpick as _ Hm _ _. symmetry. exact Hm. }
  rewrite Hadded in Hpick. exists self', h', tracker. exact Hpick.
Defined.

(** ** The further properties, on the samples *)

Lemma ShouldDrop_full_cycle_witness :
  fst (ShouldDrop_times 4 Sample.mixed) = [None; Some "x"; None; None]
  /\ Serverlist.drop_index_ (snd (ShouldDrop_times 4 Sample.mixed)) = 4.
Proof.
  destruct (ShouldDrop_full_cycle Sample.mixed) as (Htokens & _ & Hafter).
  - discriminate.
  - vm_compute. discriminate.
  - vm_compute. discriminate.
  - change (length (Serverlist.serverlist_ Sample.mixed)) with 4%nat in Htokens, Hafter.
    split.
    + rewrite Htokens. reflexivity.
    + rewrite Hafter. reflexivity.
Defined.

Lemma handlers_never_crash_witness :
  GrpcLb.reachable PolicySample.started
  /\ exists st',
       GrpcLb.step GrpcLb.EvBalancerCallRetryTimer PolicySample.started = Some st'
       /\ GrpcLb.reachable st'.
Proof.
  split; [exact PolicySample_started_reachable |].
  apply (handlers_never_crash PolicySample.started GrpcLb.EvBalancerCallRetryTimer
           PolicySample_started_reachable).
  left. vm_compute. discriminate.
Defined.


Lemma balancer_channel_failure_at_startup_witness :
  GrpcLb.reachable PolicySample.started
  /\ exists st',
       GrpcLb.step (GrpcLb.EvBalancerChannelState GRPC_CHANNEL_TRANSIENT_FAILURE)
         PolicySample.started = Some st'
       /\ GrpcLb.fallback_mode_ st' = true
       /\ GrpcLb.fallback_at_startup_checks_pending_ st' = false.
Proof.
  split; [exact PolicySample_started_reachable |].
  destruct (balancer_channel_failure_at_startup PolicySample.started
              GRPC_CHANNEL_TRANSIENT_FAILURE PolicySample_started_reachable)
    as (st' & Hs & Hfail & _).
  assert (Hp : GrpcLb.fallback_at_startup_checks_pending_ PolicySample.started = true)
    by (vm_compute; reflexivity).
  assert (Hsd : GrpcLb.shutting_down_ PolicySample.started = false)
    by (vm_compute; reflexivity).
  destruct (Hfail Hp eq_refl Hsd) as (Hfm & Hpend & _).
  exists st'. split; [exact Hs |]. split; [exact Hfm | exact Hpend].
Defined.

Lemma child_state_update_wraps_picker_witness :
  GrpcLb.reachable PolicySample.serving
  /\ exists st' before,
       GrpcLb.step (GrpcLb.EvChildUpdateState GRPC_CHANNEL_READY OkStatus
                      Sample.queueing_child) PolicySample.serving = Some st'
       /\ GrpcLb.effects st'
          = GrpcLb.effects PolicySample.serving ++ before
            ++ [ParentUpdateState GRPC_CHANNEL_READY OkStatus
                  {| Picker.serverlist_ := Some O;
                     Picker.child_picker_ := Sample.queueing_child;
                     Picker.client_stats_ := None |}].
Proof.
  split; [exact PolicySample_serving_reachable |].
  assert (Hsd : GrpcLb.shutting_down_ PolicySample.serving = false)
    by (vm_compute; reflexivity).
  assert (Hch : GrpcLb.child_policy_ PolicySample.serving = true)
    by (vm_compute; reflexivity).
  assert (Hsl : GrpcLb.serverlist_ PolicySample.serving = Some O)
    by (vm_compute; reflexivity).
  assert (Hcall : exists c,
            GrpcLb.lb_calld_ PolicySample.serving = Some O
            /\ GrpcLb.calls PolicySample.serving !! O = Some c
            /\ BalancerCallState.client_stats_ c = None).
  { vm_compute. eexists. split; [reflexivity |]. split; reflexivity. }
  destruct Hcall as (c & Hcur & Hl & Hstats).
  destruct (child_state_update_wraps_picker PolicySample.serving GRPC_CHANNEL_READY
              OkStatus Sample.queueing_child PolicySample_serving_reachable Hsd Hch)
    as (st' & before & serverlist & client_stats & Hs & _ & He & _ & Hready & _ & _
        & _ & Hcs).
  exists st', before. split; [exact Hs |].
  rewrite He, (Hready eq_refl), Hsl, (Hcs O c Hcur Hl), Hstats. reflexivity.
Defined.

Lemma balancer_message_handling_witness :
  GrpcLb.reachable PolicySample.started
  /\ GrpcLb.step (GrpcLb.EvBalancerMessageReceived 0 None) PolicySample.started
     = Some PolicySample.started
  /\ GrpcLb.step (received 7 PolicySample.serverlist_response) PolicySample.started
     = Some PolicySample.started.
Proof.
  split; [exact PolicySample_started_reachable |].
  split.
  - apply (proj1 (balancer_message_handling PolicySample.started O
                    PolicySample_started_reachable)).
    right. reflexivity.
  - apply (proj1 (balancer_message_handling PolicySample.started 7%nat
                    PolicySample_started_reachable)).
    left. vm_compute. discriminate.
Defined.

Lemma child_update_content_witness :
  GrpcLb.reachable PolicySample.serving
  /\ exists st' u,
       GrpcLb.CreateOrUpdateChildPolicyLocked PolicySample.serving = Some st'
       /\ GrpcLb.effects st'
          = GrpcLb.effects PolicySample.serving ++ [ChildUpdateLocked u]
       /\ ChildUpdateArgs.config u = "round_robin"
       /\ ChildUpdateArgs.resolution_note u = "".
Proof.
  split; [exact PolicySample_serving_reachable |].
  assert (Hsd : GrpcLb.shutting_down_ PolicySample.serving = false)
    by (vm_compute; reflexivity).
  assert (Hfm : GrpcLb.fallback_mode_ PolicySample.serving = false)
    by (vm_compute; reflexivity).
  assert (Hch : GrpcLb.child_policy_ PolicySample.serving = true)
    by (vm_compute; reflexivity).
  assert (Hcfg : GrpcLb.config_ PolicySample.serving = Some PolicySample.config)
    by (vm_compute; reflexivity).
  assert (Hsl : GrpcLb.serverlist_ PolicySample.serving = Some O
                /\ serverlists (GrpcLb.heap PolicySample.serving) !! O
                   = Some (wrapper_of PolicySample.serverlist_response)).
  { vm_compute. split; reflexivity. }
  destruct Hsl as [Hp Hl].
  assert (Hrun : exists st',
            GrpcLb.CreateOrUpdateChildPolicyLocked PolicySample.serving = Some st').
  { vm_compute. eexists. reflexivity. }
  destruct Hrun as (st' & Hrun).
  destruct (child_update_content PolicySample.serving st'
              PolicySample_serving_reachable Hsd Hrun)
    as (u & config & Hc & He & _ & Hconfig & _ & _ & _ & _ & _ & Hserving).
  exists st', u. split; [exact Hrun |].
  rewrite Hch in He. split; [exact He |].
  rewrite Hcfg in Hc. injection Hc as <-. split; [exact Hconfig |].
  destruct (Hserving Hfm) as (p & sl & client_stats & Hp' & Hl' & _ & Hnote).
  rewrite Hp in Hp'. injection Hp' as <-.
  rewrite Hl in Hl'. injection Hl' as <-.
  exact Hnote.
Defined.

Lemma first_update_starts_everything_witness :
  exists status st',
    GrpcLb.UpdateLocked PolicySample.policy PolicySample.update = Some (status, st')
    /\ GrpcLb.lb_channel_ st' = Some "fake:///svc.example.com"
    /\ GrpcLb.lb_calld_ st' = Some O
    /\ GrpcLb.fallback_at_startup_checks_pending_ st' = true.
Proof.
  destruct (first_update_starts_everything (backoff_ops := PolicySample.backoff_ops)
              "svc.example.com" None 1000 PolicySample.update PolicySample.config
              eq_refl)
    as (status & st' & Hu & _ & Hch & Hp & _ & Hcall & _).
  exists status, st'. split; [exact Hu |]. split; [exact Hch |].
  split; [exact Hcall | exact Hp].
Defined.

Lemma later_update_reaches_child_witness :
  GrpcLb.reachable PolicySample.serving
  /\ exists status st' u,
       GrpcLb.UpdateLocked PolicySample.serving PolicySample.update_without_balancers
       = Some (status, st')
       /\ GrpcLb.serverlist_ st' = GrpcLb.serverlist_ PolicySample.serving
       /\ GrpcLb.effects st'
          = GrpcLb.effects PolicySample.serving
            ++ [SetResponseAsync []; ChildUpdateLocked u].
Proof.
  split; [exact PolicySample_serving_reachable |].
  assert (Hsd : GrpcLb.shutting_down_ PolicySample.serving = false)
    by (vm_compute; reflexivity).
  assert (Hch : GrpcLb.child_policy_ PolicySample.serving = true)
    by (vm_compute; reflexivity).
  assert (Hchan : GrpcLb.lb_channel_ PolicySample.serving <> None)
    by (vm_compute; discriminate).
  destruct (later_update_reaches_child PolicySample.serving
              PolicySample.update_without_balancers PolicySample.config
              PolicySample_serving_reachable Hchan Hsd eq_refl)
    as (status & st' & Hu & _ & _ & _ & _ & _ & Hsl & _ & _ & _ & Hchild).
  destruct (Hchild Hch) as (u & He & _).
  exists status, st', u. split; [exact Hu |]. split; [exact Hsl | exact He].
Defined.

Lemma orphaned_subchannel_is_cached_witness :
  exists self',
    SubchannelCache.step
      (SubchannelCache.EvOrphaned (Sample.wrapper "t" None) 100 101)
      (SubchannelCache.make None) = Some self'
    /\ SubchannelCache.subchannel_cache_timer_handle_ self' = Some O
    /\ SubchannelCache.effects self' = [SubchannelCache.RunAfter 9999].
Proof.
  destruct (orphaned_subchannel_is_cached None [] (SubchannelCache.make None)
              (Sample.wrapper "t" None) 100 101 eq_refl)
    as (self' & Hs & _ & Hcached).
  destruct (Hcached eq_refl) as (_ & _ & _ & Hfirst).
  destruct (Hfirst eq_refl) as [Hh He].
  exists self'. split; [exact Hs |]. split; [exact Hh | exact He].
Defined.

Lemma cache_timer_releases_earliest_witness :
  exists self self',
    SubchannelCache.run
      [SubchannelCache.EvOrphaned (Sample.wrapper "t" None) 100 101;
       SubchannelCache.EvOrphaned (Sample.wrapper "u" None) 200 201]
      (SubchannelCache.make None) = Some self
    /\ SubchannelCache.step (SubchannelCache.EvSubchannelCacheTimer 10100) self
       = Some self'
    /\ SubchannelCache.cached_subchannels_ self' = [(10200, [7%nat])]
    /\ SubchannelCache.effects self'
       = SubchannelCache.effects self ++ [SubchannelCache.RunAfter 100].
Proof.
  assert (Hrun : exists self,
            SubchannelCache.run
              [SubchannelCache.EvOrphaned (Sample.wrapper "t" None) 100 101;
               SubchannelCache.EvOrphaned (Sample.wrapper "u" None) 200 201]
              (SubchannelCache.make None) = Some self
            /\ SubchannelCache.cached_subchannels_ self
               = [(10100, [7%nat]); (10200, [7%nat])]).
  { vm_compute. eexists. split; reflexivity. }
  destruct Hrun as (self & Hrun & Hc).
  destruct (cache_timer_releases_earliest None _ self 10100 Hrun) as (self' & Hs & Hrel).
  rewrite Hc in Hrel. destruct Hrel as (Hrest & _ & _ & _ & _ & He).
  exists self, self'. split; [exact Hrun |]. split; [exact Hs |].
  split; [exact Hrest | exact He].
Defined.

Lemma only_the_current_call_reports_witness :
  exists self',
    LoadReport.run
      [LoadReport.EvClientLoadReportTimer LoadReportSample.busy;
       LoadReport.EvInitialRequestSent LoadReportSample.busy;
       LoadReport.EvClientLoadReportDone true]
      (LoadReport.reset_by_policy LoadReport.make false) = Some self'
    /\ LoadReport.reports (LoadReport.effects self') = []
    /\ LoadReport.timers (LoadReport.effects self') = [].
Proof.
  destruct (only_the_current_call_reports
              (LoadReport.reset_by_policy LoadReport.make false)
              [LoadReport.EvClientLoadReportTimer LoadReportSample.busy;
               LoadReport.EvInitialRequestSent LoadReportSample.busy;
               LoadReport.EvClientLoadReportDone true]
              eq_refl)
    as (self' & Hrun & _ & Hr & Ht).
  exists self'. split; [exact Hrun |]. split; [exact Hr | exact Ht].
Defined.

Lemma due_report_waits_for_initial_request_witness :
  exists self1 self2,
    LoadReport.step (LoadReport.EvClientLoadReportTimer LoadReportSample.idle)
      (LoadReport.on_serverlist
         (LoadReport.on_initial_response LoadReport.make 5000)) = Some self1
    /\ LoadReport.step (LoadReport.EvInitialRequestSent LoadReportSample.busy) self1
       = Some self2
    /\ LoadReport.effects self2
       = [LoadReport.RunAfter 5000; LoadReport.StartBatch LoadReportSample.busy].
Proof.
  destruct (due_report_waits_for_initial_request
              (LoadReport.on_serverlist
                 (LoadReport.on_initial_response LoadReport.make 5000))
              LoadReportSample.idle LoadReportSample.busy eq_refl eq_refl)
    as (self1 & self2 & Ht & _ & _ & _ & _ & Hs & _ & _ & Hsend).
  exists self1, self2. split; [exact Ht |]. split; [exact Hs |].
  destruct (Hsend (or_introl eq_refl)) as (He & _). exact He.
Defined.
